(** * AstroCycle: the simulate / reason / adapt loop of [astrocycle.py] and
      [hackathon.py]

    Modelling choices, fixed once for the whole development.

    - Python [str] values are Rocq [string]s: texts whose characters are the
      code points below 256.
    - Python [float] values are exact rationals ([Q]): the update formulas and
      the multiplicative adjustments are evaluated without rounding, overflow
      or non-finite values.  Every arithmetic result is kept in lowest terms
      (module [Num]), so that a run of many cycles can be evaluated.  Equality
      of numbers is [Qeq] ([==]).
    - What depends on rounding, overflow or NaN is stated on a second reading
      of the update functions, over the binary64 numbers of the kernel
      (modules [Astrocycle64] and [Hackathon64]): how the variables grow over
      one call and over many.
    - An object mutated in place (the electrode, the environment) is a record
      threaded through the code; a [try: ... except: pass] block is a
      computation in a state-and-exception monad whose state survives a raised
      exception, as the attributes of a Python object do.
    - The remote text-generation service is an oracle: the reply to the i-th
      request of a run.  A request that raises ends the process and is not a
      run of the driver. *)

From Stdlib Require Import Bool Arith ZArith QArith Qround List Ascii String Lia Lqa Floats.
Import ListNotations.

Set Warnings "-inexact-float".

Close Scope Q_scope.
Open Scope nat_scope.
Open Scope string_scope.

(** ** Numbers *)

(** Arithmetic on rationals in lowest terms.  [Qred] changes the
    representation of a result, never its value ([add_spec] and the like). *)
Module Num.

Definition add (a b : Q) : Q := Qred (Qplus a b).
Definition sub (a b : Q) : Q := Qred (Qminus a b).
Definition mul (a b : Q) : Q := Qred (Qmult a b).

(** [a > b]. *)
Definition gtb (a b : Q) : bool := negb (Qle_bool a b).

End Num.

Arguments Num.add : simpl never.
Arguments Num.sub : simpl never.
Arguments Num.mul : simpl never.

Infix "+!" := Num.add (at level 50, left associativity).
Infix "-!" := Num.sub (at level 50, left associativity).
Infix "*!" := Num.mul (at level 40, left associativity).
Infix ">!" := Num.gtb (at level 70, no associativity).

(** ** Python string primitives *)

Module PyStr.

(** The line feed, ['\n']. *)
Definition LF : ascii := "010"%char.
Definition newline : string := String LF EmptyString.

(** [str.isspace] on one character: TAB, LF, VT, FF, CR, FS, GS, RS, US,
    SPACE, NEL (133) and NO-BREAK SPACE (160) are the white space among the
    code points below 256. *)
Definition isspace (c : ascii) : bool :=
  let n := nat_of_ascii c in
  (Nat.leb 9 n && Nat.leb n 13) || (Nat.leb 28 n && Nat.leb n 32)
  || Nat.eqb n 133 || Nat.eqb n 160.

Definition isdigit (c : ascii) : bool :=
  let n := nat_of_ascii c in Nat.leb 48 n && Nat.leb n 57.

(** [s.startswith(p)]. *)
Fixpoint startswith (p s : string) : bool :=
  match p, s with
  | EmptyString, _ => true
  | String _ _, EmptyString => false
  | String a p', String b s' => Ascii.eqb a b && startswith p' s'
  end.

(** [needle in hay]: [needle] occurs in [hay] as a contiguous substring. *)
Fixpoint contains (needle hay : string) : bool :=
  startswith needle hay ||
  match hay with
  | EmptyString => false
  | String _ hay' => contains needle hay'
  end.

(** Does character [c] occur in [s]? *)
Fixpoint mem_char (c : ascii) (s : string) : bool :=
  match s with
  | EmptyString => false
  | String a s' => Ascii.eqb c a || mem_char c s'
  end.

(** [s.split(sep)] for a non-empty separator: the pieces between the leftmost
    non-overlapping occurrences of [sep], scanning from the left.  [skip]
    counts the characters of a matched separator still to be dropped and
    [cur] is the piece being built. *)
Fixpoint split_aux (sep : string) (skip : nat) (cur : string) (s : string)
  : list string :=
  match s with
  | EmptyString => [cur]
  | String c s' =>
      match skip with
      | S k => split_aux sep k cur s'
      | O =>
          if startswith sep s
          then cur :: split_aux sep (String.length sep - 1) EmptyString s'
          else split_aux sep 0 (cur ++ String c EmptyString) s'
      end
  end.

Definition split (sep s : string) : list string := split_aux sep 0 EmptyString s.

(** [s.split('\n')] written directly; [split_lines_eq] relates it to [split]. *)
Fixpoint split_lines (s : string) : list string :=
  match s with
  | EmptyString => [EmptyString]
  | String c s' =>
      if Ascii.eqb c LF then EmptyString :: split_lines s'
      else match split_lines s' with
           | [] => [String c EmptyString]
           | l :: ls => String c l :: ls
           end
  end.

(** [s.split()]: maximal runs of non-whitespace characters. *)
Fixpoint split_ws_aux (cur : string) (s : string) : list string :=
  match s with
  | EmptyString =>
      match cur with EmptyString => [] | _ => [cur] end
  | String c s' =>
      if isspace c
      then match cur with
           | EmptyString => split_ws_aux EmptyString s'
           | _ => cur :: split_ws_aux EmptyString s'
           end
      else split_ws_aux (cur ++ String c EmptyString) s'
  end.

Definition split_ws (s : string) : list string := split_ws_aux EmptyString s.

(** [s.lstrip()], [s.rstrip()], [s.strip()]. *)
Fixpoint lstrip (s : string) : string :=
  match s with
  | EmptyString => EmptyString
  | String c s' => if isspace c then lstrip s' else s
  end.

Fixpoint rstrip (s : string) : string :=
  match s with
  | EmptyString => EmptyString
  | String c s' =>
      match rstrip s' with
      | EmptyString => if isspace c then EmptyString else String c EmptyString
      | r => String c r
      end
  end.

Definition strip (s : string) : string := rstrip (lstrip s).

(** [l[start:]] for a list and an integer [start]: a negative [start] counts
    from the end, and an index outside the list is clipped to it. *)
Definition slice_from {A : Type} (start : Z) (l : list A) : list A :=
  let len := Z.of_nat (List.length l) in
  let first := if (start <? 0)%Z then Z.max (len + start) 0 else Z.min start len in
  skipn (Z.to_nat first) l.

(** [s[:stop]] for a text and a non-negative [stop]. *)
Definition upto (stop : nat) (s : string) : string := substring 0 stop s.

End PyStr.

(** ** Python [float(str)] *)

Module PyFloat.

Local Open Scope Z_scope.

(** The white space [float] trims from both ends of its argument: that of
    the C locale (TAB to CR, SPACE) and, above 127, the characters it first
    rewrites to a space (NEL, NO-BREAK SPACE). *)
Definition isspace_c (c : ascii) : bool :=
  let n := nat_of_ascii c in
  (Nat.leb 9 n && Nat.leb n 13) || Nat.eqb n 32
  || Nat.eqb n 133 || Nat.eqb n 160.

Fixpoint ltrim (s : string) : string :=
  match s with
  | EmptyString => EmptyString
  | String c s' => if isspace_c c then ltrim s' else s
  end.

Fixpoint rtrim (s : string) : string :=
  match s with
  | EmptyString => EmptyString
  | String c s' =>
      match rtrim s' with
      | EmptyString => if isspace_c c then EmptyString else String c EmptyString
      | r => String c r
      end
  end.

(** Underscores of a numeric literal: one is allowed only between two digits.
    [prev] is the previous character, if any.  The result is the text with
    the underscores removed, or [None] where one is misplaced. *)
Fixpoint strip_underscores (prev : option ascii) (s : string) : option string :=
  match s with
  | EmptyString =>
      match prev with
      | Some p => if Ascii.eqb p "_" then None else Some EmptyString
      | None => Some EmptyString
      end
  | String c s' =>
      let prev_digit := match prev with Some p => PyStr.isdigit p | None => false end in
      let prev_under := match prev with Some p => Ascii.eqb p "_" | None => false end in
      if Ascii.eqb c "_"
      then if prev_digit then strip_underscores (Some c) s' else None
      else if prev_under && negb (PyStr.isdigit c) then None
           else match strip_underscores (Some c) s' with
                | Some r => Some (String c r)
                | None => None
                end
  end.

Definition digit_value (c : ascii) : Z := Z.of_nat (nat_of_ascii c) - 48.

(** Reads the leading decimal digits of [s] after the digits already read
    ([acc] their value, [n] their number); returns the value, the number of
    digits and the unread rest. *)
Fixpoint digits (acc : Z) (n : nat) (s : string) : Z * nat * string :=
  match s with
  | EmptyString => (acc, n, s)
  | String c s' =>
      if PyStr.isdigit c then digits (10 * acc + digit_value c) (S n) s'
      else (acc, n, s)
  end.

(** An optional sign: [true] for a minus. *)
Definition sign (s : string) : bool * string :=
  match s with
  | String "-" s' => (true, s')
  | String "+" s' => (false, s')
  | _ => (false, s)
  end.

(** The exponent part: [e] or [E], an optional sign and at least one digit,
    up to the end of the text.  An empty rest is exponent 0. *)
Definition exponent (s : string) : option Z :=
  match s with
  | EmptyString => Some 0
  | String c s' =>
      if Ascii.eqb c "e" || Ascii.eqb c "E"
      then let '(neg, s1) := sign s' in
           match digits 0 0 s1 with
           | (_, O, _) => None
           | (v, S _, EmptyString) => Some (if neg then - v else v)
           | (_, S _, String _ _) => None
           end
      else None
  end.

(** A finite decimal literal: sign, integer digits, optional point and
    fraction digits (at least one digit in all), optional exponent.  The
    value is exact.  The spellings of infinities and NaN denote no rational
    and are not literals of this model. *)
Definition literal (s : string) : option Q :=
  let '(neg, s1) := sign s in
  let '(ip, ni, s2) := digits 0 0 s1 in
  let '(m, nf, s3) :=
    match s2 with
    | String "." s2' => digits ip 0 s2'
    | _ => (ip, O, s2)
    end in
  match (ni + nf)%nat with
  | O => None
  | S _ =>
      match exponent s3 with
      | Some e =>
          Some (Num.mul (inject_Z (if neg then - m else m))
                        (Qpower (10 # 1) (e - Z.of_nat nf)))
      | None => None
      end
  end.

(** [float(s)]: [None] stands for the [ValueError] it raises. *)
Definition float (s : string) : option Q :=
  let t := rtrim (ltrim s) in
  if PyStr.mem_char "_" t
  then match strip_underscores None t with
       | Some t' => literal t'
       | None => None
       end
  else literal t.

End PyFloat.

(** ** Exceptions over a mutable object *)

(** The exceptions the parsing code can raise. *)
Inductive exn : Type :=
| ValueError   (* float() of a text that is no number *)
| IndexError.  (* list index out of range *)

(** A computation over a mutable object of type [St]: it ends with a value or
    with a raised exception, and in both cases with the object as it then is. *)
Definition M (St A : Type) : Type := St -> (exn + A) * St.

Definition ret {St A} (a : A) : M St A := fun s => (inr a, s).

Definition raise {St A} (e : exn) : M St A := fun s => (inl e, s).

Definition bind {St A B} (m : M St A) (k : A -> M St B) : M St B :=
  fun s =>
    match m s with
    | (inr a, s') => k a s'
    | (inl e, s') => (inl e, s')
    end.

Definition modify {St} (f : St -> St) : M St unit := fun s => (inr tt, f s).

Notation "x <- m ;; k" := (bind m (fun x => k))
  (at level 61, m at next level, right associativity).
Notation "m ;;; k" := (bind m (fun _ => k))
  (at level 61, right associativity).

(** [l[i]] for a list and a non-negative index. *)
Definition item {St A} (l : list A) (i : nat) : M St A :=
  match nth_error l i with
  | Some x => ret x
  | None => raise IndexError
  end.

(** [float(s)] as a computation. *)
Definition to_float {St} (s : string) : M St Q :=
  match PyFloat.float s with
  | Some q => ret q
  | None => raise ValueError
  end.

(** [if c: body] with no [else]. *)
Definition when {St} (c : bool) (body : M St unit) : M St unit :=
  if c then body else ret tt.

(** [try: body  except: pass]: whatever [body] raises is dropped; what it did
    to the object before raising stays. *)
Definition try_except_pass {St} (body : M St unit) (s : St) : St := snd (body s).

(** [round(x, n)]: to the nearest multiple of [10^-n], ties to the even one. *)
Definition round (x : Q) (n : nat) : Q :=
  let scale := (10 ^ Z.of_nat n)%Z in
  let y := Qmult x (inject_Z scale) in
  let f := Qfloor y in
  let r := Qminus y (inject_Z f) in
  let up :=
    match Qcompare r (1 # 2) with
    | Lt => false
    | Gt => true
    | Eq => Z.odd f
    end in
  Qmake (if up then f + 1 else f)%Z (Z.to_pos scale).

(** ** [astrocycle.py] *)

Module Astrocycle.

Local Open Scope Q_scope.

(** [class IonThrusterElectrode]. *)
Record IonThrusterElectrode : Type := {
  sputtering_depth : Q;
  surface_roughness : Q;
  microcracks : Q;
  thermal_stress : Q;
  hot_spot_formation : Q;
  electrical_resistance : Q;
  arc_discharge_risk : Q;
  thrust_efficiency_loss : Q;
  cycle_count : Z;
  critical_failure : bool
}.

(** [IonThrusterElectrode.__init__]. *)
Definition new_electrode : IonThrusterElectrode :=
  {| sputtering_depth := 0.0;
     surface_roughness := 0.05;
     microcracks := 0.02;
     thermal_stress := 0.03;
     hot_spot_formation := 0.01;
     electrical_resistance := 1.0;
     arc_discharge_risk := 0.05;
     thrust_efficiency_loss := 0.0;
     cycle_count := 0;
     critical_failure := false |}.

(** The dictionary built by [to_dict], one field per key. *)
Record ElectrodeDict : Type := {
  d_cycle : Z;
  d_sputtering_depth_um : Q;
  d_surface_roughness : Q;
  d_microcracks : Q;
  d_thermal_stress : Q;
  d_hot_spot_formation : Q;
  d_electrical_resistance : Q;
  d_arc_discharge_risk : Q;
  d_thrust_efficiency_loss_pct : Q;
  d_critical_failure : bool
}.

Definition to_dict (self : IonThrusterElectrode) : ElectrodeDict :=
  {| d_cycle := cycle_count self;
     d_sputtering_depth_um := round (sputtering_depth self) 3;
     d_surface_roughness := round (surface_roughness self) 3;
     d_microcracks := round (microcracks self) 3;
     d_thermal_stress := round (thermal_stress self) 3;
     d_hot_spot_formation := round (hot_spot_formation self) 3;
     d_electrical_resistance := round (electrical_resistance self) 3;
     d_arc_discharge_risk := round (arc_discharge_risk self) 3;
     d_thrust_efficiency_loss_pct := round (thrust_efficiency_loss self *! 100) 2;
     d_critical_failure := critical_failure self |}.

(** The three critical-failure conditions, read on the updated values. *)
Definition failure_condition
    (arc_discharge_risk sputtering_depth thrust_efficiency_loss : Q) : bool :=
  (arc_discharge_risk >! 0.7)
  || (sputtering_depth >! 50.0)
  || (thrust_efficiency_loss >! 0.3).

(** [IonThrusterElectrode.apply_degradation].  The statements are in source
    order; [x'] is attribute [x] after its assignment, so a right-hand side
    reads [x'] where the source reads an attribute already assigned and
    [x self] where it reads one not yet assigned. *)
Definition apply_degradation (self : IonThrusterElectrode)
    (ion_flux voltage thermal_cycling : Q) (mission_hours : Z)
  : IonThrusterElectrode :=
  let sputter_rate := ion_flux *! 0.015 *! (1 +! surface_roughness self *! 0.3) in
  let sputtering_depth' := sputtering_depth self +! sputter_rate in
  let surface_roughness' :=
    surface_roughness self +! sputter_rate *! 0.8 *! (1 +! thermal_stress self *! 0.5) in
  let crack_growth := thermal_cycling *! 0.018 *! (1 +! sputtering_depth' *! 0.4) in
  let microcracks' := microcracks self +! crack_growth in
  let thermal_stress' :=
    thermal_stress self +! thermal_cycling *! 0.02 *! (1 +! microcracks' *! 1.2) in
  let hot_spot_formation' :=
    hot_spot_formation self +! (microcracks' *! surface_roughness') *! 0.025 in
  let resistance_increase :=
    microcracks' *! 0.08 +! sputtering_depth' *! 0.05 +! hot_spot_formation' *! 0.12 in
  let electrical_resistance' := electrical_resistance self +! resistance_increase in
  let arc_discharge_risk' :=
    arc_discharge_risk self
    +! (voltage *! electrical_resistance' *! 0.01 +! hot_spot_formation' *! 0.15) in
  let thrust_efficiency_loss' :=
    thrust_efficiency_loss self
    +! (sputtering_depth' *! 0.02 +! electrical_resistance' *! 0.015
        +! surface_roughness' *! 0.01) in
  let critical_failure' :=
    if failure_condition arc_discharge_risk' sputtering_depth' thrust_efficiency_loss'
    then true
    else critical_failure self in
  {| sputtering_depth := sputtering_depth';
     surface_roughness := surface_roughness';
     microcracks := microcracks';
     thermal_stress := thermal_stress';
     hot_spot_formation := hot_spot_formation';
     electrical_resistance := electrical_resistance';
     arc_discharge_risk := arc_discharge_risk';
     thrust_efficiency_loss := thrust_efficiency_loss';
     cycle_count := (cycle_count self + 1)%Z;
     critical_failure := critical_failure' |}.

(** Successive calls of [apply_degradation] on one electrode, each with its
    own arguments [(ion_flux, voltage, thermal_cycling, mission_hours)]. *)
Definition apply_degradations (calls : list (Q * Q * Q * Z))
    (self : IonThrusterElectrode) : IonThrusterElectrode :=
  fold_left
    (fun e '(ion_flux, voltage, thermal_cycling, mission_hours) =>
       apply_degradation e ion_flux voltage thermal_cycling mission_hours)
    calls self.

(** [class MissionEnvironment]. *)
Record MissionEnvironment : Type := {
  ion_flux : Q;
  voltage : Q;
  thermal_cycling : Q;
  mission_hours : Z
}.

Definition new_environment : MissionEnvironment :=
  {| ion_flux := 1.0; voltage := 1.0; thermal_cycling := 1.0; mission_hours := 100 |}.

Definition set_ion_flux (env : MissionEnvironment) (v : Q) :=
  {| ion_flux := v; voltage := voltage env;
     thermal_cycling := thermal_cycling env; mission_hours := mission_hours env |}.

Definition set_voltage (env : MissionEnvironment) (v : Q) :=
  {| ion_flux := ion_flux env; voltage := v;
     thermal_cycling := thermal_cycling env; mission_hours := mission_hours env |}.

Definition set_thermal_cycling (env : MissionEnvironment) (v : Q) :=
  {| ion_flux := ion_flux env; voltage := voltage env;
     thermal_cycling := v; mission_hours := mission_hours env |}.

(** The marker of the recommendation line. *)
Definition marker : string := "RECOMMEND:".

(** The lines of [reasoning] that contain the marker. *)
Definition marker_lines (reasoning : string) : list string :=
  filter (PyStr.contains marker) (PyStr.split PyStr.newline reasoning).

(** Step 4 of [run_brain_cycle], the body of its [try]. *)
Definition parse_adjustments (reasoning : string) : M MissionEnvironment unit :=
  when (PyStr.contains marker reasoning)
    (recommend_line <- item (marker_lines reasoning) 0 ;;
     when (PyStr.contains "ion_flux=" recommend_line)
       (after <- item (PyStr.split "ion_flux=" recommend_line) 1 ;;
        token <- item (PyStr.split "," after) 0 ;;
        flux_val <- to_float (PyStr.strip token) ;;
        modify (fun env => set_ion_flux env (ion_flux env *! flux_val))) ;;;
     when (PyStr.contains "voltage=" recommend_line)
       (after <- item (PyStr.split "voltage=" recommend_line) 1 ;;
        token <- item (PyStr.split "," after) 0 ;;
        volt_val <- to_float (PyStr.strip token) ;;
        modify (fun env => set_voltage env (voltage env *! volt_val))) ;;;
     when (PyStr.contains "thermal=" recommend_line)
       (after <- item (PyStr.split "thermal=" recommend_line) 1 ;;
        thermal_val <- to_float (PyStr.strip after) ;;
        modify (fun env => set_thermal_cycling env (thermal_cycling env *! thermal_val)))).

(** Step 4 as a whole: [try: ... except: pass]. *)
Definition apply_adjustments (reasoning : string) (env : MissionEnvironment)
  : MissionEnvironment :=
  try_except_pass (parse_adjustments reasoning) env.

(** The window of history that [run_brain_cycle] puts in its prompt. *)
Definition recent_history (cycle_history : list ElectrodeDict) : list ElectrodeDict :=
  if Nat.leb 4 (List.length cycle_history)
  then PyStr.slice_from (-4) cycle_history
  else cycle_history.

(** What [run_simulation] prints under "AI ANALYSIS" in a cycle: the three
    fields taken from the reply, or the first 200 characters of the reply. *)
Inductive Analysis : Type :=
| Fields (accel interaction failure : string)
| Excerpt (text : string).

(** The body of the [try] that takes the three fields from the reply. *)
Definition analysis_fields (reasoning : string) : M unit (string * string * string) :=
  a1 <- item (PyStr.split "ACCELERATION:" reasoning) 1 ;;
  a0 <- item (PyStr.split "INTERACTION:" a1) 0 ;;
  i1 <- item (PyStr.split "INTERACTION:" reasoning) 1 ;;
  i0 <- item (PyStr.split "FAILURE_CHAIN:" i1) 0 ;;
  f1 <- item (PyStr.split "FAILURE_CHAIN:" reasoning) 1 ;;
  f0 <- item (PyStr.split "RECOMMEND:" f1) 0 ;;
  ret (PyStr.strip a0, PyStr.strip i0, PyStr.strip f0).

(** [if "ACCELERATION:" in reasoning: try: ... except: ...  else: ...]. *)
Definition analysis_report (reasoning : string) : Analysis :=
  if PyStr.contains "ACCELERATION:" reasoning
  then match fst (analysis_fields reasoning tt) with
       | inr (accel, interaction, failure) => Fields accel interaction failure
       | inl _ => Excerpt (PyStr.upto 200 reasoning)
       end
  else Excerpt (PyStr.upto 200 reasoning).

(** What a run carries from one cycle to the next: the two objects and the
    two lists [run_simulation] appends to. *)
Record Simulation : Type := {
  electrode : IonThrusterElectrode;
  environment : MissionEnvironment;
  cycle_history : list ElectrodeDict;
  all_reasoning : list string
}.

(** How the [for] loop of [run_simulation] was left: by exhausting its range,
    or by the [break] taken at index [i]. *)
Inductive DriverState : Type :=
| Completed
| TerminatedEarly (i : nat).

Section Driver.

(** The text-generation service: [client i] is the text returned for request
    number [i] of the run, counted from 0.  The prompt sent is not modelled:
    it is read by the service only. *)
Variable client : nat -> string.

(** [run_brain_cycle]; [request] numbers the call to the service it makes. *)
Definition run_brain_cycle (request : nat) (electrode : IonThrusterElectrode)
    (environment : MissionEnvironment) (cycle_history : list ElectrodeDict)
  : string * IonThrusterElectrode * MissionEnvironment :=
  let electrode :=
    apply_degradation electrode (ion_flux environment) (voltage environment)
      (thermal_cycling environment) (mission_hours environment) in
  let reasoning := client request in
  let environment := apply_adjustments reasoning environment in
  (reasoning, electrode, environment).

(** The body of the loop of [run_simulation] after the failure check. *)
Definition cycle (i : nat) (sim : Simulation) : Simulation :=
  let '(reasoning, e, env) :=
    run_brain_cycle i (electrode sim) (environment sim) (cycle_history sim) in
  {| electrode := e;
     environment := env;
     cycle_history := cycle_history sim ++ [to_dict e];
     all_reasoning := all_reasoning sim ++ [reasoning] |}.

(** [for i in range(...)]: [n] indices are left, the next one is [i]. *)
Fixpoint cycles (n i : nat) (sim : Simulation) : Simulation * DriverState :=
  match n with
  | O => (sim, Completed)
  | S n' =>
      if critical_failure (electrode sim)
      then (sim, TerminatedEarly i)
      else cycles n' (S i) (cycle i sim)
  end.

Definition start : Simulation :=
  {| electrode := new_electrode;
     environment := new_environment;
     cycle_history := [];
     all_reasoning := [] |}.

(** The loop of [run_simulation] with [N] as its maximum number of cycles. *)
Definition simulate (N : nat) : Simulation * DriverState := cycles N 0 start.

(** [run_simulation]: fifteen cycles at most, then the one synthesis request,
    whose reply is the last component. *)
Definition run_simulation : Simulation * DriverState * string :=
  let '(sim, st) := simulate 15 in
  (sim, st, client (List.length (all_reasoning sim))).

(** The run after its first [k] cycles when none of them is skipped. *)
Fixpoint after_cycles (k : nat) : Simulation :=
  match k with
  | O => start
  | S k' => cycle k' (after_cycles k')
  end.

End Driver.

End Astrocycle.

(** ** [hackathon.py] *)

Module Hackathon.

Local Open Scope Q_scope.

(** [class MaterialState]. *)
Record MaterialState : Type := {
  defect_density : Q;
  thermal_stress : Q;
  conductivity_drift : Q;
  cycle_count : Z
}.

(** [MaterialState.__init__]. *)
Definition new_state : MaterialState :=
  {| defect_density := 0.01; thermal_stress := 0.05;
     conductivity_drift := 0.0; cycle_count := 0 |}.

(** The dictionary built by [to_dict]. *)
Record StateDict : Type := {
  d_cycle : Z;
  d_defect_density : Q;
  d_thermal_stress : Q;
  d_conductivity_drift : Q
}.

Definition to_dict (self : MaterialState) : StateDict :=
  {| d_cycle := cycle_count self;
     d_defect_density := round (defect_density self) 4;
     d_thermal_stress := round (thermal_stress self) 4;
     d_conductivity_drift := round (conductivity_drift self) 4 |}.

(** [MaterialState.apply_degradation], written as the electrode's. *)
Definition apply_degradation (self : MaterialState) (radiation_level temp_cycling : Q)
  : MaterialState :=
  let defect_density' :=
    defect_density self +! radiation_level *! 0.008 *! (1 +! thermal_stress self) in
  let thermal_stress' :=
    thermal_stress self +! temp_cycling *! 0.012 *! (1 +! defect_density' *! 0.5) in
  let conductivity_drift' :=
    conductivity_drift self -! (defect_density' *! 0.015 +! thermal_stress' *! 0.008) in
  {| defect_density := defect_density';
     thermal_stress := thermal_stress';
     conductivity_drift := conductivity_drift';
     cycle_count := (cycle_count self + 1)%Z |}.

(** [class SpaceEnvironment]. *)
Record SpaceEnvironment : Type := {
  radiation_level : Q;
  temp_cycling : Q
}.

Definition new_environment : SpaceEnvironment :=
  {| radiation_level := 1.0; temp_cycling := 1.0 |}.

Definition set_radiation_level (env : SpaceEnvironment) (v : Q) :=
  {| radiation_level := v; temp_cycling := temp_cycling env |}.

Definition set_temp_cycling (env : SpaceEnvironment) (v : Q) :=
  {| radiation_level := radiation_level env; temp_cycling := v |}.

(** The marker of the adjustment line. *)
Definition marker : string := "ADJUST:".

Definition marker_lines (reasoning : string) : list string :=
  filter (PyStr.contains marker) (PyStr.split PyStr.newline reasoning).

(** Step 4 of [run_brain_cycle], the body of its [try]. *)
Definition parse_adjustments (reasoning : string) : M SpaceEnvironment unit :=
  when (PyStr.contains marker reasoning)
    (adjust_line <- item (marker_lines reasoning) 0 ;;
     when (PyStr.contains "radiation=" adjust_line)
       (after <- item (PyStr.split "radiation=" adjust_line) 1 ;;
        token <- item (PyStr.split "," after) 0 ;;
        rad_val <- to_float (PyStr.strip token) ;;
        modify (fun env => set_radiation_level env (radiation_level env *! rad_val))) ;;;
     when (PyStr.contains "temp=" adjust_line)
       (after <- item (PyStr.split "temp=" adjust_line) 1 ;;
        token <- item (PyStr.split_ws after) 0 ;;
        temp_val <- to_float (PyStr.strip token) ;;
        modify (fun env => set_temp_cycling env (temp_cycling env *! temp_val)))).

(** Step 4 as a whole: [try: ... except: pass]. *)
Definition apply_adjustments (reasoning : string) (env : SpaceEnvironment)
  : SpaceEnvironment :=
  try_except_pass (parse_adjustments reasoning) env.

(** The window of history that [run_brain_cycle] puts in its prompt. *)
Definition recent_history (cycle_history : list StateDict) : list StateDict :=
  if Nat.leb 3 (List.length cycle_history)
  then PyStr.slice_from (-3) cycle_history
  else cycle_history.

(** The line [run_simulation] prints after the state in a cycle: the text
    between "TREND:" and "RISK:", or the first 80 characters of the reply.
    No [try] surrounds it. *)
Definition trend_line (reasoning : string) : M unit string :=
  if PyStr.contains "TREND:" reasoning
  then t1 <- item (PyStr.split "TREND:" reasoning) 1 ;;
       t0 <- item (PyStr.split "RISK:" t1) 0 ;;
       ret (PyStr.strip t0)
  else ret (PyStr.upto 80 reasoning).

(** What a run carries from one cycle to the next. *)
Record Simulation : Type := {
  state : MaterialState;
  environment : SpaceEnvironment;
  cycle_history : list StateDict;
  all_reasoning : list string
}.

Section Driver.

(** The text-generation service: [client i] is the text returned for request
    number [i] of the run, counted from 0. *)
Variable client : nat -> string.

(** [run_brain_cycle]; [request] numbers the call to the service it makes. *)
Definition run_brain_cycle (request : nat) (state : MaterialState)
    (environment : SpaceEnvironment) (cycle_history : list StateDict)
  : string * MaterialState * SpaceEnvironment :=
  let state :=
    apply_degradation state (radiation_level environment) (temp_cycling environment) in
  let reasoning := client request in
  let environment := apply_adjustments reasoning environment in
  (reasoning, state, environment).

(** The body of the loop of [run_simulation]. *)
Definition cycle (i : nat) (sim : Simulation) : Simulation :=
  let '(reasoning, s, env) :=
    run_brain_cycle i (state sim) (environment sim) (cycle_history sim) in
  {| state := s;
     environment := env;
     cycle_history := cycle_history sim ++ [to_dict s];
     all_reasoning := all_reasoning sim ++ [reasoning] |}.

(** [for i in range(...)]: [n] indices are left, the next one is [i].  This
    loop has no [break]. *)
Fixpoint cycles (n i : nat) (sim : Simulation) : Simulation :=
  match n with
  | O => sim
  | S n' => cycles n' (S i) (cycle i sim)
  end.

Definition start : Simulation :=
  {| state := new_state;
     environment := new_environment;
     cycle_history := [];
     all_reasoning := [] |}.

(** The loop of [run_simulation] with [N] as its number of cycles. *)
Definition simulate (N : nat) : Simulation := cycles N 0 start.

(** [run_simulation]: ten cycles, then the one synthesis request. *)
Definition run_simulation : Simulation * string :=
  let sim := simulate 10 in
  (sim, client (List.length (all_reasoning sim))).

End Driver.

End Hackathon.

(** ** The update functions over binary64 *)

(** [apply_degradation] of both programs once more, over the binary64 numbers
    of the kernel ([PrimFloat.float]), as Python computes them: each
    operation rounds to nearest, ties to even; a result too large is an
    infinity; [0 * infinity] is not a number (NaN); a comparison with NaN is
    false.  A decimal literal stands for the binary64 number nearest to it;
    the integer [1] of the source is converted to [1.0] before it is added. *)
Module Astrocycle64.

Local Open Scope float_scope.

(** [class IonThrusterElectrode]. *)
Record IonThrusterElectrode : Type := {
  sputtering_depth : float;
  surface_roughness : float;
  microcracks : float;
  thermal_stress : float;
  hot_spot_formation : float;
  electrical_resistance : float;
  arc_discharge_risk : float;
  thrust_efficiency_loss : float;
  cycle_count : Z;
  critical_failure : bool
}.

(** [IonThrusterElectrode.__init__]. *)
Definition new_electrode : IonThrusterElectrode :=
  {| sputtering_depth := 0.0;
     surface_roughness := 0.05;
     microcracks := 0.02;
     thermal_stress := 0.03;
     hot_spot_formation := 0.01;
     electrical_resistance := 1.0;
     arc_discharge_risk := 0.05;
     thrust_efficiency_loss := 0.0;
     cycle_count := 0;
     critical_failure := false |}.

(** The three critical-failure conditions; [a > b] is [b < a]. *)
Definition failure_condition
    (arc_discharge_risk sputtering_depth thrust_efficiency_loss : float) : bool :=
  (0.7 <? arc_discharge_risk)
  || (50.0 <? sputtering_depth)
  || (0.3 <? thrust_efficiency_loss).

(** [IonThrusterElectrode.apply_degradation], statement by statement as in
    module [Astrocycle]. *)
Definition apply_degradation (self : IonThrusterElectrode)
    (ion_flux voltage thermal_cycling : float) (mission_hours : Z)
  : IonThrusterElectrode :=
  let sputter_rate := ion_flux * 0.015 * (1 + surface_roughness self * 0.3) in
  let sputtering_depth' := sputtering_depth self + sputter_rate in
  let surface_roughness' :=
    surface_roughness self + sputter_rate * 0.8 * (1 + thermal_stress self * 0.5) in
  let crack_growth := thermal_cycling * 0.018 * (1 + sputtering_depth' * 0.4) in
  let microcracks' := microcracks self + crack_growth in
  let thermal_stress' :=
    thermal_stress self + thermal_cycling * 0.02 * (1 + microcracks' * 1.2) in
  let hot_spot_formation' :=
    hot_spot_formation self + (microcracks' * surface_roughness') * 0.025 in
  let resistance_increase :=
    microcracks' * 0.08 + sputtering_depth' * 0.05 + hot_spot_formation' * 0.12 in
  let electrical_resistance' := electrical_resistance self + resistance_increase in
  let arc_discharge_risk' :=
    arc_discharge_risk self
    + (voltage * electrical_resistance' * 0.01 + hot_spot_formation' * 0.15) in
  let thrust_efficiency_loss' :=
    thrust_efficiency_loss self
    + (sputtering_depth' * 0.02 + electrical_resistance' * 0.015
       + surface_roughness' * 0.01) in
  let critical_failure' :=
    if failure_condition arc_discharge_risk' sputtering_depth' thrust_efficiency_loss'
    then true
    else critical_failure self in
  {| sputtering_depth := sputtering_depth';
     surface_roughness := surface_roughness';
     microcracks := microcracks';
     thermal_stress := thermal_stress';
     hot_spot_formation := hot_spot_formation';
     electrical_resistance := electrical_resistance';
     arc_discharge_risk := arc_discharge_risk';
     thrust_efficiency_loss := thrust_efficiency_loss';
     cycle_count := (cycle_count self + 1)%Z;
     critical_failure := critical_failure' |}.

(** Successive calls of [apply_degradation] on one electrode, each with its
    own arguments [(ion_flux, voltage, thermal_cycling, mission_hours)]. *)
Definition apply_degradations (calls : list (float * float * float * Z))
    (self : IonThrusterElectrode) : IonThrusterElectrode :=
  fold_left
    (fun e '(ion_flux, voltage, thermal_cycling, mission_hours) =>
       apply_degradation e ion_flux voltage thermal_cycling mission_hours)
    calls self.

End Astrocycle64.

Module Hackathon64.

Local Open Scope float_scope.

(** [class MaterialState]. *)
Record MaterialState : Type := {
  defect_density : float;
  thermal_stress : float;
  conductivity_drift : float;
  cycle_count : Z
}.

(** [MaterialState.__init__]. *)
Definition new_state : MaterialState :=
  {| defect_density := 0.01; thermal_stress := 0.05;
     conductivity_drift := 0.0; cycle_count := 0 |}.

(** [MaterialState.apply_degradation]. *)
Definition apply_degradation (self : MaterialState) (radiation_level temp_cycling : float)
  : MaterialState :=
  let defect_density' :=
    defect_density self + radiation_level * 0.008 * (1 + thermal_stress self) in
  let thermal_stress' :=
    thermal_stress self + temp_cycling * 0.012 * (1 + defect_density' * 0.5) in
  let conductivity_drift' :=
    conductivity_drift self - (defect_density' * 0.015 + thermal_stress' * 0.008) in
  {| defect_density := defect_density';
     thermal_stress := thermal_stress';
     conductivity_drift := conductivity_drift';
     cycle_count := (cycle_count self + 1)%Z |}.

(** Successive calls of [apply_degradation] on one state, each with its own
    arguments [(radiation_level, temp_cycling)]. *)
Definition apply_degradations (calls : list (float * float))
    (self : MaterialState) : MaterialState :=
  fold_left
    (fun s '(radiation_level, temp_cycling) =>
       apply_degradation s radiation_level temp_cycling)
    calls self.

End Hackathon64.

(** ** Vocabulary of the further properties *)

(** [p] and [t] agree on every position they both have. *)
Fixpoint compatible (p t : string) : bool :=
  match p, t with
  | String a p', String b t' => Ascii.eqb a b && compatible p' t'
  | _, _ => true
  end.

(** No occurrence of [sep] can begin inside [s], whatever text follows [s]. *)
Fixpoint no_partial (sep s : string) : bool :=
  match s with
  | EmptyString => true
  | String _ s' => negb (compatible sep s) && no_partial sep s'
  end.

(** Every character of [s] satisfies [f]. *)
Fixpoint all_chars (f : ascii -> bool) (s : string) : bool :=
  match s with
  | EmptyString => true
  | String c s' => f c && all_chars f s'
  end.

(** The characters of a decimal literal: digits, point, signs, exponent
    letter and underscore. *)
Definition numeric_char (c : ascii) : bool :=
  PyStr.isdigit c || PyStr.mem_char c ".+-eE_".

(** A computation that never ends with [IndexError]. *)
Definition no_index_error {St A : Type} (m : M St A) : Prop :=
  forall s : St, fst (m s) <> inl IndexError.

(** A computation that leaves the observation [f] of the object as it was,
    whether it raises or not. *)
Definition keeps {St A B : Type} (f : St -> B) (m : M St A) : Prop :=
  forall s : St, f (snd (m s)) = f s.



(** A reply line that follows the astrocycle template, with the texts
    [a], [b], [c] in the places of the three values. *)
Definition astro_template (a b c : string) : string :=
  "RECOMMEND: ion_flux=" ++ a ++ ", voltage=" ++ b ++ ", thermal=" ++ c.

(** A reply line that follows the hackathon template, with [a] and [b] in
    the places of the two values and [tail] after the last one. *)
Definition hack_template (a b tail : string) : string :=
  "ADJUST: radiation=" ++ a ++ ", temp=" ++ b ++ tail.

(** ** Vocabulary of the binary64 properties *)

(** Python's [new != new or new >= old]: the new value is not a number, or it
    is not below the old one. *)
Definition ge_or_nan (new old : float) : Prop :=
  PrimFloat.is_nan new = true \/ PrimFloat.leb old new = true.

(** Python's [new != new or new <= old]. *)
Definition le_or_nan (new old : float) : Prop :=
  PrimFloat.is_nan new = true \/ PrimFloat.leb new old = true.

(** Python's [new != new or new == old]. *)
Definition eq_or_nan (new old : float) : Prop :=
  PrimFloat.is_nan new = true \/ PrimFloat.eqb new old = true.

(** Python's [x != x or x >= 0]. *)
Definition nonneg_or_nan (x : float) : Prop :=
  PrimFloat.is_nan x = true \/ PrimFloat.leb 0%float x = true.

(** An electrode whose eight variables are non-negative numbers ([x >= 0]
    holds: zero of either sign, positive, or positive infinity). *)
Definition nonneg_electrode64 (e : Astrocycle64.IonThrusterElectrode) : Prop :=
  PrimFloat.leb 0%float (Astrocycle64.sputtering_depth e) = true /\
  PrimFloat.leb 0%float (Astrocycle64.surface_roughness e) = true /\
  PrimFloat.leb 0%float (Astrocycle64.microcracks e) = true /\
  PrimFloat.leb 0%float (Astrocycle64.thermal_stress e) = true /\
  PrimFloat.leb 0%float (Astrocycle64.hot_spot_formation e) = true /\
  PrimFloat.leb 0%float (Astrocycle64.electrical_resistance e) = true /\
  PrimFloat.leb 0%float (Astrocycle64.arc_discharge_risk e) = true /\
  PrimFloat.leb 0%float (Astrocycle64.thrust_efficiency_loss e) = true.

(** Arguments of the binary64 [apply_degradation] with non-negative
    multipliers. *)
Definition nonneg_call64 (c : float * float * float * Z) : Prop :=
  let '(ion_flux, voltage, thermal_cycling, _) := c in
  PrimFloat.leb 0%float ion_flux = true /\
  PrimFloat.leb 0%float voltage = true /\
  PrimFloat.leb 0%float thermal_cycling = true.

(** The same with NaN allowed, as the values are after a call. *)
Definition electrode_nonneg_or_nan (e : Astrocycle64.IonThrusterElectrode) : Prop :=
  nonneg_or_nan (Astrocycle64.sputtering_depth e) /\
  nonneg_or_nan (Astrocycle64.surface_roughness e) /\
  nonneg_or_nan (Astrocycle64.microcracks e) /\
  nonneg_or_nan (Astrocycle64.thermal_stress e) /\
  nonneg_or_nan (Astrocycle64.hot_spot_formation e) /\
  nonneg_or_nan (Astrocycle64.electrical_resistance e) /\
  nonneg_or_nan (Astrocycle64.arc_discharge_risk e) /\
  nonneg_or_nan (Astrocycle64.thrust_efficiency_loss e).

Definition call_nonneg_or_nan (c : float * float * float * Z) : Prop :=
  let '(ion_flux, voltage, thermal_cycling, _) := c in
  nonneg_or_nan ion_flux /\ nonneg_or_nan voltage /\ nonneg_or_nan thermal_cycling.

(** On the specification of binary64 ([SpecFloat]): not a number, or not
    negative; not a number, or a zero. *)
Definition sf_nonneg_or_nan (x : spec_float) : bool :=
  match x with
  | S754_nan | S754_zero _ | S754_finite false _ _ | S754_infinity false => true
  | _ => false
  end.

Definition sf_zero_or_nan (x : spec_float) : bool :=
  match x with
  | S754_nan | S754_zero _ => true
  | _ => false
  end.

Definition zero_or_nan (x : float) : Prop := sf_zero_or_nan (Prim2SF x) = true.

(** The number of binary digits of a mantissa. *)
Definition digits (m : positive) : Z := Zpos (digits2_pos m).

(** [z], of sign [s], is not nearer to zero than the float of mantissa [mx]
    and exponent [ex]: it is an infinity, or its exponent is larger, or the
    exponents agree and its mantissa is not smaller. *)
Definition above (s : bool) (mx : positive) (ex : Z) (z : spec_float) : Prop :=
  match z with
  | S754_infinity s' => s' = s
  | S754_finite s' m e => s' = s /\ (ex < e \/ (e = ex /\ (mx <= m)%positive))%Z
  | _ => False
  end.

(** [z] is positive and not above the float of mantissa [mx] and exponent
    [ex]. *)
Definition below (mx : positive) (ex : Z) (z : spec_float) : Prop :=
  match z with
  | S754_finite false m e => (e < ex \/ (e = ex /\ (m <= mx)%positive))%Z
  | _ => False
  end.

(** [z] has the sign [s], when it is a number. *)
Definition sf_signed (s : bool) (z : spec_float) : Prop :=
  match z with
  | S754_nan => True
  | S754_zero s' | S754_infinity s' | S754_finite s' _ _ => s' = s
  end.

(** States on which a product of the update overflows: a material under a
    thermal stress of 1e308, an electrode with a surface roughness of 1e5. *)
Definition state_overflow : Hackathon64.MaterialState :=
  {| Hackathon64.defect_density := 0.01%float;
     Hackathon64.thermal_stress := 1e308%float;
     Hackathon64.conductivity_drift := 0.0%float;
     Hackathon64.cycle_count := 0 |}.

Definition electrode_overflow : Astrocycle64.IonThrusterElectrode :=
  {| Astrocycle64.sputtering_depth := 0.0%float;
     Astrocycle64.surface_roughness := 1e5%float;
     Astrocycle64.microcracks := 0.02%float;
     Astrocycle64.thermal_stress := 0.03%float;
     Astrocycle64.hot_spot_formation := 0.01%float;
     Astrocycle64.electrical_resistance := 1.0%float;
     Astrocycle64.arc_discharge_risk := 0.05%float;
     Astrocycle64.thrust_efficiency_loss := 0.0%float;
     Astrocycle64.cycle_count := 0;
     Astrocycle64.critical_failure := false |}.

(** ** Sample replies of the service *)

(** A reply that carries both markers, on its second line. *)
Definition reply_both_markers : string :=
  "TREND: rising" ++ PyStr.newline ++ "RECOMMEND: ion_flux=0.9 ADJUST: temp=0.9".

(** A reply in which the service ignored the template. *)
Definition reply_no_marker : string :=
  "The electrode is eroding." ++ PyStr.newline ++ "Recommend lowering ion_flux=0.8".

(** A service that asks to switch every load off, and one that asks for a
    hundredfold voltage. *)
Definition client_switch_off (request : nat) : string :=
  "RECOMMEND: ion_flux=0.0, voltage=0.0, thermal=0.0".

Definition client_overvoltage (request : nat) : string :=
  "RECOMMEND: voltage=100".

(** The reply of the output template, with the multipliers 1.1, 0.9, 1.0. *)
Definition reply_template : string :=
  "RECOMMEND: ion_flux=1.1, voltage=0.9, thermal=1.0".

(** Replies whose second value is no number. *)
Definition reply_bad_voltage : string :=
  "RECOMMEND: ion_flux=1.1, voltage=abc, thermal=1.0".

Definition reply_bad_temp : string :=
  "ADJUST: radiation=1.2, temp=abc".

(** Replies with commentary after the last value. *)
Definition reply_commented : string :=
  "RECOMMEND: ion_flux=1.1, voltage=0.9, thermal=1.0 to reduce stress".

Definition reply_commented_08 : string :=
  "RECOMMEND: ion_flux=1.1, voltage=0.9, thermal=0.8 to reduce stress".

Definition reply_commented_temp : string :=
  "ADJUST: radiation=1.1, temp=0.8 to reduce stress".

(** * Properties *)

(** ** The Python primitives on sample inputs *)

Example LF_code : nat_of_ascii PyStr.LF = 10.
Proof. reflexivity. Qed.

Example isspace_ex :
  map PyStr.isspace [" "; "009"; "010"; "031"; "160"; "a"; "0"; "."]%char
  = [true; true; true; true; true; false; false; false].
Proof. reflexivity. Qed.

Example split_ws_ex :
  PyStr.split_ws "  1.0 to  reduce " = ["1.0"; "to"; "reduce"].
Proof. reflexivity. Qed.

Example split_ex :
  PyStr.split "ab" "xxabyyabab" = ["xx"; "yy"; ""; ""].
Proof. reflexivity. Qed.

Example split_ex2 :
  PyStr.split "aa" "aaa" = [""; "a"].
Proof. reflexivity. Qed.

Example strip_ex : PyStr.strip "  a b  " = "a b".
Proof. reflexivity. Qed.

Example split_lines_ex :
  PyStr.split_lines ("ab" ++ PyStr.newline ++ PyStr.newline ++ "c") = ["ab"; ""; "c"].
Proof. reflexivity. Qed.

Example float_ex1 : PyFloat.float "1.1" = Some (11 # 10)%Q.
Proof. reflexivity. Qed.

Example float_ex2 : PyFloat.float " -2.50e1 " = Some (-25 # 1)%Q.
Proof. reflexivity. Qed.

Example float_ex3 : PyFloat.float "1.0 to reduce stress" = None.
Proof. reflexivity. Qed.

Example float_ex4 : PyFloat.float "abc" = None.
Proof. reflexivity. Qed.

Example float_ex5 : PyFloat.float ".5" = Some (1 # 2)%Q.
Proof. reflexivity. Qed.

Example float_ex6 : PyFloat.float "1_000." = Some (1000 # 1)%Q.
Proof. reflexivity. Qed.

Example float_ex7 :
  PyFloat.float "." = None /\ PyFloat.float "" = None /\
  PyFloat.float "1e" = None /\ PyFloat.float "1_" = None /\
  PyFloat.float "1,5" = None /\ PyFloat.float "1.0," = None.
Proof. repeat split; reflexivity. Qed.

Example round_ex :
  round (12345 # 10000)%Q 3 = (1234 # 1000)%Q /\
  round (12355 # 10000)%Q 3 = (1236 # 1000)%Q /\
  round (-5 # 10)%Q 0 = (0 # 1)%Q /\
  round (2 # 3)%Q 2 = (67 # 100)%Q.
Proof. repeat split; reflexivity. Qed.

(** ** Lines and substrings *)

Section Lines.

Import PyStr.

Lemma split_lines_nonempty (s : string) : split_lines s <> [].
Proof.
  destruct s as [|c s]; simpl; [discriminate|].
  destruct (Ascii.eqb c LF); [discriminate|].
  destruct (split_lines s); discriminate.
Qed.

(** Splitting at ['\n'] with the general [split] gives the lines. *)
Lemma split_aux_newline (s cur : string) :
  split_aux newline 0 cur s =
  match split_lines s with
  | l :: ls => (cur ++ l) :: ls
  | [] => [cur]
  end.
Proof.
  revert cur; induction s as [|c s IH]; intros cur.
  - simpl. f_equal. induction cur as [|a cur IHc]; simpl; congruence.
  - cbn [split_aux split_lines]. unfold newline at 1. cbn [startswith String.length Nat.sub].
    rewrite (Ascii.eqb_sym LF c).
    destruct (Ascii.eqb c LF) eqn:E; simpl.
    + f_equal.
      * clear. induction cur as [|a cur IHc]; simpl; congruence.
      * fold newline. rewrite (IH EmptyString).
        destruct (split_lines s) eqn:Es; [now destruct (split_lines_nonempty s)|reflexivity].
    + fold newline. rewrite (IH (cur ++ String c EmptyString)).
      destruct (split_lines s) eqn:Es; [now destruct (split_lines_nonempty s)|].
      f_equal. clear. induction cur as [|a cur IHc]; simpl; congruence.
Qed.

Lemma split_lines_eq (s : string) : split newline s = split_lines s.
Proof.
  unfold split. rewrite split_aux_newline.
  destruct (split_lines s) eqn:Es; [now destruct (split_lines_nonempty s)|reflexivity].
Qed.

(** A text without line feed that starts [s] starts the first line of [s]. *)
Lemma startswith_first_line (needle s : string) :
  mem_char LF needle = false ->
  startswith needle s = true ->
  startswith needle (hd EmptyString (split_lines s)) = true.
Proof.
  revert s; induction needle as [|a p IH]; intros s Hlf Hpre.
  - reflexivity.
  - destruct s as [|b s]; [discriminate|].
    cbn [mem_char startswith] in Hlf, Hpre.
    apply orb_false_iff in Hlf as [Ha Hp].
    apply andb_true_iff in Hpre as [Hab Hps].
    apply Ascii.eqb_eq in Hab; subst b.
    cbn [split_lines]. rewrite (Ascii.eqb_sym a LF), Ha.
    specialize (IH s Hp Hps).
    destruct (split_lines s) as [|l ls]; cbn [hd startswith] in *.
    + destruct p; [now rewrite Ascii.eqb_refl | discriminate].
    + now rewrite Ascii.eqb_refl.
Qed.

(** A text without line feed that occurs in [s] occurs in one line of [s]. *)
Lemma contains_some_line (needle s : string) :
  mem_char LF needle = false ->
  contains needle s = true ->
  existsb (contains needle) (split_lines s) = true.
Proof.
  intros Hlf. induction s as [|c s IH]; intros Hc.
  - simpl in *. now rewrite Hc.
  - cbn [contains] in Hc. apply orb_true_iff in Hc as [Hpre | Hrest].
    + pose proof (startswith_first_line needle (String c s) Hlf Hpre) as H1.
      destruct (split_lines (String c s)) as [|l ls] eqn:E;
        [now destruct (split_lines_nonempty (String c s))|].
      simpl in H1. simpl. destruct l; simpl; rewrite H1; reflexivity.
    + specialize (IH Hrest). cbn [split_lines].
      destruct (Ascii.eqb c LF).
      * simpl. rewrite IH. apply orb_true_r.
      * destruct (split_lines s) as [|l ls]; [discriminate|].
        simpl in IH. apply orb_true_iff in IH as [Hl | Hls].
        -- cbn [existsb contains]. rewrite Hl. now rewrite orb_true_r.
        -- cbn [existsb]. rewrite Hls. apply orb_true_r.
Qed.

Lemma existsb_filter {A} (f : A -> bool) (l : list A) :
  existsb f l = true -> exists x rest, filter f l = x :: rest.
Proof.
  induction l as [|a l IH]; simpl; [discriminate|].
  destruct (f a); simpl; eauto.
Qed.

(** The guard of both parsers implies that their selection of lines has a
    first element. *)
Lemma guarded_selection (marker reasoning : string) :
  mem_char LF marker = false ->
  contains marker reasoning = true ->
  exists line rest,
    filter (contains marker) (split newline reasoning) = line :: rest.
Proof.
  intros Hlf Hc. rewrite split_lines_eq.
  apply existsb_filter, contains_some_line; assumption.
Qed.

(** Conversely, a text none of whose lines contains the marker does not
    contain it. *)
Lemma no_marker_line (marker reasoning : string) :
  mem_char LF marker = false ->
  (forall line, In line (split newline reasoning) -> contains marker line = false) ->
  contains marker reasoning = false.
Proof.
  intros Hlf Hlines.
  destruct (contains marker reasoning) eqn:Hc; [|reflexivity].
  destruct (guarded_selection marker reasoning Hlf Hc) as (line & rest & Hf).
  assert (Hin : In line (filter (contains marker) (split newline reasoning)))
    by (rewrite Hf; now left).
  apply filter_In in Hin as [Hin Ht].
  rewrite (Hlines line Hin) in Ht. discriminate.
Qed.

End Lines.

(** ** The adjustment parsers: guard and line selection *)

Lemma astro_marker_no_newline : PyStr.mem_char PyStr.LF Astrocycle.marker = false.
Proof. reflexivity. Qed.

Lemma hack_marker_no_newline : PyStr.mem_char PyStr.LF Hackathon.marker = false.
Proof. reflexivity. Qed.

(** When the guard fails the [try] body does nothing. *)
Lemma astro_guard_false (reasoning : string) (env : Astrocycle.MissionEnvironment) :
  PyStr.contains Astrocycle.marker reasoning = false ->
  Astrocycle.apply_adjustments reasoning env = env.
Proof.
  intros H. unfold Astrocycle.apply_adjustments, try_except_pass,
    Astrocycle.parse_adjustments.
  rewrite H. reflexivity.
Qed.

Lemma hack_guard_false (reasoning : string) (env : Hackathon.SpaceEnvironment) :
  PyStr.contains Hackathon.marker reasoning = false ->
  Hackathon.apply_adjustments reasoning env = env.
Proof.
  intros H. unfold Hackathon.apply_adjustments, try_except_pass,
    Hackathon.parse_adjustments.
  rewrite H. reflexivity.
Qed.

(** C10: in both parsers, when the marker occurs in the reasoning text the
    list of lines containing the marker has a first element, so the access
    at index 0 returns that line and raises nothing, whatever the text. *)
Theorem marker_line_selection_safe (reasoning : string) :
  (PyStr.contains Astrocycle.marker reasoning = true ->
   exists line rest,
     Astrocycle.marker_lines reasoning = line :: rest /\
     forall env : Astrocycle.MissionEnvironment,
       item (Astrocycle.marker_lines reasoning) 0 env = (inr line, env))
  /\
  (PyStr.contains Hackathon.marker reasoning = true ->
   exists line rest,
     Hackathon.marker_lines reasoning = line :: rest /\
     forall env : Hackathon.SpaceEnvironment,
       item (Hackathon.marker_lines reasoning) 0 env = (inr line, env)).
Proof.
  split; intros Hc.
  - destruct (guarded_selection _ _ astro_marker_no_newline Hc) as (line & rest & E).
    exists line, rest. unfold Astrocycle.marker_lines. rewrite E.
    split; [reflexivity | intros env; reflexivity].
  - destruct (guarded_selection _ _ hack_marker_no_newline Hc) as (line & rest & E).
    exists line, rest. unfold Hackathon.marker_lines. rewrite E.
    split; [reflexivity | intros env; reflexivity].
Qed.

Lemma marker_line_selection_safe_witness :
  (exists line rest,
     Astrocycle.marker_lines reply_both_markers = line :: rest /\
     forall env : Astrocycle.MissionEnvironment,
       item (Astrocycle.marker_lines reply_both_markers) 0 env = (inr line, env))
  /\
  (exists line rest,
     Hackathon.marker_lines reply_both_markers = line :: rest /\
     forall env : Hackathon.SpaceEnvironment,
       item (Hackathon.marker_lines reply_both_markers) 0 env = (inr line, env)).
Proof.
  destruct (marker_line_selection_safe reply_both_markers) as [Ha Hh].
  split; [apply Ha | apply Hh]; reflexivity.
Defined.

(** C5: a reasoning text none of whose lines contains the marker leaves every
    field of the environment as it was, in both parsers. *)
Theorem no_marker_no_adjustment (reasoning : string) :
  (forall env : Astrocycle.MissionEnvironment,
     (forall line, In line (PyStr.split PyStr.newline reasoning) ->
                   PyStr.contains Astrocycle.marker line = false) ->
     Astrocycle.apply_adjustments reasoning env = env)
  /\
  (forall env : Hackathon.SpaceEnvironment,
     (forall line, In line (PyStr.split PyStr.newline reasoning) ->
                   PyStr.contains Hackathon.marker line = false) ->
     Hackathon.apply_adjustments reasoning env = env).
Proof.
  split; intros env Hlines.
  - apply astro_guard_false, no_marker_line; [reflexivity | exact Hlines].
  - apply hack_guard_false, no_marker_line; [reflexivity | exact Hlines].
Qed.

Lemma no_marker_no_adjustment_witness :
  Astrocycle.apply_adjustments reply_no_marker Astrocycle.new_environment
    = Astrocycle.new_environment
  /\
  Hackathon.apply_adjustments reply_no_marker Hackathon.new_environment
    = Hackathon.new_environment.
Proof.
  destruct (no_marker_no_adjustment reply_no_marker) as [Ha Hh].
  split; [apply Ha | apply Hh];
    (intros line Hin; vm_compute in Hin;
     destruct Hin as [<- | [<- | []]]; reflexivity).
Defined.

(** ** Arithmetic in lowest terms *)

Section NumFacts.

Local Open Scope Q_scope.

Lemma add_spec (a b : Q) : a +! b == a + b.
Proof. apply Qred_correct. Qed.

Lemma sub_spec (a b : Q) : a -! b == a - b.
Proof. apply Qred_correct. Qed.

Lemma mul_spec (a b : Q) : a *! b == a * b.
Proof. apply Qred_correct. Qed.


Lemma gtb_false (a b : Q) : (a >! b) = false <-> a <= b.
Proof.
  unfold Num.gtb. rewrite negb_false_iff. apply Qle_bool_iff.
Qed.




(** Subtracting a non-negative amount does not increase a value. *)
Lemma sub_decreases (a b : Q) : 0 <= b -> a -! b <= a.
Proof. intros Hb. rewrite sub_spec. lra. Qed.

End NumFacts.


(** ** Binary64 arithmetic *)

(** Facts about rounding, proved on the specification of the binary64
    operations ([SpecFloat]) and carried to the numbers of the kernel by the
    equations that tie the two ([FloatAxioms]). *)
Section Binary64Facts.

Local Open Scope Z_scope.

Local Abbreviation fexp := (SpecFloat.fexp FloatOps.prec FloatOps.emax).
Local Abbreviation emin := (SpecFloat.emin FloatOps.prec FloatOps.emax).

Lemma pow2_xO (p : positive) : 2 ^ Zpos p~0 = 2 ^ Zpos p * 2 ^ Zpos p.
Proof. rewrite <- Z.pow_add_r by lia. f_equal. lia. Qed.

Lemma pow2_xI (p : positive) : 2 ^ Zpos p~1 = 2 * (2 ^ Zpos p * 2 ^ Zpos p).
Proof.
  rewrite <- Z.pow_add_r by lia. rewrite <- Z.pow_succ_r by lia. f_equal. lia.
Qed.

Lemma pow2_pos (k : Z) : 0 <= k -> 0 < 2 ^ k.
Proof. intros H. apply Z.pow_pos_nonneg; lia. Qed.

Lemma digits2_size (m : positive) : digits2_pos m = Pos.size m.
Proof. induction m; cbn; congruence. Qed.

Lemma digits_pos (m : positive) : 0 < digits m.
Proof. unfold digits. lia. Qed.

Lemma digits_bounds (m : positive) : 2 ^ (digits m - 1) <= Zpos m < 2 ^ digits m.
Proof.
  unfold digits. rewrite digits2_size. split.
  - pose proof (Pos.size_le m) as H.
    assert (H' : 2 ^ Zpos (Pos.size m) <= 2 * Zpos m).
    { change 2 with (Zpos 2) at 1. rewrite <- Pos2Z.inj_pow. lia. }
    replace (Zpos (Pos.size m)) with (Zpos (Pos.size m) - 1 + 1) in H' by lia.
    rewrite Z.pow_add_r in H' by lia. lia.
  - pose proof (Pos.size_gt m) as H.
    change 2 with (Zpos 2). rewrite <- Pos2Z.inj_pow. lia.
Qed.

(** A mantissa that is not above another has no more digits, scaling
    included. *)
Lemma digits_mono (a b : positive) (k : Z) :
  0 <= k -> Zpos a * 2 ^ k <= Zpos b -> digits a + k <= digits b.
Proof.
  intros Hk H.
  destruct (digits_bounds a) as [La _]. destruct (digits_bounds b) as [_ Ub].
  pose proof (digits_pos a). pose proof (digits_pos b).
  assert (Hp : 2 ^ (digits a - 1 + k) < 2 ^ digits b).
  { rewrite Z.pow_add_r by lia.
    eapply Z.le_lt_trans; [|exact Ub].
    eapply Z.le_trans; [|exact H].
    apply Z.mul_le_mono_nonneg_r; [apply Z.pow_nonneg; lia | exact La]. }
  apply Z.pow_lt_mono_r_iff in Hp; lia.
Qed.

Lemma digits_mono_le (a b : positive) (k : Z) :
  0 <= k -> Zpos a <= Zpos b * 2 ^ k -> digits a <= digits b + k.
Proof.
  intros Hk H.
  destruct (digits_bounds a) as [La _]. destruct (digits_bounds b) as [_ Ub].
  pose proof (digits_pos a). pose proof (digits_pos b).
  assert (Hp : 2 ^ (digits a - 1) < 2 ^ (digits b + k)).
  { rewrite Z.pow_add_r by lia.
    eapply Z.le_lt_trans; [exact La|].
    eapply Z.le_lt_trans; [exact H|].
    apply Z.mul_lt_mono_pos_r; [apply pow2_pos; lia|exact Ub]. }
  apply Z.pow_lt_mono_r_iff in Hp; lia.
Qed.

Lemma iter_xO (m d : positive) : Zpos (Pos.iter xO m d) = Zpos m * 2 ^ Zpos d.
Proof.
  induction d using Pos.peano_ind.
  - cbn. lia.
  - rewrite Pos.iter_succ, Pos2Z.inj_xO, IHd, Pos2Z.inj_succ, Z.pow_succ_r by lia. lia.
Qed.

Lemma fexp_mono (a b : Z) : a <= b -> fexp a <= fexp b.
Proof. unfold SpecFloat.fexp. lia. Qed.

Lemma fexp_emin (a : Z) : emin <= fexp a.
Proof. unfold SpecFloat.fexp. lia. Qed.

(** Shifting a record right divides its mantissa by a power of two. *)
Lemma shr_1_m (r : shr_record) : 0 <= shr_m r -> shr_m (shr_1 r) = shr_m r / 2.
Proof.
  destruct r as [m r s]. cbn [shr_m]. intros H.
  destruct m as [|[p|p|]|p]; cbn [shr_1 shr_m].
  - reflexivity.
  - apply (Z.div_unique _ _ _ 1); lia.
  - apply (Z.div_unique _ _ _ 0); lia.
  - reflexivity.
  - lia.
Qed.

Lemma iter_shr_1_m (p : positive) (r : shr_record) :
  0 <= shr_m r -> shr_m (iter_pos shr_1 p r) = shr_m r / 2 ^ Zpos p.
Proof.
  revert r. induction p as [p IH|p IH|]; intros r H; cbn [iter_pos].
  - assert (H1 : 0 <= shr_m (shr_1 r)).
    { rewrite shr_1_m by exact H. apply Z.div_pos; lia. }
    assert (H2 : 0 <= shr_m (iter_pos shr_1 p (shr_1 r))).
    { rewrite IH by exact H1. apply Z.div_pos; [exact H1|]. apply pow2_pos; lia. }
    rewrite IH by exact H2. rewrite IH by exact H1. rewrite shr_1_m by exact H.
    pose proof (pow2_pos (Zpos p) ltac:(lia)) as Hp.
    rewrite !Z.div_div by lia.
    rewrite pow2_xI. f_equal; lia.
  - assert (H2 : 0 <= shr_m (iter_pos shr_1 p r)).
    { rewrite IH by exact H. apply Z.div_pos; [exact H|]. apply pow2_pos; lia. }
    rewrite IH by exact H2. rewrite IH by exact H.
    pose proof (pow2_pos (Zpos p) ltac:(lia)) as Hp.
    rewrite !Z.div_div by lia.
    rewrite pow2_xO. reflexivity.
  - rewrite shr_1_m by exact H. reflexivity.
Qed.

(** Shifting out digits that are all zero leaves no trace in the record. *)
Lemma shr_1_exact (r : shr_record) (k : Z) :
  shr_r r = false -> shr_s r = false -> shr_m r = 2 * k -> 0 <= k ->
  shr_r (shr_1 r) = false /\ shr_s (shr_1 r) = false /\ shr_m (shr_1 r) = k.
Proof.
  destruct r as [m r s]. cbn [shr_m shr_r shr_s]. intros -> -> Hm Hk.
  destruct m as [|[p|p|]|p]; cbn [shr_1 shr_m shr_r shr_s orb];
    try lia; repeat split; lia.
Qed.

Lemma iter_shr_1_exact (p : positive) (r : shr_record) (k : Z) :
  shr_r r = false -> shr_s r = false -> shr_m r = k * 2 ^ Zpos p -> 0 <= k ->
  shr_r (iter_pos shr_1 p r) = false /\ shr_s (iter_pos shr_1 p r) = false /\
  shr_m (iter_pos shr_1 p r) = k.
Proof.
  revert r k. induction p as [p IH|p IH|]; intros r k Hr Hs Hm Hk; cbn [iter_pos].
  - pose proof (pow2_pos (Zpos p) ltac:(lia)) as Hp.
    destruct (shr_1_exact r (k * 2 ^ Zpos p * 2 ^ Zpos p) Hr Hs) as (R1 & S1 & M1).
    { rewrite Hm, pow2_xI. lia. }
    { nia. }
    destruct (IH (shr_1 r) (k * 2 ^ Zpos p) R1 S1 M1 ltac:(nia)) as (R2 & S2 & M2).
    exact (IH _ k R2 S2 M2 Hk).
  - pose proof (pow2_pos (Zpos p) ltac:(lia)) as Hp.
    destruct (IH r (k * 2 ^ Zpos p) Hr Hs) as (R2 & S2 & M2).
    { rewrite Hm, pow2_xO. lia. }
    { nia. }
    exact (IH _ k R2 S2 M2 Hk).
  - apply shr_1_exact; try assumption. rewrite Hm. change (2 ^ 1) with 2. lia.
Qed.

(** [shr_fexp] on a positive mantissa: the exponent is raised to the
    canonical one when it is below it, and the mantissa divided to match. *)
Lemma shr_fexp_m (m : positive) (e : Z) :
  let f := Z.max e (fexp (digits m + e)) in
  let r := shr_fexp FloatOps.prec FloatOps.emax (Zpos m) e loc_Exact in
  snd r = f /\ shr_m (fst r) = Zpos m / 2 ^ (f - e).
Proof.
  intros f r. subst r. unfold shr_fexp, shr. cbn [Zdigits2 shr_record_of_loc].
  fold (digits m). subst f.
  destruct (fexp (digits m + e) - e) as [|p|p] eqn:E; cbn [fst snd shr_m].
  - replace (Z.max e (fexp (digits m + e)) - e) with 0 by lia.
    split; [lia|]. rewrite Z.pow_0_r, Z.div_1_r. reflexivity.
  - replace (Z.max e (fexp (digits m + e)) - e) with (Zpos p) by lia.
    split; [lia|]. rewrite iter_shr_1_m by (cbn; lia). reflexivity.
  - replace (Z.max e (fexp (digits m + e)) - e) with 0 by lia.
    split; [lia|]. rewrite Z.pow_0_r, Z.div_1_r. reflexivity.
Qed.

Lemma shr_fexp_exact (m : positive) (e : Z) (k : Z) :
  let f := Z.max e (fexp (digits m + e)) in
  let r := shr_fexp FloatOps.prec FloatOps.emax (Zpos m) e loc_Exact in
  Zpos m = k * 2 ^ (f - e) ->
  loc_of_shr_record (fst r) = loc_Exact.
Proof.
  intros f r H. subst r. unfold shr_fexp, shr. cbn [Zdigits2 shr_record_of_loc].
  fold (digits m). subst f.
  destruct (fexp (digits m + e) - e) as [|p|p] eqn:E; cbn [fst]; try reflexivity.
  replace (Z.max e (fexp (digits m + e)) - e) with (Zpos p) in H by lia.
  assert (Hk : 0 <= k).
  { pose proof (pow2_pos (Zpos p) ltac:(lia)). nia. }
  destruct (iter_shr_1_exact p {| shr_m := Zpos m; shr_r := false; shr_s := false |} k
              eq_refl eq_refl H Hk) as (R & S & _).
  destruct (iter_pos shr_1 p _) as [m' r' s']. cbn [shr_r shr_s] in R, S.
  subst r' s'. reflexivity.
Qed.

Lemma round_nearest_even_ge (m : Z) (l : location) :
  m <= round_nearest_even m l.
Proof.
  destruct l as [|[| |]]; cbn [round_nearest_even]; try lia.
  destruct (Z.even m); lia.
Qed.

Lemma round_nearest_even_le (m : Z) (l : location) :
  round_nearest_even m l <= m + 1.
Proof.
  destruct l as [|[| |]]; cbn [round_nearest_even]; try lia.
  destruct (Z.even m); lia.
Qed.

(** Raising the exponent of a mantissa to the canonical one keeps it
    positive: at most all digits but one are shifted out. *)
Lemma shr_fexp_positive (m : positive) (e : Z) :
  emin <= e ->
  let f := Z.max e (fexp (digits m + e)) in
  1 <= Zpos m / 2 ^ (f - e) /\ (f = e -> Zpos m / 2 ^ (f - e) = Zpos m).
Proof.
  intros He f. split.
  - apply Z.div_le_lower_bound; [apply pow2_pos; lia|].
    destruct (digits_bounds m) as [L _]. pose proof (digits_pos m).
    eapply Z.le_trans; [|exact L]. rewrite Z.mul_1_r.
    apply Z.pow_le_mono_r; [lia|].
    subst f. unfold SpecFloat.fexp, SpecFloat.emin, FloatOps.prec, FloatOps.emax in *. lia.
  - intros ->. rewrite Z.sub_diag, Z.pow_0_r, Z.div_1_r. reflexivity.
Qed.

(** Rounding to nearest does not go below a representable number that the
    exact value is not below: the result of rounding [mz * 2^ez] is [above]
    a canonical [mx * 2^ex] with [mx * 2^ex <= mz * 2^ez]. *)
Lemma round_above (s : bool) (mx : positive) (ex : Z) (mz : positive) (ez : Z) :
  canonical_mantissa FloatOps.prec FloatOps.emax mx ex = true ->
  ez <= ex ->
  Zpos mx * 2 ^ (ex - ez) <= Zpos mz ->
  above s mx ex (binary_round_aux FloatOps.prec FloatOps.emax s (Zpos mz) ez loc_Exact).
Proof.
  intros Hcan Hez Hle.
  unfold canonical_mantissa in Hcan. apply Z.eqb_eq in Hcan. fold (digits mx) in Hcan.
  assert (Hd : digits mx + ex <= digits mz + ez).
  { pose proof (digits_mono mx mz (ex - ez) ltac:(lia) Hle). lia. }
  pose proof (fexp_mono _ _ Hd) as Hf. rewrite Hcan in Hf.
  pose proof (fexp_emin (digits mx + ex)) as Hmin. rewrite Hcan in Hmin.
  unfold binary_round_aux.
  destruct (shr_fexp_m mz ez) as [He1 Hm1].
  destruct (shr_fexp FloatOps.prec FloatOps.emax (Zpos mz) ez loc_Exact) as [r1 e1].
  cbn [fst snd] in He1, Hm1.
  replace (Z.max ez (fexp (digits mz + ez))) with (fexp (digits mz + ez))
    in He1, Hm1 by lia.
  assert (H1 : 1 <= shr_m r1 /\ (e1 = ex -> Zpos mx <= shr_m r1)).
  { rewrite Hm1. split.
    - apply Z.div_le_lower_bound; [apply pow2_pos; lia|].
      destruct (Z.eq_dec (fexp (digits mz + ez)) ex) as [E|E].
      + rewrite E. rewrite Z.mul_1_r.
        eapply Z.le_trans; [|exact Hle].
        assert (0 < Zpos mx) by lia.
        pose proof (pow2_pos (ex - ez) ltac:(lia)). nia.
      + destruct (digits_bounds mz) as [L _]. pose proof (digits_pos mz).
        eapply Z.le_trans; [|exact L]. rewrite Z.mul_1_r.
        apply Z.pow_le_mono_r; [lia|].
        unfold SpecFloat.fexp, SpecFloat.emin, FloatOps.prec, FloatOps.emax in *. lia.
    - intros E. rewrite <- He1, E.
      apply Z.div_le_lower_bound; [apply pow2_pos; lia|]. lia. }
  destruct H1 as [Hpos1 Hge1].
  pose proof (round_nearest_even_ge (shr_m r1) (loc_of_shr_record r1)) as Hr.
  destruct (round_nearest_even (shr_m r1) (loc_of_shr_record r1)) as [|pr|pr] eqn:Er;
    [lia| |lia].
  destruct (shr_fexp_m pr e1) as [He2 Hm2].
  destruct (shr_fexp_positive pr e1 ltac:(lia)) as [Hpos2 Hsame].
  destruct (shr_fexp FloatOps.prec FloatOps.emax (Zpos pr) e1 loc_Exact) as [r2 e2].
  cbn [fst snd] in He2, Hm2.
  rewrite <- He2 in Hpos2, Hsame, Hm2. rewrite <- Hm2 in Hpos2, Hsame.
  destruct (shr_m r2) as [|m2|m2] eqn:E2; [lia| |lia].
  destruct (Z.leb e2 (FloatOps.emax - FloatOps.prec)); cbn [above]; [|reflexivity].
  split; [reflexivity|].
  destruct (Z.eq_dec e2 ex) as [E|E].
  - right. split; [exact E|].
    assert (e1 = ex) by lia. assert (e2 = e1) by lia.
    specialize (Hsame ltac:(assumption)). specialize (Hge1 ltac:(assumption)). lia.
  - left. lia.
Qed.

(** Nor does it go above a representable number that the exact value is not
    above. *)
Lemma round_below (mx : positive) (ex : Z) (mz : positive) (ez : Z) :
  bounded FloatOps.prec FloatOps.emax mx ex = true ->
  emin <= ez -> ez <= ex ->
  Zpos mz <= Zpos mx * 2 ^ (ex - ez) ->
  below mx ex (binary_round_aux FloatOps.prec FloatOps.emax false (Zpos mz) ez loc_Exact).
Proof.
  intros Hb Hmin Hez Hle.
  unfold bounded in Hb. apply andb_true_iff in Hb. destruct Hb as [Hcan Hmax].
  unfold canonical_mantissa in Hcan. apply Z.eqb_eq in Hcan. fold (digits mx) in Hcan.
  apply Z.leb_le in Hmax.
  assert (Hd : digits mz + ez <= digits mx + ex).
  { pose proof (digits_mono_le mz mx (ex - ez) ltac:(lia) Hle). lia. }
  pose proof (fexp_mono _ _ Hd) as Hf. rewrite Hcan in Hf.
  unfold binary_round_aux.
  destruct (shr_fexp_m mz ez) as [He1 Hm1].
  pose proof (shr_fexp_exact mz ez) as Hex.
  destruct (shr_fexp_positive mz ez Hmin) as [Hpos1 _].
  cbv zeta in Hex.
  destruct (shr_fexp FloatOps.prec FloatOps.emax (Zpos mz) ez loc_Exact) as [r1 e1].
  cbn [fst snd] in He1, Hm1, Hex.
  rewrite <- He1 in Hm1, Hex, Hpos1. rewrite <- Hm1 in Hpos1.
  assert (He1x : ez <= e1 <= ex) by lia.
  pose proof (pow2_pos (e1 - ez) ltac:(lia)) as P1.
  pose proof (pow2_pos (ex - e1) ltac:(lia)) as P2.
  assert (Hsplit : 2 ^ (ex - ez) = 2 ^ (ex - e1) * 2 ^ (e1 - ez)).
  { rewrite <- Z.pow_add_r by lia. f_equal. lia. }
  set (B := Zpos mx * 2 ^ (ex - e1)).
  assert (HB : Zpos mz <= B * 2 ^ (e1 - ez)).
  { subst B. rewrite <- Z.mul_assoc, <- Hsplit. exact Hle. }
  assert (Hm1B : shr_m r1 <= B).
  { rewrite Hm1. apply Z.div_le_upper_bound; [lia|]. lia. }
  assert (Hmr : round_nearest_even (shr_m r1) (loc_of_shr_record r1) <= B).
  { destruct (Z.eq_dec (shr_m r1) B) as [E|E].
    - rewrite (Hex B); [cbn [round_nearest_even]; lia|].
      assert (Hlow : B * 2 ^ (e1 - ez) <= Zpos mz).
      { rewrite <- E, Hm1. rewrite Z.mul_comm. apply Z.mul_div_le. lia. }
      lia.
    - pose proof (round_nearest_even_le (shr_m r1) (loc_of_shr_record r1)). lia. }
  pose proof (round_nearest_even_ge (shr_m r1) (loc_of_shr_record r1)) as Hr.
  destruct (round_nearest_even (shr_m r1) (loc_of_shr_record r1)) as [|pr|pr] eqn:Er;
    [lia| |lia].
  assert (Hd2 : digits pr + e1 <= digits mx + ex).
  { pose proof (digits_mono_le pr mx (ex - e1) ltac:(lia) Hmr). lia. }
  pose proof (fexp_mono _ _ Hd2) as Hf2. rewrite Hcan in Hf2.
  destruct (shr_fexp_m pr e1) as [He2 Hm2].
  destruct (shr_fexp_positive pr e1 ltac:(lia)) as [Hpos2 _].
  destruct (shr_fexp FloatOps.prec FloatOps.emax (Zpos pr) e1 loc_Exact) as [r2 e2].
  cbn [fst snd] in He2, Hm2.
  rewrite <- He2 in Hpos2, Hm2. rewrite <- Hm2 in Hpos2.
  assert (He2x : e1 <= e2 <= ex) by lia.
  destruct (shr_m r2) as [|m2|m2] eqn:E2; [lia| |lia].
  replace (Z.leb e2 (FloatOps.emax - FloatOps.prec)) with true
    by (symmetry; apply Z.leb_le; lia).
  cbn [below].
  destruct (Z.eq_dec e2 ex) as [E|E]; [right|left; lia].
  split; [exact E|].
  assert (Zpos m2 <= Zpos mx); [|lia].
  rewrite Hm2, E.
  apply Z.div_le_upper_bound; [lia|]. subst B. lia.
Qed.

Lemma shl_align_spec (m : positive) (e e' : Z) :
  snd (shl_align m e e') <= e /\
  Zpos (fst (shl_align m e e')) = Zpos m * 2 ^ (e - snd (shl_align m e e')).
Proof.
  unfold shl_align.
  destruct (e' - e) as [|d|d] eqn:E; cbn [fst snd].
  - rewrite Z.sub_diag, Z.pow_0_r. lia.
  - rewrite Z.sub_diag, Z.pow_0_r. lia.
  - split; [lia|]. rewrite iter_xO. f_equal. f_equal. lia.
Qed.

Lemma shl_align_snd (m : positive) (e e' : Z) : snd (shl_align m e e') = Z.min e e'.
Proof. unfold shl_align. destruct (e' - e) eqn:E; cbn [snd]; lia. Qed.

Lemma binary_round_above (s : bool) (mx : positive) (ex : Z) (M : positive) (ez : Z) :
  canonical_mantissa FloatOps.prec FloatOps.emax mx ex = true ->
  ez <= ex ->
  Zpos mx * 2 ^ (ex - ez) <= Zpos M ->
  above s mx ex (binary_round FloatOps.prec FloatOps.emax s M ez).
Proof.
  intros Hcan Hez HM. unfold binary_round.
  destruct (shl_align_spec M ez (fexp (Zpos (digits2_pos M) + ez))) as [Le V].
  destruct (shl_align M ez _) as [mz' ez']. cbn [fst snd] in Le, V.
  apply round_above; [exact Hcan|lia|].
  rewrite V.
  replace (ex - ez') with ((ex - ez) + (ez - ez')) by lia.
  rewrite Z.pow_add_r by lia.
  pose proof (pow2_pos (ez - ez') ltac:(lia)). nia.
Qed.

Lemma binary_round_below (mx : positive) (ex : Z) (M : positive) (ez : Z) :
  bounded FloatOps.prec FloatOps.emax mx ex = true ->
  emin <= ez -> ez <= ex ->
  Zpos M <= Zpos mx * 2 ^ (ex - ez) ->
  below mx ex (binary_round FloatOps.prec FloatOps.emax false M ez).
Proof.
  intros Hb Hmin Hez HM. unfold binary_round.
  destruct (shl_align_spec M ez (fexp (Zpos (digits2_pos M) + ez))) as [Le V].
  pose proof (shl_align_snd M ez (fexp (Zpos (digits2_pos M) + ez))) as S.
  pose proof (fexp_emin (Zpos (digits2_pos M) + ez)) as Hfe.
  destruct (shl_align M ez _) as [mz' ez']. cbn [fst snd] in Le, V, S.
  apply round_below; [exact Hb|lia|lia|].
  rewrite V.
  replace (ex - ez') with ((ex - ez) + (ez - ez')) by lia.
  rewrite Z.pow_add_r by lia.
  pose proof (pow2_pos (ez - ez') ltac:(lia)). nia.
Qed.

Lemma canonical_emin (m : positive) (e : Z) :
  canonical_mantissa FloatOps.prec FloatOps.emax m e = true -> emin <= e.
Proof.
  unfold canonical_mantissa. intros H. apply Z.eqb_eq in H. rewrite <- H.
  apply fexp_emin.
Qed.

(** The sign of a rounded result is the sign given. *)
Lemma binary_round_aux_nonneg (m : Z) (e : Z) (l : location) :
  sf_nonneg_or_nan (binary_round_aux FloatOps.prec FloatOps.emax false m e l) = true.
Proof.
  unfold binary_round_aux.
  destruct (shr_fexp FloatOps.prec FloatOps.emax m e l) as [r1 e1].
  destruct (shr_fexp _ _ _ e1 loc_Exact) as [r2 e2].
  destruct (shr_m r2); [reflexivity| |reflexivity].
  destruct (Z.leb _ _); reflexivity.
Qed.

Lemma binary_round_nonneg (m : positive) (e : Z) :
  sf_nonneg_or_nan (binary_round FloatOps.prec FloatOps.emax false m e) = true.
Proof.
  unfold binary_round. destruct (shl_align _ _ _) as [mz ez].
  apply binary_round_aux_nonneg.
Qed.

Lemma binary_round_signed (s : bool) (m : positive) (e : Z) :
  sf_signed s (binary_round FloatOps.prec FloatOps.emax s m e).
Proof.
  unfold binary_round. destruct (shl_align _ _ _) as [mz ez].
  unfold binary_round_aux.
  destruct (shr_fexp FloatOps.prec FloatOps.emax (Zpos mz) ez loc_Exact) as [r1 e1].
  destruct (shr_fexp _ _ _ e1 loc_Exact) as [r2 e2].
  destruct (shr_m r2); [reflexivity| |exact I].
  destruct (Z.leb _ _); reflexivity.
Qed.

Lemma sf_mul_nonneg (a b : spec_float) :
  sf_nonneg_or_nan a = true -> sf_nonneg_or_nan b = true ->
  sf_nonneg_or_nan (SF64mul a b) = true.
Proof.
  destruct a as [[|]|[|]| |[|] ma ea]; try discriminate;
  destruct b as [[|]|[|]| |[|] mb eb]; try discriminate; intros _ _;
  try reflexivity.
  apply binary_round_aux_nonneg.
Qed.

Lemma sf_add_nonneg (a b : spec_float) :
  sf_nonneg_or_nan a = true -> sf_nonneg_or_nan b = true ->
  sf_nonneg_or_nan (SF64add a b) = true.
Proof.
  destruct a as [[|]|[|]| |[|] ma ea]; try discriminate;
  destruct b as [[|]|[|]| |[|] mb eb]; try discriminate; intros _ _;
  try reflexivity.
  unfold SF64add, SFadd. cbn [cond_Zopp Z.add binary_normalize].
  apply binary_round_nonneg.
Qed.

Lemma SFcompare_refl (x : spec_float) :
  x <> S754_nan -> SFcompare x x = Some Eq.
Proof.
  destruct x as [[|]|[|]| |[|] m e]; intros H; try reflexivity; try congruence;
    cbn [SFcompare]; rewrite Z.compare_refl;
    change (Pos.compare_cont Eq m m) with (Pos.compare m m);
    rewrite Pos.compare_refl; reflexivity.
Qed.

Lemma SFleb_refl_finite (m : positive) (e : Z) :
  SFleb (S754_finite false m e) (S754_finite false m e) = true.
Proof. unfold SFleb. rewrite SFcompare_refl; [reflexivity|discriminate]. Qed.

Lemma above_leb (mx : positive) (ex : Z) (z : spec_float) :
  above false mx ex z -> SFleb (S754_finite false mx ex) z = true.
Proof.
  destruct z as [sz|sz| |sz mz ez]; cbn [above]; try contradiction.
  - intros ->. reflexivity.
  - intros [-> H]. unfold SFleb, SFcompare.
    destruct H as [H|[-> H]].
    + apply Z.compare_lt_iff in H. rewrite H. reflexivity.
    + rewrite Z.compare_refl.
      change (Pos.compare_cont Eq mx mz) with (Pos.compare mx mz).
      apply Pos.compare_le_iff in H.
      destruct (Pos.compare mx mz); [reflexivity|reflexivity|contradiction H; reflexivity].
Qed.

Lemma above_leb_neg (mx : positive) (ex : Z) (z : spec_float) :
  above true mx ex z -> SFleb z (S754_finite true mx ex) = true.
Proof.
  destruct z as [sz|sz| |sz mz ez]; cbn [above]; try contradiction.
  - intros ->. reflexivity.
  - intros [-> H]. unfold SFleb, SFcompare.
    destruct H as [H|[-> H]].
    + apply Z.compare_gt_iff in H. rewrite H. reflexivity.
    + rewrite Z.compare_refl.
      change (Pos.compare_cont Eq mz mx) with (Pos.compare mz mx).
      apply Pos.compare_ge_iff in H.
      destruct (Pos.compare mz mx); [reflexivity|contradiction H; reflexivity|reflexivity].
Qed.

Lemma below_leb (mx : positive) (ex : Z) (z : spec_float) :
  below mx ex z -> SFleb z (S754_finite false mx ex) = true.
Proof.
  destruct z as [sz|sz| |[|] mz ez]; cbn [below]; try contradiction.
  intros H. unfold SFleb, SFcompare.
  destruct H as [H|[-> H]].
  - apply Z.compare_lt_iff in H. rewrite H. reflexivity.
  - rewrite Z.compare_refl.
    change (Pos.compare_cont Eq mz mx) with (Pos.compare mz mx).
    apply Pos.compare_le_iff in H.
    destruct (Pos.compare mz mx); [reflexivity|reflexivity|contradiction H; reflexivity].
Qed.

(** Adding a term that is not negative to a binary64 number does not give
    less, unless it gives no number. *)
Lemma sf_add_increases (x y : spec_float) :
  valid_binary x = true ->
  sf_nonneg_or_nan x = true -> sf_nonneg_or_nan y = true ->
  SF64add x y = S754_nan \/ SFleb x (SF64add x y) = true.
Proof.
  intros Hv Hx Hy.
  destruct x as [[|]|[|]| |[|] mx ex]; try discriminate;
  destruct y as [[|]|[|]| |[|] my ey]; try discriminate;
  try (left; reflexivity); try (right; reflexivity).
  - right. cbn [SF64add SFadd]. apply SFleb_refl_finite.
  - right. cbn [SF64add SFadd]. apply SFleb_refl_finite.
  - right. unfold SF64add, SFadd. cbn [cond_Zopp Z.add binary_normalize].
    apply above_leb.
    cbn [SpecFloat.valid_binary] in Hv. unfold bounded in Hv.
    apply andb_true_iff in Hv. destruct Hv as [Hcan _].
    set (ez := Z.min ex ey).
    destruct (shl_align_spec mx ex ez) as [_ Vx].
    rewrite shl_align_snd in Vx. replace (Z.min ex ez) with ez in Vx by lia.
    apply binary_round_above; [exact Hcan|lia|lia].
Qed.

(** Subtracting a term that is not negative from a binary64 number does not
    give more, unless it gives no number. *)
Lemma sf_sub_decreases (x y : spec_float) :
  valid_binary x = true -> valid_binary y = true ->
  sf_nonneg_or_nan y = true ->
  SF64sub x y = S754_nan \/ SFleb (SF64sub x y) x = true.
Proof.
  intros Hx Hy Hn.
  destruct y as [[|]|[|]| |[|] my ey]; try discriminate;
  destruct x as [[|]|[|]| |sx mx ex];
  try (left; reflexivity); try (right; reflexivity).
  - right. destruct sx; cbn [SF64sub SFsub]; unfold SFleb;
      rewrite SFcompare_refl; congruence.
  - right. destruct sx; cbn [SF64sub SFsub]; unfold SFleb;
      rewrite SFcompare_refl; congruence.
  - cbn [SpecFloat.valid_binary] in Hx, Hy.
    pose proof Hx as Hbx. unfold bounded in Hx, Hy.
    apply andb_true_iff in Hx. destruct Hx as [Hcx _].
    apply andb_true_iff in Hy. destruct Hy as [Hcy _].
    pose proof (canonical_emin _ _ Hcx) as Hex.
    pose proof (canonical_emin _ _ Hcy) as Hey.
    unfold SF64sub, SFsub.
    set (ez := Z.min ex ey).
    destruct (shl_align_spec mx ex ez) as [_ Vx].
    rewrite shl_align_snd in Vx. replace (Z.min ex ez) with ez in Vx by lia.
    set (a := fst (shl_align mx ex ez)) in *.
    set (b := fst (shl_align my ey ez)) in *.
    destruct sx; cbn [cond_Zopp].
    + right. change (Z.opp (Zpos a) - Zpos b) with (Zneg (a + b)).
      cbn [binary_normalize].
      apply above_leb_neg. apply binary_round_above; [exact Hcx|lia|lia].
    + destruct (Zpos a - Zpos b) as [|M|M] eqn:E; cbn [binary_normalize].
      * right. reflexivity.
      * right. apply below_leb. apply binary_round_below; [exact Hbx|lia|lia|lia].
      * pose proof (binary_round_signed true M ez) as Hs.
        destruct (binary_round FloatOps.prec FloatOps.emax true M ez)
          as [s'|s'| |s' m' e']; cbn [sf_signed] in Hs;
          [right; subst s'; reflexivity|right; subst s'; reflexivity|
           left; reflexivity|right; subst s'; reflexivity].
Qed.

(** The order of binary64 numbers is transitive. *)
Lemma SFleb_trans (x y z : spec_float) :
  SFleb x y = true -> SFleb y z = true -> SFleb x z = true.
Proof.
  destruct x as [[|]|[|]| |[|] mx ex];
  destruct y as [[|]|[|]| |[|] my ey];
  destruct z as [[|]|[|]| |[|] mz ez];
  try reflexivity; try discriminate;
  unfold SFleb, SFcompare;
  change (Pos.compare_cont Eq mx my) with (Pos.compare mx my);
  change (Pos.compare_cont Eq my mz) with (Pos.compare my mz);
  change (Pos.compare_cont Eq mx mz) with (Pos.compare mx mz);
  destruct (Z.compare_spec ex ey), (Z.compare_spec ey ez), (Z.compare_spec ex ez);
    try discriminate; try reflexivity; try lia;
  destruct (Pos.compare_spec mx my), (Pos.compare_spec my mz), (Pos.compare_spec mx mz);
    try discriminate; try reflexivity; try lia.
Qed.

(** A product with a zero is a zero or no number; adding a zero changes
    nothing, up to the sign of a zero. *)
Lemma sf_mul_zero_l (a b : spec_float) :
  sf_zero_or_nan a = true -> sf_zero_or_nan (SF64mul a b) = true.
Proof.
  destruct a as [[|]|[|]| |[|] ma ea]; try discriminate;
  destruct b as [[|]|[|]| |[|] mb eb]; intros _; reflexivity.
Qed.

Lemma sf_add_zero (x z : spec_float) :
  sf_zero_or_nan z = true ->
  SF64add x z = S754_nan \/ SFeqb (SF64add x z) x = true.
Proof.
  destruct z as [[|]|[|]| |[|] mz ez]; try discriminate; intros _;
  destruct x as [[|]|[|]| |[|] mx ex];
    try (left; reflexivity); try (right; reflexivity);
    right; cbn [SF64add SFadd]; unfold SFeqb; rewrite SFcompare_refl;
    congruence.
Qed.

End Binary64Facts.

Section FloatFacts.

Local Open Scope float_scope.

Lemma is_nan_spec (x : float) : is_nan x = true <-> Prim2SF x = S754_nan.
Proof.
  unfold Prim2SF. destruct (is_nan x); split; intros H; try reflexivity; try discriminate.
  exfalso. revert H.
  destruct (is_zero x); [discriminate|].
  destruct (is_infinity x); [discriminate|].
  destruct (FloatOps.Z.frexp x) as [r e].
  destruct (shr_fexp _ _ _ _ _) as [s e'].
  destruct (shr_m s); discriminate.
Qed.

Lemma nonneg_or_nan_spec (x : float) :
  nonneg_or_nan x <-> sf_nonneg_or_nan (Prim2SF x) = true.
Proof.
  unfold nonneg_or_nan. rewrite is_nan_spec, FloatAxioms.leb_spec.
  change (Prim2SF 0) with (S754_zero false).
  destruct (Prim2SF x) as [[|]|[|]| |[|] m e]; cbn; intuition discriminate.
Qed.

Lemma mul64_nonneg (x y : float) :
  nonneg_or_nan x -> nonneg_or_nan y -> nonneg_or_nan (x * y).
Proof. rewrite !nonneg_or_nan_spec, FloatAxioms.mul_spec. apply sf_mul_nonneg. Qed.

Lemma add64_nonneg (x y : float) :
  nonneg_or_nan x -> nonneg_or_nan y -> nonneg_or_nan (x + y).
Proof. rewrite !nonneg_or_nan_spec, FloatAxioms.add_spec. apply sf_add_nonneg. Qed.

Lemma nonneg_nonneg_or_nan (x : float) : (0 <=? x) = true -> nonneg_or_nan x.
Proof. intros H. right. exact H. Qed.

(** Adding a term that is not negative gives a value that is not smaller, or
    no number. *)
Lemma add64_increases (x y : float) :
  nonneg_or_nan x -> nonneg_or_nan y -> ge_or_nan (x + y) x.
Proof.
  unfold ge_or_nan.
  rewrite !nonneg_or_nan_spec, is_nan_spec, FloatAxioms.leb_spec, FloatAxioms.add_spec.
  apply sf_add_increases. apply Prim2SF_valid.
Qed.

(** Subtracting a term that is not negative gives a value that is not
    larger, or no number. *)
Lemma sub64_decreases (x y : float) : nonneg_or_nan y -> le_or_nan (x - y) x.
Proof.
  unfold le_or_nan.
  rewrite nonneg_or_nan_spec, is_nan_spec, FloatAxioms.leb_spec, FloatAxioms.sub_spec.
  apply sf_sub_decreases; apply Prim2SF_valid.
Qed.

Lemma leb64_trans (x y z : float) :
  (x <=? y) = true -> (y <=? z) = true -> (x <=? z) = true.
Proof. rewrite !FloatAxioms.leb_spec. apply SFleb_trans. Qed.

Lemma leb64_nan_r (x y : float) : is_nan y = true -> (x <=? y) = false.
Proof.
  rewrite is_nan_spec, FloatAxioms.leb_spec. intros ->.
  destruct (Prim2SF x) as [[|]|[|]| |[|] m e]; reflexivity.
Qed.

Lemma leb64_nan_l (x y : float) : is_nan x = true -> (x <=? y) = false.
Proof. rewrite is_nan_spec, FloatAxioms.leb_spec. intros ->. reflexivity. Qed.

Lemma ge_or_nan_refl (x : float) : ge_or_nan x x.
Proof.
  unfold ge_or_nan.
  destruct (is_nan x) eqn:E; [left; reflexivity|right].
  rewrite FloatAxioms.leb_spec. unfold SFleb. rewrite SFcompare_refl; [reflexivity|].
  intros H. apply is_nan_spec in H. congruence.
Qed.

Lemma ge_or_nan_trans (a b c : float) :
  ge_or_nan b a -> ge_or_nan c b -> ge_or_nan c a.
Proof.
  unfold ge_or_nan. intros [Nb|Hab] [Nc|Hbc].
  - left. exact Nc.
  - rewrite (leb64_nan_l b c Nb) in Hbc. discriminate.
  - left. exact Nc.
  - right. exact (leb64_trans a b c Hab Hbc).
Qed.

Lemma le_or_nan_refl (x : float) : le_or_nan x x.
Proof. exact (ge_or_nan_refl x). Qed.

Lemma le_or_nan_trans (a b c : float) :
  le_or_nan b a -> le_or_nan c b -> le_or_nan c a.
Proof.
  unfold le_or_nan. intros [Nb|Hba] [Nc|Hcb].
  - left. exact Nc.
  - rewrite (leb64_nan_r c b Nb) in Hcb. discriminate.
  - left. exact Nc.
  - right. exact (leb64_trans c b a Hcb Hba).
Qed.

Lemma zero_zero_or_nan (x : float) : (x =? 0) = true -> zero_or_nan x.
Proof.
  unfold zero_or_nan. rewrite FloatAxioms.eqb_spec.
  change (Prim2SF 0) with (S754_zero false).
  destruct (Prim2SF x) as [[|]|[|]| |[|] m e]; cbn; intros H; congruence.
Qed.

Lemma mul64_zero_l (x y : float) : zero_or_nan x -> zero_or_nan (x * y).
Proof. unfold zero_or_nan. rewrite FloatAxioms.mul_spec. apply sf_mul_zero_l. Qed.

Lemma add64_zero (x z : float) : zero_or_nan z -> eq_or_nan (x + z) x.
Proof.
  unfold zero_or_nan, eq_or_nan.
  rewrite is_nan_spec, FloatAxioms.eqb_spec, FloatAxioms.add_spec.
  apply sf_add_zero.
Qed.

End FloatFacts.

(** A value built by sums and products from values that are not negative. *)
Ltac nonneg64 :=
  repeat first
    [ assumption
    | apply add64_nonneg
    | apply mul64_nonneg
    | (apply nonneg_nonneg_or_nan; assumption)
    | (right; vm_compute; reflexivity) ].

(** ** Degradation Update *)

Section Degradation.

Local Open Scope Q_scope.


End Degradation.

Section Degradation64.

Local Open Scope float_scope.

(** One call in binary64, from values that are not negative or are NaN: the
    new values are again such, and each is NaN or not below the old one. *)
Lemma astro64_update (e : Astrocycle64.IonThrusterElectrode) (f v t : float) (h : Z) :
  electrode_nonneg_or_nan e ->
  nonneg_or_nan f -> nonneg_or_nan v -> nonneg_or_nan t ->
  let e' := Astrocycle64.apply_degradation e f v t h in
  electrode_nonneg_or_nan e' /\
  ge_or_nan (Astrocycle64.sputtering_depth e') (Astrocycle64.sputtering_depth e) /\
  ge_or_nan (Astrocycle64.surface_roughness e') (Astrocycle64.surface_roughness e) /\
  ge_or_nan (Astrocycle64.microcracks e') (Astrocycle64.microcracks e) /\
  ge_or_nan (Astrocycle64.thermal_stress e') (Astrocycle64.thermal_stress e) /\
  ge_or_nan (Astrocycle64.hot_spot_formation e') (Astrocycle64.hot_spot_formation e) /\
  ge_or_nan (Astrocycle64.electrical_resistance e')
    (Astrocycle64.electrical_resistance e) /\
  ge_or_nan (Astrocycle64.arc_discharge_risk e') (Astrocycle64.arc_discharge_risk e) /\
  ge_or_nan (Astrocycle64.thrust_efficiency_loss e')
    (Astrocycle64.thrust_efficiency_loss e) /\
  Astrocycle64.cycle_count e' = (Astrocycle64.cycle_count e + 1)%Z.
Proof.
  intros (Hsd & Hsr & Hmc & Hts & Hhs & Her & Har & Hte) Hf Hv Ht e'. subst e'.
  unfold Astrocycle64.apply_degradation.
  set (rate := f * 0.015 * (1 + Astrocycle64.surface_roughness e * 0.3)).
  assert (Hrate : nonneg_or_nan rate) by (subst rate; nonneg64).
  set (sd := Astrocycle64.sputtering_depth e + rate).
  assert (Hsd' : nonneg_or_nan sd) by (subst sd; nonneg64).
  set (sri := rate * 0.8 * (1 + Astrocycle64.thermal_stress e * 0.5)).
  assert (Hsri : nonneg_or_nan sri) by (subst sri; nonneg64).
  set (sr := Astrocycle64.surface_roughness e + sri).
  assert (Hsr' : nonneg_or_nan sr) by (subst sr; nonneg64).
  set (cg := t * 0.018 * (1 + sd * 0.4)).
  assert (Hcg : nonneg_or_nan cg) by (subst cg; nonneg64).
  set (mc := Astrocycle64.microcracks e + cg).
  assert (Hmc' : nonneg_or_nan mc) by (subst mc; nonneg64).
  set (tsi := t * 0.02 * (1 + mc * 1.2)).
  assert (Htsi : nonneg_or_nan tsi) by (subst tsi; nonneg64).
  set (ts := Astrocycle64.thermal_stress e + tsi).
  assert (Hts' : nonneg_or_nan ts) by (subst ts; nonneg64).
  set (hsi := mc * sr * 0.025).
  assert (Hhsi : nonneg_or_nan hsi) by (subst hsi; nonneg64).
  set (hs := Astrocycle64.hot_spot_formation e + hsi).
  assert (Hhs' : nonneg_or_nan hs) by (subst hs; nonneg64).
  set (ri := mc * 0.08 + sd * 0.05 + hs * 0.12).
  assert (Hri : nonneg_or_nan ri) by (subst ri; nonneg64).
  set (er := Astrocycle64.electrical_resistance e + ri).
  assert (Her' : nonneg_or_nan er) by (subst er; nonneg64).
  set (ari := v * er * 0.01 + hs * 0.15).
  assert (Hari : nonneg_or_nan ari) by (subst ari; nonneg64).
  set (ar := Astrocycle64.arc_discharge_risk e + ari).
  assert (Har' : nonneg_or_nan ar) by (subst ar; nonneg64).
  set (tei := sd * 0.02 + er * 0.015 + sr * 0.01).
  assert (Htei : nonneg_or_nan tei) by (subst tei; nonneg64).
  set (te := Astrocycle64.thrust_efficiency_loss e + tei).
  assert (Hte' : nonneg_or_nan te) by (subst te; nonneg64).
  cbv zeta. unfold electrode_nonneg_or_nan.
  cbn [Astrocycle64.sputtering_depth Astrocycle64.surface_roughness
       Astrocycle64.microcracks Astrocycle64.thermal_stress
       Astrocycle64.hot_spot_formation Astrocycle64.electrical_resistance
       Astrocycle64.arc_discharge_risk Astrocycle64.thrust_efficiency_loss
       Astrocycle64.cycle_count].
  split; [exact (conj Hsd' (conj Hsr' (conj Hmc' (conj Hts' (conj Hhs'
                  (conj Her' (conj Har' Hte')))))))|].
  split; [apply add64_increases; assumption|].
  split; [apply add64_increases; assumption|].
  split; [apply add64_increases; assumption|].
  split; [apply add64_increases; assumption|].
  split; [apply add64_increases; assumption|].
  split; [apply add64_increases; assumption|].
  split; [apply add64_increases; assumption|].
  split; [apply add64_increases; assumption|].
  reflexivity.
Qed.

Lemma hack64_update (s : Hackathon64.MaterialState) (r t : float) :
  nonneg_or_nan (Hackathon64.defect_density s) ->
  nonneg_or_nan (Hackathon64.thermal_stress s) ->
  nonneg_or_nan r -> nonneg_or_nan t ->
  let s' := Hackathon64.apply_degradation s r t in
  nonneg_or_nan (Hackathon64.defect_density s') /\
  nonneg_or_nan (Hackathon64.thermal_stress s') /\
  ge_or_nan (Hackathon64.defect_density s') (Hackathon64.defect_density s) /\
  ge_or_nan (Hackathon64.thermal_stress s') (Hackathon64.thermal_stress s) /\
  le_or_nan (Hackathon64.conductivity_drift s') (Hackathon64.conductivity_drift s) /\
  Hackathon64.cycle_count s' = (Hackathon64.cycle_count s + 1)%Z.
Proof.
  intros Hd Ht Hr Htc s'. subst s'. unfold Hackathon64.apply_degradation.
  set (ddi := r * 0.008 * (1 + Hackathon64.thermal_stress s)).
  assert (Hddi : nonneg_or_nan ddi) by (subst ddi; nonneg64).
  set (dd := Hackathon64.defect_density s + ddi).
  assert (Hdd : nonneg_or_nan dd) by (subst dd; nonneg64).
  set (tsi := t * 0.012 * (1 + dd * 0.5)).
  assert (Htsi : nonneg_or_nan tsi) by (subst tsi; nonneg64).
  set (ts := Hackathon64.thermal_stress s + tsi).
  assert (Hts : nonneg_or_nan ts) by (subst ts; nonneg64).
  cbv zeta.
  cbn [Hackathon64.defect_density Hackathon64.thermal_stress
       Hackathon64.conductivity_drift Hackathon64.cycle_count].
  split; [exact Hdd|]. split; [exact Hts|].
  split; [apply add64_increases; assumption|].
  split; [apply add64_increases; assumption|].
  split; [apply sub64_decreases; nonneg64|].
  reflexivity.
Qed.

(** C2, as it holds of the code: in binary64, on a state with non-negative
    values and with non-negative multipliers, one call of the update leaves
    each damage-accumulating variable (the eight of the electrode; defect
    density and thermal stress of the material) not below its value before
    the call, or turns it into NaN, and adds exactly 1 to the cycle
    counter.  A variable that is a number after the call has not decreased.
    The one variable that goes down is [conductivity_drift]: after the call
    it is not above its value before, or NaN, whatever that value was. *)
Theorem degradation_update_monotone_or_nan :
  (forall (e : Astrocycle64.IonThrusterElectrode) (f v t : float) (h : Z),
     (0 <=? Astrocycle64.sputtering_depth e) = true ->
     (0 <=? Astrocycle64.surface_roughness e) = true ->
     (0 <=? Astrocycle64.microcracks e) = true ->
     (0 <=? Astrocycle64.thermal_stress e) = true ->
     (0 <=? Astrocycle64.hot_spot_formation e) = true ->
     (0 <=? Astrocycle64.electrical_resistance e) = true ->
     (0 <=? Astrocycle64.arc_discharge_risk e) = true ->
     (0 <=? Astrocycle64.thrust_efficiency_loss e) = true ->
     (0 <=? f) = true -> (0 <=? v) = true -> (0 <=? t) = true ->
     let e' := Astrocycle64.apply_degradation e f v t h in
     ge_or_nan (Astrocycle64.sputtering_depth e') (Astrocycle64.sputtering_depth e) /\
     ge_or_nan (Astrocycle64.surface_roughness e') (Astrocycle64.surface_roughness e) /\
     ge_or_nan (Astrocycle64.microcracks e') (Astrocycle64.microcracks e) /\
     ge_or_nan (Astrocycle64.thermal_stress e') (Astrocycle64.thermal_stress e) /\
     ge_or_nan (Astrocycle64.hot_spot_formation e')
       (Astrocycle64.hot_spot_formation e) /\
     ge_or_nan (Astrocycle64.electrical_resistance e')
       (Astrocycle64.electrical_resistance e) /\
     ge_or_nan (Astrocycle64.arc_discharge_risk e')
       (Astrocycle64.arc_discharge_risk e) /\
     ge_or_nan (Astrocycle64.thrust_efficiency_loss e')
       (Astrocycle64.thrust_efficiency_loss e) /\
     Astrocycle64.cycle_count e' = (Astrocycle64.cycle_count e + 1)%Z)
  /\
  (forall (s : Hackathon64.MaterialState) (r t : float),
     (0 <=? Hackathon64.defect_density s) = true ->
     (0 <=? Hackathon64.thermal_stress s) = true ->
     (0 <=? r) = true -> (0 <=? t) = true ->
     let s' := Hackathon64.apply_degradation s r t in
     ge_or_nan (Hackathon64.defect_density s') (Hackathon64.defect_density s) /\
     ge_or_nan (Hackathon64.thermal_stress s') (Hackathon64.thermal_stress s) /\
     le_or_nan (Hackathon64.conductivity_drift s')
       (Hackathon64.conductivity_drift s) /\
     Hackathon64.cycle_count s' = (Hackathon64.cycle_count s + 1)%Z).
Proof.
  split.
  - intros e f v t h H1 H2 H3 H4 H5 H6 H7 H8 Hf Hv Ht.
    destruct (astro64_update e f v t h) as (_ & H).
    + unfold electrode_nonneg_or_nan.
      repeat (split; [apply nonneg_nonneg_or_nan; assumption|]).
      apply nonneg_nonneg_or_nan; assumption.
    + apply nonneg_nonneg_or_nan; exact Hf.
    + apply nonneg_nonneg_or_nan; exact Hv.
    + apply nonneg_nonneg_or_nan; exact Ht.
    + exact H.
  - intros s r t H1 H2 Hr Ht.
    destruct (hack64_update s r t) as (_ & _ & H).
    + apply nonneg_nonneg_or_nan; exact H1.
    + apply nonneg_nonneg_or_nan; exact H2.
    + apply nonneg_nonneg_or_nan; exact Hr.
    + apply nonneg_nonneg_or_nan; exact Ht.
    + exact H.
Qed.

(** C2 as the specification states it does not hold of the code: a product
    that overflows is an infinity, and with a multiplier at zero the next
    increment is [0 * infinity], which is NaN.  The material under a thermal
    stress of 1e308, updated with radiation 1000 and no cycling, has no
    thermal stress that is [>=] the old one; the electrode with a surface
    roughness of 1e5, updated with an ion flux of 1e308 and no cycling, has
    no such microcracks.  Every value given is finite and non-negative. *)
Lemma degradation_update_not_monotone :
  (let s := state_overflow in
   let s' := Hackathon64.apply_degradation s 1000 0 in
   (0 <=? Hackathon64.defect_density s) = true /\
   (0 <=? Hackathon64.thermal_stress s) = true /\
   (0 <=? 1000) = true /\ (0 <=? 0) = true /\
   (Hackathon64.thermal_stress s <=? Hackathon64.thermal_stress s') = false /\
   is_nan (Hackathon64.thermal_stress s') = true)
  /\
  (let e := electrode_overflow in
   let e' := Astrocycle64.apply_degradation e 1e308 1 0 100 in
   nonneg_electrode64 e /\
   (0 <=? 1e308) = true /\ (0 <=? 1) = true /\ (0 <=? 0) = true /\
   (Astrocycle64.microcracks e <=? Astrocycle64.microcracks e') = false /\
   is_nan (Astrocycle64.microcracks e') = true).
Proof. vm_compute. repeat split. Qed.

Lemma degradation_update_monotone_or_nan_witness :
  (let e := Astrocycle64.new_electrode in
   let e' := Astrocycle64.apply_degradation e 1.0 1.0 1.0 100 in
   ge_or_nan (Astrocycle64.sputtering_depth e') (Astrocycle64.sputtering_depth e) /\
   ge_or_nan (Astrocycle64.surface_roughness e') (Astrocycle64.surface_roughness e) /\
   ge_or_nan (Astrocycle64.microcracks e') (Astrocycle64.microcracks e) /\
   ge_or_nan (Astrocycle64.thermal_stress e') (Astrocycle64.thermal_stress e) /\
   ge_or_nan (Astrocycle64.hot_spot_formation e')
     (Astrocycle64.hot_spot_formation e) /\
   ge_or_nan (Astrocycle64.electrical_resistance e')
     (Astrocycle64.electrical_resistance e) /\
   ge_or_nan (Astrocycle64.arc_discharge_risk e')
     (Astrocycle64.arc_discharge_risk e) /\
   ge_or_nan (Astrocycle64.thrust_efficiency_loss e')
     (Astrocycle64.thrust_efficiency_loss e) /\
   Astrocycle64.cycle_count e' = (Astrocycle64.cycle_count e + 1)%Z)
  /\
  (let s := Hackathon64.new_state in
   let s' := Hackathon64.apply_degradation s 1.0 1.0 in
   ge_or_nan (Hackathon64.defect_density s') (Hackathon64.defect_density s) /\
   ge_or_nan (Hackathon64.thermal_stress s') (Hackathon64.thermal_stress s) /\
   le_or_nan (Hackathon64.conductivity_drift s')
     (Hackathon64.conductivity_drift s) /\
   Hackathon64.cycle_count s' = (Hackathon64.cycle_count s + 1)%Z).
Proof.
  destruct degradation_update_monotone_or_nan as [Ha Hh].
  split.
  - apply (Ha Astrocycle64.new_electrode 1.0 1.0 1.0 100%Z); reflexivity.
  - apply (Hh Hackathon64.new_state 1.0 1.0); reflexivity.
Defined.

End Degradation64.

(** ** The critical-failure flag *)

Section Flag.

Local Open Scope Q_scope.

(** The flag after one call: set by the failure check, else as before. *)
Lemma flag_after_update (e : Astrocycle.IonThrusterElectrode) (f v t : Q) (h : Z) :
  let e' := Astrocycle.apply_degradation e f v t h in
  Astrocycle.critical_failure e' =
  Astrocycle.failure_condition (Astrocycle.arc_discharge_risk e')
    (Astrocycle.sputtering_depth e') (Astrocycle.thrust_efficiency_loss e')
  || Astrocycle.critical_failure e.
Proof.
  unfold Astrocycle.apply_degradation. cbv zeta.
  cbn [Astrocycle.critical_failure Astrocycle.arc_discharge_risk
       Astrocycle.sputtering_depth Astrocycle.thrust_efficiency_loss].
  destruct (Astrocycle.failure_condition _ _ _); reflexivity.
Qed.

(** The failure check is false exactly when no threshold is exceeded. *)
Lemma failure_condition_false (arc sd te : Q) :
  Astrocycle.failure_condition arc sd te = false <->
  ~ 0.7 < arc /\ ~ 50.0 < sd /\ ~ 0.3 < te.
Proof.
  unfold Astrocycle.failure_condition.
  rewrite !orb_false_iff, !gtb_false.
  split.
  - intros [[H1 H2] H3]. repeat split; apply Qle_not_lt; assumption.
  - intros (H1 & H2 & H3). repeat split; apply Qnot_lt_le; assumption.
Qed.

(** A set flag survives a call. *)
Lemma flag_kept (e : Astrocycle.IonThrusterElectrode) (f v t : Q) (h : Z) :
  Astrocycle.critical_failure e = true ->
  Astrocycle.critical_failure (Astrocycle.apply_degradation e f v t h) = true.
Proof.
  intros H. pose proof (flag_after_update e f v t h) as E. cbv zeta in E.
  rewrite E, H. apply orb_true_r.
Qed.

(** C3: if the flag was false and none of the three thresholds
    (arc_discharge_risk > 0.7, sputtering_depth > 50.0,
    thrust_efficiency_loss > 0.3) is exceeded on the updated state, the flag
    is false after the call; and a flag that is true is true after any
    sequence of further calls. *)
Theorem terminal_flag_behaviour :
  (forall (e : Astrocycle.IonThrusterElectrode) (f v t : Q) (h : Z),
     let e' := Astrocycle.apply_degradation e f v t h in
     Astrocycle.critical_failure e = false ->
     ~ 0.7 < Astrocycle.arc_discharge_risk e' ->
     ~ 50.0 < Astrocycle.sputtering_depth e' ->
     ~ 0.3 < Astrocycle.thrust_efficiency_loss e' ->
     Astrocycle.critical_failure e' = false)
  /\
  (forall (e : Astrocycle.IonThrusterElectrode) (calls : list (Q * Q * Q * Z)),
     Astrocycle.critical_failure e = true ->
     Astrocycle.critical_failure (Astrocycle.apply_degradations calls e) = true).
Proof.
  split.
  - intros e f v t h e' Hflag Harc Hsd Hte.
    pose proof (flag_after_update e f v t h) as E. cbv zeta in E.
    subst e'. rewrite E, Hflag, orb_false_r.
    apply failure_condition_false. auto.
  - intros e calls. revert e.
    induction calls as [|[[[f v] t] h] calls IH]; intros e Hflag.
    + exact Hflag.
    + unfold Astrocycle.apply_degradations in *. cbn [fold_left].
      apply IH, flag_kept, Hflag.
Qed.

Lemma terminal_flag_behaviour_witness :
  Astrocycle.critical_failure
    (Astrocycle.apply_degradation Astrocycle.new_electrode 1.0 1.0 1.0 100) = false
  /\
  Astrocycle.critical_failure
    (Astrocycle.apply_degradations [(0.0, 0.0, 0.0, 100%Z); (1.0, 1.0, 1.0, 100%Z)]
       (Astrocycle.apply_degradation Astrocycle.new_electrode 1.0 100.0 1.0 100))
  = true.
Proof.
  destruct terminal_flag_behaviour as [Hstay Hkeep].
  split.
  - apply Hstay; [reflexivity | | | ]; vm_compute; discriminate.
  - apply Hkeep. vm_compute. reflexivity.
Defined.

(** C9: the result of the electrode update is the same for any two values
    of [mission_hours]: every variable, the flag and the cycle counter. *)
Theorem mission_hours_noninterference
    (e : Astrocycle.IonThrusterElectrode) (f v t : Q) (h1 h2 : Z) :
  Astrocycle.apply_degradation e f v t h1 = Astrocycle.apply_degradation e f v t h2.
Proof. reflexivity. Qed.

End Flag.

(** ** Cycle Driver *)

Section DriverFacts.

Variable client : nat -> string.

Lemma astro_history_length (k : nat) :
  List.length (Astrocycle.cycle_history (Astrocycle.after_cycles client k)) = k.
Proof.
  induction k as [|k IH]; [reflexivity|].
  cbn [Astrocycle.after_cycles]. unfold Astrocycle.cycle, Astrocycle.run_brain_cycle.
  cbn [Astrocycle.cycle_history]. rewrite length_app, IH. simpl. lia.
Qed.

Lemma astro_reasoning_length (k : nat) :
  List.length (Astrocycle.all_reasoning (Astrocycle.after_cycles client k)) = k.
Proof.
  induction k as [|k IH]; [reflexivity|].
  cbn [Astrocycle.after_cycles]. unfold Astrocycle.cycle, Astrocycle.run_brain_cycle.
  cbn [Astrocycle.all_reasoning]. rewrite length_app, IH. simpl. lia.
Qed.

(** Each cycle calls the update once, so the counter of the electrode is the
    number of calls made. *)
Lemma astro_cycle_count (k : nat) :
  Astrocycle.cycle_count (Astrocycle.electrode (Astrocycle.after_cycles client k))
  = Z.of_nat k.
Proof.
  induction k as [|k IH]; [reflexivity|].
  cbn [Astrocycle.after_cycles]. unfold Astrocycle.cycle, Astrocycle.run_brain_cycle.
  cbn [Astrocycle.electrode]. unfold Astrocycle.apply_degradation.
  cbn [Astrocycle.cycle_count]. rewrite IH. lia.
Qed.

(** The flag of the run never goes back to false. *)
Lemma astro_flag_monotone (j k : nat) :
  j <= k ->
  Astrocycle.critical_failure (Astrocycle.electrode (Astrocycle.after_cycles client j)) = true ->
  Astrocycle.critical_failure (Astrocycle.electrode (Astrocycle.after_cycles client k)) = true.
Proof.
  intros Hjk Hj. induction Hjk as [|k Hjk IH]; [exact Hj|].
  cbn [Astrocycle.after_cycles]. unfold Astrocycle.cycle, Astrocycle.run_brain_cycle.
  cbn [Astrocycle.electrode]. apply flag_kept, IH.
Qed.

(** The loop from index [i] on, while the flag stays false. *)
Lemma astro_cycles_complete (n i : nat) :
  (forall j, i <= j < i + n ->
     Astrocycle.critical_failure
       (Astrocycle.electrode (Astrocycle.after_cycles client j)) = false) ->
  Astrocycle.cycles client n i (Astrocycle.after_cycles client i)
  = (Astrocycle.after_cycles client (i + n), Astrocycle.Completed).
Proof.
  revert i; induction n as [|n IH]; intros i Hno.
  - rewrite Nat.add_0_r. reflexivity.
  - cbn [Astrocycle.cycles]. rewrite (Hno i) by lia.
    change (Astrocycle.cycle client i (Astrocycle.after_cycles client i))
      with (Astrocycle.after_cycles client (S i)).
    rewrite IH by (intros j Hj; apply Hno; lia).
    do 2 f_equal. lia.
Qed.

(** The loop from index [i] on, when the flag is first found true at [k]. *)
Lemma astro_cycles_break (n i k : nat) :
  i <= k < i + n ->
  (forall j, i <= j < k ->
     Astrocycle.critical_failure
       (Astrocycle.electrode (Astrocycle.after_cycles client j)) = false) ->
  Astrocycle.critical_failure
    (Astrocycle.electrode (Astrocycle.after_cycles client k)) = true ->
  Astrocycle.cycles client n i (Astrocycle.after_cycles client i)
  = (Astrocycle.after_cycles client k, Astrocycle.TerminatedEarly k).
Proof.
  revert i; induction n as [|n IH]; intros i Hk Hno Hyes; [lia|].
  cbn [Astrocycle.cycles].
  destruct (Nat.eq_dec i k) as [->|Hne].
  - rewrite Hyes. reflexivity.
  - rewrite (Hno i) by lia.
    change (Astrocycle.cycle client i (Astrocycle.after_cycles client i))
      with (Astrocycle.after_cycles client (S i)).
    apply IH; [lia | intros j Hj; apply Hno; lia | exact Hyes].
Qed.

Lemma hack_cycles_history (n i : nat) (sim : Hackathon.Simulation) :
  List.length (Hackathon.cycle_history (Hackathon.cycles client n i sim))
  = List.length (Hackathon.cycle_history sim) + n.
Proof.
  revert i sim; induction n as [|n IH]; intros i sim.
  - simpl. lia.
  - cbn [Hackathon.cycles]. rewrite IH.
    unfold Hackathon.cycle, Hackathon.run_brain_cycle.
    cbn [Hackathon.cycle_history]. rewrite length_app. simpl. lia.
Qed.

Lemma hack_cycles_reasoning (n i : nat) (sim : Hackathon.Simulation) :
  List.length (Hackathon.all_reasoning (Hackathon.cycles client n i sim))
  = List.length (Hackathon.all_reasoning sim) + n.
Proof.
  revert i sim; induction n as [|n IH]; intros i sim.
  - simpl. lia.
  - cbn [Hackathon.cycles]. rewrite IH.
    unfold Hackathon.cycle, Hackathon.run_brain_cycle.
    cbn [Hackathon.all_reasoning]. rewrite length_app. simpl. lia.
Qed.

End DriverFacts.

(** C7: a run of the driver with at most [N] cycles in which the flag is
    false after each of the first [N] updates takes the loop to its end
    ([Completed]) and appends exactly [N] history entries; [run_simulation]
    of astrocycle is the case [N = 15] and then makes its synthesis request.
    The loop of hackathon has no exit and always appends [N] entries, 10 in
    its [run_simulation]. *)
Theorem driver_completes :
  (forall (client : nat -> string) (N : nat),
     (forall k, k <= N ->
        Astrocycle.critical_failure
          (Astrocycle.electrode (Astrocycle.after_cycles client k)) = false) ->
     exists sim,
       Astrocycle.simulate client N = (sim, Astrocycle.Completed) /\
       List.length (Astrocycle.cycle_history sim) = N)
  /\
  (forall client : nat -> string,
     (forall k, k <= 15 ->
        Astrocycle.critical_failure
          (Astrocycle.electrode (Astrocycle.after_cycles client k)) = false) ->
     exists sim,
       Astrocycle.run_simulation client = (sim, Astrocycle.Completed, client 15) /\
       List.length (Astrocycle.cycle_history sim) = 15)
  /\
  (forall (client : nat -> string) (N : nat),
     List.length (Hackathon.cycle_history (Hackathon.simulate client N)) = N)
  /\
  (forall client : nat -> string,
     exists sim,
       Hackathon.run_simulation client = (sim, client 10) /\
       List.length (Hackathon.cycle_history sim) = 10).
Proof.
  assert (Hgen : forall (client : nat -> string) (N : nat),
     (forall k, k <= N ->
        Astrocycle.critical_failure
          (Astrocycle.electrode (Astrocycle.after_cycles client k)) = false) ->
     Astrocycle.simulate client N
     = (Astrocycle.after_cycles client N, Astrocycle.Completed)).
  { intros client N Hno. unfold Astrocycle.simulate.
    change Astrocycle.start with (Astrocycle.after_cycles client 0).
    rewrite astro_cycles_complete by (intros j Hj; apply Hno; lia).
    reflexivity. }
  repeat split.
  - intros client N Hno. exists (Astrocycle.after_cycles client N).
    split; [apply Hgen, Hno | apply astro_history_length].
  - intros client Hno. exists (Astrocycle.after_cycles client 15).
    unfold Astrocycle.run_simulation. rewrite (Hgen client 15 Hno).
    rewrite astro_reasoning_length.
    split; [reflexivity | apply astro_history_length].
  - intros client N. unfold Hackathon.simulate.
    rewrite hack_cycles_history. reflexivity.
  - intros client. exists (Hackathon.simulate client 10).
    unfold Hackathon.run_simulation, Hackathon.simulate.
    rewrite hack_cycles_reasoning, hack_cycles_history.
    split; reflexivity.
Qed.

Lemma driver_completes_witness :
  (exists sim,
     Astrocycle.simulate client_switch_off 15 = (sim, Astrocycle.Completed) /\
     List.length (Astrocycle.cycle_history sim) = 15)
  /\
  (exists sim,
     Astrocycle.run_simulation client_switch_off
     = (sim, Astrocycle.Completed, client_switch_off 15) /\
     List.length (Astrocycle.cycle_history sim) = 15).
Proof.
  assert (Hno : forall k, k <= 15 ->
     Astrocycle.critical_failure
       (Astrocycle.electrode (Astrocycle.after_cycles client_switch_off k)) = false).
  { intros k Hk.
    do 16 (destruct k as [|k]; [vm_compute; reflexivity|]).
    lia. }
  destruct driver_completes as (Hsim & Hrun & _).
  split; [apply Hsim | apply Hrun]; exact Hno.
Defined.

(** C8: when the flag, false after [k - 1] cycles, is true after the [k]-th
    and [k < N], the driver leaves its loop by the [break] at index [k]
    ([TerminatedEarly]) with exactly [k] history entries, and the update has
    been called exactly [k] times: the counter that each call increments
    stands at [k].  [run_simulation] is the case [N = 15]; its synthesis
    request is then request number [k]. *)
Theorem driver_stops_at_failure (client : nat -> string) (N k : nat) :
  1 <= k < N ->
  Astrocycle.critical_failure
    (Astrocycle.electrode (Astrocycle.after_cycles client (Nat.pred k))) = false ->
  Astrocycle.critical_failure
    (Astrocycle.electrode (Astrocycle.after_cycles client k)) = true ->
  exists sim,
    Astrocycle.simulate client N = (sim, Astrocycle.TerminatedEarly k) /\
    List.length (Astrocycle.cycle_history sim) = k /\
    Astrocycle.cycle_count (Astrocycle.electrode sim) = Z.of_nat k /\
    (N = 15 ->
     Astrocycle.run_simulation client = (sim, Astrocycle.TerminatedEarly k, client k)).
Proof.
  intros Hk Hbefore Hat.
  assert (Hsim : Astrocycle.simulate client N
                 = (Astrocycle.after_cycles client k, Astrocycle.TerminatedEarly k)).
  { unfold Astrocycle.simulate.
    change Astrocycle.start with (Astrocycle.after_cycles client 0).
    apply astro_cycles_break; [lia | | exact Hat].
    intros j Hj.
    destruct (Astrocycle.critical_failure
                (Astrocycle.electrode (Astrocycle.after_cycles client j))) eqn:E;
      [|reflexivity].
    rewrite (astro_flag_monotone client j (Nat.pred k)) in Hbefore by (lia || exact E).
    discriminate. }
  exists (Astrocycle.after_cycles client k).
  repeat split.
  - exact Hsim.
  - apply astro_history_length.
  - apply astro_cycle_count.
  - intros ->. unfold Astrocycle.run_simulation. rewrite Hsim.
    rewrite astro_reasoning_length. reflexivity.
Qed.

Lemma driver_stops_at_failure_witness :
  exists sim,
    Astrocycle.simulate client_overvoltage 15 = (sim, Astrocycle.TerminatedEarly 2) /\
    List.length (Astrocycle.cycle_history sim) = 2 /\
    Astrocycle.cycle_count (Astrocycle.electrode sim) = 2%Z /\
    (15 = 15 ->
     Astrocycle.run_simulation client_overvoltage
     = (sim, Astrocycle.TerminatedEarly 2, client_overvoltage 2)).
Proof.
  apply (driver_stops_at_failure client_overvoltage 15 2).
  - lia.
  - vm_compute. reflexivity.
  - vm_compute. reflexivity.
Defined.

(** ** The adjustment parsers on replies that carry the marker *)

Section Adjustments.

Local Open Scope Q_scope.

(** What the astrocycle parser does with the reply of the template. *)
Lemma astro_template_applied (env : Astrocycle.MissionEnvironment) :
  Astrocycle.apply_adjustments reply_template env =
  {| Astrocycle.ion_flux := Astrocycle.ion_flux env *! (11 # 10);
     Astrocycle.voltage := Astrocycle.voltage env *! (9 # 10);
     Astrocycle.thermal_cycling := Astrocycle.thermal_cycling env *! (1 # 1);
     Astrocycle.mission_hours := Astrocycle.mission_hours env |}.
Proof.
  destruct env as [f v t h].
  unfold Astrocycle.apply_adjustments, try_except_pass.
  replace (Astrocycle.parse_adjustments reply_template)
    with (modify (fun env => Astrocycle.set_ion_flux env (Astrocycle.ion_flux env *! (11 # 10)))
          ;;; modify (fun env => Astrocycle.set_voltage env (Astrocycle.voltage env *! (9 # 10)))
          ;;; modify (fun env => Astrocycle.set_thermal_cycling env
                                   (Astrocycle.thermal_cycling env *! (1 # 1)))
          : M Astrocycle.MissionEnvironment unit)
    by (vm_compute; reflexivity).
  reflexivity.
Qed.

(** C6: on the text "RECOMMEND: ion_flux=1.1, voltage=0.9, thermal=1.0" and
    an environment whose multipliers are all 1.0, the parser yields
    ion_flux = 1.1, voltage = 0.9 and thermal_cycling = 1.0. *)
Theorem template_reply_applied (env : Astrocycle.MissionEnvironment) :
  Astrocycle.ion_flux env == 1.0 ->
  Astrocycle.voltage env == 1.0 ->
  Astrocycle.thermal_cycling env == 1.0 ->
  let env' := Astrocycle.apply_adjustments reply_template env in
  Astrocycle.ion_flux env' == 1.1 /\
  Astrocycle.voltage env' == 0.9 /\
  Astrocycle.thermal_cycling env' == 1.0.
Proof.
  intros Hf Hv Ht env'. subst env'. rewrite astro_template_applied.
  cbn [Astrocycle.ion_flux Astrocycle.voltage Astrocycle.thermal_cycling].
  rewrite !mul_spec, Hf, Hv, Ht. repeat split; reflexivity.
Qed.

Lemma template_reply_applied_witness :
  let env' := Astrocycle.apply_adjustments reply_template Astrocycle.new_environment in
  Astrocycle.ion_flux env' == 1.1 /\
  Astrocycle.voltage env' == 0.9 /\
  Astrocycle.thermal_cycling env' == 1.0.
Proof.
  apply (template_reply_applied Astrocycle.new_environment); reflexivity.
Defined.

(** C1, on the code: a conversion that raises leaves the fields assigned
    before it changed.  In hackathon, "radiation=1.2, temp=abc" raises
    [ValueError] at [temp] and [radiation_level] is 1.2, not its earlier 1.0;
    in astrocycle, "ion_flux=1.1, voltage=abc, thermal=1.0" raises at
    [voltage], [ion_flux] is 1.1 and the later [thermal] is never read. *)
Theorem failed_conversion_keeps_earlier_update :
  (fst (Hackathon.parse_adjustments reply_bad_temp Hackathon.new_environment)
     = inl ValueError /\
   let env' := Hackathon.apply_adjustments reply_bad_temp Hackathon.new_environment in
   Hackathon.radiation_level env' == 1.2 /\
   ~ Hackathon.radiation_level env' == Hackathon.radiation_level Hackathon.new_environment /\
   Hackathon.temp_cycling env' == 1.0)
  /\
  (fst (Astrocycle.parse_adjustments reply_bad_voltage Astrocycle.new_environment)
     = inl ValueError /\
   let env' := Astrocycle.apply_adjustments reply_bad_voltage Astrocycle.new_environment in
   Astrocycle.ion_flux env' == 1.1 /\
   ~ Astrocycle.ion_flux env' == Astrocycle.ion_flux Astrocycle.new_environment /\
   Astrocycle.voltage env' == 1.0 /\
   Astrocycle.thermal_cycling env' == 1.0).
Proof.
  repeat split; try (vm_compute; reflexivity); vm_compute; discriminate.
Qed.

(** C4, on the code: in astrocycle the text after "thermal=" is converted
    whole, so commentary after the value makes the conversion raise: on
    "thermal=1.0 to reduce stress" the parser ends with [ValueError], and on
    "thermal=0.8 to reduce stress" [thermal_cycling] stays 1.0 while the two
    earlier fields are updated.  The sibling parser of hackathon takes the
    first blank-separated word after "temp=" and applies 0.8. *)
Theorem trailing_commentary_not_tolerated :
  fst (Astrocycle.parse_adjustments reply_commented Astrocycle.new_environment)
    = inl ValueError
  /\
  (let env' := Astrocycle.apply_adjustments reply_commented_08 Astrocycle.new_environment in
   Astrocycle.ion_flux env' == 1.1 /\
   Astrocycle.voltage env' == 0.9 /\
   Astrocycle.thermal_cycling env' == 1.0 /\
   ~ Astrocycle.thermal_cycling env' == 0.8)
  /\
  (fst (Hackathon.parse_adjustments reply_commented_temp Hackathon.new_environment)
     = inr tt /\
   let env' := Hackathon.apply_adjustments reply_commented_temp Hackathon.new_environment in
   Hackathon.radiation_level env' == 1.1 /\
   Hackathon.temp_cycling env' == 0.8).
Proof.
  repeat split; try (vm_compute; reflexivity); vm_compute; discriminate.
Qed.

End Adjustments.

(** * Further properties *)

(** ** Texts: concatenation, membership, splitting *)

Section Texts.

Import PyStr.

Lemma app_assoc_s (a b c : string) : (a ++ b) ++ c = a ++ (b ++ c).
Proof. induction a as [|x a IH]; simpl; congruence. Qed.

Lemma app_nil_r_s (a : string) : a ++ "" = a.
Proof. induction a as [|x a IH]; simpl; congruence. Qed.

Lemma mem_char_app (c : ascii) (a b : string) :
  mem_char c (a ++ b) = mem_char c a || mem_char c b.
Proof.
  induction a as [|x a IH]; [reflexivity|].
  cbn [append mem_char]. rewrite IH. apply orb_assoc.
Qed.

Lemma startswith_app (sep s : string) : startswith sep (sep ++ s) = true.
Proof.
  induction sep as [|x sep IH]; [reflexivity|].
  cbn [append startswith]. now rewrite Ascii.eqb_refl, IH.
Qed.

Lemma startswith_compatible (p t s : string) :
  startswith p (t ++ s) = true -> compatible p t = true.
Proof.
  revert t; induction p as [|a p IH]; intros t H; [reflexivity|].
  destruct t as [|b t]; [reflexivity|].
  cbn [append startswith] in H. cbn [compatible].
  apply andb_true_iff in H as [H1 H2]. now rewrite H1, (IH t H2).
Qed.

(** [split_aux] always returns at least one piece, which begins with [cur]. *)
Lemma split_aux_first (sep : string) (s : string) :
  forall k cur, exists p rest, split_aux sep k cur s = (cur ++ p) :: rest.
Proof.
  induction s as [|c s IH]; intros k cur.
  - exists "", []. simpl. now rewrite app_nil_r_s.
  - cbn [split_aux]. destruct k as [|k].
    + destruct (startswith sep (String c s)).
      * exists "", (split_aux sep (String.length sep - 1) "" s).
        now rewrite app_nil_r_s.
      * destruct (IH 0 (cur ++ String c "")) as (p & rest & E).
        exists (String c p), rest. rewrite E, app_assoc_s. reflexivity.
    + apply IH.
Qed.

(** Skipping the rest of a matched separator. *)
Lemma split_aux_skip (sep p s cur : string) :
  split_aux sep (String.length p) cur (p ++ s) = split_aux sep 0 cur s.
Proof.
  induction p as [|x p IH]; [destruct s; reflexivity|].
  cbn [String.length append split_aux]. exact IH.
Qed.

(** A separator at the head of the text closes the current piece. *)
Lemma split_aux_match (sep s cur : string) :
  sep <> "" ->
  split_aux sep 0 cur (sep ++ s) = cur :: split_aux sep 0 "" s.
Proof.
  intros Hne. destruct sep as [|x sep]; [congruence|].
  change (String x sep ++ s) with (String x (sep ++ s)).
  cbn [split_aux].
  change (String x (sep ++ s)) with (String x sep ++ s).
  rewrite startswith_app. cbn [String.length Nat.sub].
  rewrite Nat.sub_0_r. now rewrite split_aux_skip.
Qed.

(** A text in which no separator can begin joins the current piece. *)
Lemma split_aux_pass (sep p s cur : string) :
  no_partial sep p = true ->
  split_aux sep 0 cur (p ++ s) = split_aux sep 0 (cur ++ p) s.
Proof.
  revert cur; induction p as [|x p IH]; intros cur Hp.
  - simpl. now rewrite app_nil_r_s.
  - cbn [no_partial] in Hp. apply andb_true_iff in Hp as [Hc Hp].
    change (String x p ++ s) with (String x (p ++ s)).
    cbn [split_aux].
    destruct (startswith sep (String x (p ++ s))) eqn:E.
    + change (String x (p ++ s)) with (String x p ++ s) in E.
      apply startswith_compatible in E. rewrite E in Hc. discriminate.
    + rewrite (IH _ Hp), app_assoc_s. reflexivity.
Qed.

(** Without an occurrence of the separator the text is the only piece. *)
Lemma split_aux_absent (sep s cur : string) :
  contains sep s = false -> split_aux sep 0 cur s = [cur ++ s].
Proof.
  revert cur; induction s as [|c s IH]; intros cur H.
  - simpl. now rewrite app_nil_r_s.
  - cbn [contains] in H. apply orb_false_iff in H as [H1 H2].
    cbn [split_aux]. rewrite H1, (IH _ H2), app_assoc_s. reflexivity.
Qed.

(** With an occurrence there are at least two pieces. *)
Lemma split_aux_present (sep s cur : string) :
  sep <> "" -> contains sep s = true ->
  exists a b rest, split_aux sep 0 cur s = a :: b :: rest.
Proof.
  intros Hne. revert cur; induction s as [|c s IH]; intros cur H.
  - destruct sep; [congruence | discriminate].
  - cbn [contains] in H. cbn [split_aux].
    destruct (startswith sep (String c s)).
    + destruct (split_aux_first sep s (String.length sep - 1) "") as (p & rest & E).
      exists cur, ("" ++ p), rest. now rewrite E.
    + apply IH. exact H.
Qed.

(** [s.split(sep)[1]] exists exactly when [sep] occurs in [s]. *)
Lemma split_second (sep s : string) :
  sep <> "" ->
  (nth_error (split sep s) 1 = None <-> contains sep s = false).
Proof.
  intros Hne. unfold split. split; intros H.
  - destruct (contains sep s) eqn:E; [|reflexivity].
    destruct (split_aux_present sep s "" Hne E) as (a & b & rest & Es).
    rewrite Es in H. discriminate.
  - rewrite (split_aux_absent _ _ _ H). reflexivity.
Qed.

(** [s.split(sep)[0]] always exists. *)
Lemma split_first (sep s : string) : exists p, nth_error (split sep s) 0 = Some p.
Proof.
  unfold split. destruct (split_aux_first sep s 0 "") as (p & rest & E).
  rewrite E. exists ("" ++ p). reflexivity.
Qed.

End Texts.

(** ** Exceptions of the parsing code *)

Section Raising.

Context {St : Type}.

Lemma bind_item {A B} (l : list A) (i : nat) (x : A) (k : A -> M St B) (s : St) :
  nth_error l i = Some x -> bind (item l i) k s = k x s.
Proof. intros H. unfold bind, item. rewrite H. reflexivity. Qed.

Lemma nie_ret {A} (a : A) : no_index_error (ret a : M St A).
Proof. intros s. discriminate. Qed.

Lemma nie_modify (f : St -> St) : no_index_error (modify f).
Proof. intros s. discriminate. Qed.

Lemma nie_to_float (t : string) : no_index_error (to_float t : M St Q).
Proof. intros s. unfold to_float. destruct (PyFloat.float t); discriminate. Qed.

Lemma nie_item {A} (l : list A) (i : nat) :
  nth_error l i <> None -> no_index_error (item l i : M St A).
Proof.
  intros H s. unfold item. destruct (nth_error l i); [discriminate | congruence].
Qed.

Lemma nie_bind {A B} (m : M St A) (k : A -> M St B) :
  no_index_error m -> (forall a, no_index_error (k a)) -> no_index_error (bind m k).
Proof.
  intros Hm Hk s. unfold bind. specialize (Hm s).
  destruct (m s) as [[e|a] s']; [|apply Hk].
  cbn [fst] in *. intros E. apply Hm. congruence.
Qed.

Lemma nie_when (c : bool) (body : M St unit) :
  (c = true -> no_index_error body) -> no_index_error (when c body).
Proof. intros H. destruct c; [now apply H | apply nie_ret]. Qed.

Lemma keeps_ret {A B} (f : St -> B) (a : A) : keeps f (ret a : M St A).
Proof. intros s. reflexivity. Qed.

Lemma keeps_modify {B} (f : St -> B) (g : St -> St) :
  (forall s, f (g s) = f s) -> keeps f (modify g).
Proof. intros H s. apply H. Qed.

Lemma keeps_to_float {B} (f : St -> B) (t : string) : keeps f (to_float t : M St Q).
Proof. intros s. unfold to_float. destruct (PyFloat.float t); reflexivity. Qed.

Lemma keeps_item {A B} (f : St -> B) (l : list A) (i : nat) :
  keeps f (item l i : M St A).
Proof. intros s. unfold item. destruct (nth_error l i); reflexivity. Qed.

Lemma keeps_bind {A B C} (f : St -> C) (m : M St A) (k : A -> M St B) :
  keeps f m -> (forall a, keeps f (k a)) -> keeps f (bind m k).
Proof.
  intros Hm Hk s. unfold bind. specialize (Hm s).
  destruct (m s) as [[e|a] s']; cbn [snd] in *; [exact Hm|].
  rewrite (Hk a s'). exact Hm.
Qed.

Lemma keeps_when {B} (f : St -> B) (c : bool) (body : M St unit) :
  (c = true -> keeps f body) -> keeps f (when c body).
Proof. intros H. destruct c; [now apply H | apply keeps_ret]. Qed.

End Raising.

(** Closes a goal [no_index_error m] for a parser built from guarded
    [split(..)[1]], [split(..)[0]], [float] and assignments. *)
Ltac index_safe :=
  repeat first
    [ apply nie_ret
    | apply nie_modify
    | apply nie_to_float
    | apply nie_when; intros ?
    | apply nie_bind; [|intros ?]
    | apply nie_item;
      match goal with
      | H : PyStr.contains ?sep ?s = true |- nth_error (PyStr.split ?sep ?s) 1 <> None =>
          let E := fresh in
          intros E; apply split_second in E; [congruence | discriminate]
      | |- nth_error (PyStr.split ?sep ?s) 0 <> None =>
          let p := fresh in let E := fresh in
          destruct (split_first sep s) as [p E]; rewrite E; discriminate
      end ].

Section Reports.

(** X1: The astrocycle parser ends normally or with [ValueError]: its guards
    make every index it uses valid. *)
Theorem astro_parser_only_value_error (reasoning : string)
    (env : Astrocycle.MissionEnvironment) :
  fst (Astrocycle.parse_adjustments reasoning env) = inr tt \/
  fst (Astrocycle.parse_adjustments reasoning env) = inl ValueError.
Proof.
  assert (H : no_index_error (Astrocycle.parse_adjustments reasoning)).
  { unfold Astrocycle.parse_adjustments.
    apply nie_when; intros G. apply nie_bind.
    - apply nie_item.
      destruct (guarded_selection _ _ astro_marker_no_newline G) as (l & r & E).
      unfold Astrocycle.marker_lines. rewrite E. discriminate.
    - intros line. index_safe. }
  specialize (H env).
  destruct (fst (Astrocycle.parse_adjustments reasoning env)) as [[]|[]];
    [now right | congruence | now left].
Qed.

(** X7: The line hackathon prints from the reply is always produced: under its
    guard, [split('TREND:')[1]] exists. *)
Theorem trend_line_never_raises (reasoning : string) :
  exists text, fst (Hackathon.trend_line reasoning tt) = inr text.
Proof.
  unfold Hackathon.trend_line.
  destruct (PyStr.contains "TREND:" reasoning) eqn:G; [|eexists; reflexivity].
  destruct (split_aux_present "TREND:" reasoning "" ltac:(discriminate) G)
    as (a & b & rest & E).
  rewrite (bind_item _ 1 b) by (unfold PyStr.split; now rewrite E).
  destruct (split_first "RISK:" b) as [p Ep].
  rewrite (bind_item _ 0 p) by exact Ep.
  eexists; reflexivity.
Qed.

(** X8: The analysis printed by astrocycle shows the three fields exactly when
    the reply contains "ACCELERATION:", "INTERACTION:" and "FAILURE_CHAIN:";
    in every other case it is the first 200 characters of the reply. *)
Theorem analysis_report_cases (reasoning : string) :
  (PyStr.contains "ACCELERATION:" reasoning = true /\
   PyStr.contains "INTERACTION:" reasoning = true /\
   PyStr.contains "FAILURE_CHAIN:" reasoning = true ->
   exists accel interaction failure,
     Astrocycle.analysis_report reasoning = Astrocycle.Fields accel interaction failure)
  /\
  (PyStr.contains "ACCELERATION:" reasoning = false \/
   PyStr.contains "INTERACTION:" reasoning = false \/
   PyStr.contains "FAILURE_CHAIN:" reasoning = false ->
   Astrocycle.analysis_report reasoning
   = Astrocycle.Excerpt (PyStr.upto 200 reasoning)).
Proof.
  unfold Astrocycle.analysis_report, Astrocycle.analysis_fields.
  split.
  - intros (Ha & Hi & Hf). rewrite Ha.
    destruct (split_aux_present "ACCELERATION:" reasoning "" ltac:(discriminate) Ha)
      as (a & a1 & ra & Ea).
    destruct (split_aux_present "INTERACTION:" reasoning "" ltac:(discriminate) Hi)
      as (i & i1 & ri & Ei).
    destruct (split_aux_present "FAILURE_CHAIN:" reasoning "" ltac:(discriminate) Hf)
      as (f & f1 & rf & Ef).
    destruct (split_first "INTERACTION:" a1) as [a0 Ea0].
    destruct (split_first "FAILURE_CHAIN:" i1) as [i0 Ei0].
    destruct (split_first "RECOMMEND:" f1) as [f0 Ef0].
    rewrite (bind_item _ 1 a1) by (unfold PyStr.split; now rewrite Ea).
    rewrite (bind_item _ 0 a0) by exact Ea0.
    rewrite (bind_item _ 1 i1) by (unfold PyStr.split; now rewrite Ei).
    rewrite (bind_item _ 0 i0) by exact Ei0.
    rewrite (bind_item _ 1 f1) by (unfold PyStr.split; now rewrite Ef).
    rewrite (bind_item _ 0 f0) by exact Ef0.
    cbn [ret fst]. eauto.
  - intros H.
    destruct (PyStr.contains "ACCELERATION:" reasoning) eqn:Ha; [|reflexivity].
    destruct (split_aux_present "ACCELERATION:" reasoning "" ltac:(discriminate) Ha)
      as (a & a1 & ra & Ea).
    destruct (split_first "INTERACTION:" a1) as [a0 Ea0].
    rewrite (bind_item _ 1 a1) by (unfold PyStr.split; now rewrite Ea).
    rewrite (bind_item _ 0 a0) by exact Ea0.
    destruct (PyStr.contains "INTERACTION:" reasoning) eqn:Hi.
    + destruct (split_aux_present "INTERACTION:" reasoning "" ltac:(discriminate) Hi)
        as (i & i1 & ri & Ei).
      destruct (split_first "FAILURE_CHAIN:" i1) as [i0 Ei0].
      rewrite (bind_item _ 1 i1) by (unfold PyStr.split; now rewrite Ei).
      rewrite (bind_item _ 0 i0) by exact Ei0.
      destruct H as [H | [H | H]]; try discriminate.
      apply (split_second "FAILURE_CHAIN:") in H; [|discriminate].
      unfold bind at 1, item at 1. rewrite H. reflexivity.
    + apply (split_second "INTERACTION:") in Hi; [|discriminate].
      unfold bind at 1, item at 1. rewrite Hi. reflexivity.
Qed.

End Reports.

(** ** Lines of a reply *)

Section MoreLines.

Import PyStr.

Lemma startswith_of_first_line (p s : string) :
  startswith p (hd EmptyString (split_lines s)) = true -> startswith p s = true.
Proof.
  revert s; induction p as [|a p IH]; intros s H; [reflexivity|].
  destruct s as [|b s]; [discriminate|].
  cbn [split_lines] in H. destruct (Ascii.eqb b LF); [discriminate|].
  specialize (IH s).
  destruct (split_lines s) as [|l ls] eqn:E; [now destruct (split_lines_nonempty s)|].
  cbn [hd startswith] in *. apply andb_true_iff in H as [H1 H2].
  now rewrite H1, (IH H2).
Qed.

(** What occurs in a line of the text occurs in the text. *)
Lemma line_contains (needle s : string) :
  forall line, In line (split_lines s) ->
    contains needle line = true -> contains needle s = true.
Proof.
  induction s as [|c s IH]; intros line Hin Hc.
  - destruct Hin as [<-|[]]. exact Hc.
  - cbn [split_lines] in Hin. cbn [contains].
    destruct (Ascii.eqb c LF).
    + destruct Hin as [<-|Hin].
      * destruct needle; [reflexivity | discriminate].
      * rewrite (IH line Hin Hc). apply orb_true_r.
    + pose proof (fun p => startswith_of_first_line p s) as Hfirst.
      destruct (split_lines s) as [|l ls] eqn:E; [now destruct (split_lines_nonempty s)|].
      cbn [hd] in Hfirst.
      destruct Hin as [<-|Hin].
      * cbn [contains] in Hc. apply orb_true_iff in Hc as [Hp|Hl].
        -- destruct needle as [|a p]; [reflexivity|].
           cbn [startswith] in Hp |- *. apply andb_true_iff in Hp as [H1 H2].
           now rewrite H1, (Hfirst p H2).
        -- rewrite (IH l (or_introl eq_refl) Hl). apply orb_true_r.
      * rewrite (IH line (or_intror Hin) Hc). apply orb_true_r.
Qed.

(** A line holds no line feed. *)
Lemma line_no_newline (s : string) :
  forall line, In line (split_lines s) -> mem_char LF line = false.
Proof.
  induction s as [|c s IH]; intros line Hin.
  - destruct Hin as [<-|[]]. reflexivity.
  - cbn [split_lines] in Hin.
    destruct (Ascii.eqb c LF) eqn:Ec.
    + destruct Hin as [<-|Hin]; [reflexivity | now apply IH].
    + destruct (split_lines s) as [|l ls] eqn:E; [now destruct (split_lines_nonempty s)|].
      destruct Hin as [<-|Hin].
      * cbn [mem_char]. rewrite (Ascii.eqb_sym LF c), Ec.
        apply (IH l). now left.
      * apply IH. now right.
Qed.

Lemma no_newline_absent (s : string) :
  mem_char LF s = false -> contains newline s = false.
Proof.
  induction s as [|c s IH]; intros H; [reflexivity|].
  cbn [mem_char] in H. apply orb_false_iff in H as [H1 H2].
  cbn [contains]. rewrite (IH H2). unfold newline. cbn [startswith].
  now rewrite H1.
Qed.

(** A text without line feed is its own only line. *)
Lemma split_single_line (s : string) :
  mem_char LF s = false -> split newline s = [s].
Proof.
  intros H. unfold split. now rewrite (split_aux_absent _ _ _ (no_newline_absent s H)).
Qed.

(** The first line selected in a reply, on its own, selects itself. *)
Lemma first_marker_line (marker reasoning line : string) (rest : list string) :
  filter (contains marker) (split newline reasoning) = line :: rest ->
  contains marker reasoning = true /\
  In line (split newline reasoning) /\
  contains marker line = true /\
  filter (contains marker) (split newline line) = [line].
Proof.
  intros E.
  assert (Hin : In line (filter (contains marker) (split newline reasoning)))
    by (rewrite E; now left).
  apply filter_In in Hin as [Hin Hc].
  repeat split; try assumption.
  - rewrite split_lines_eq in Hin. exact (line_contains marker reasoning line Hin Hc).
  - rewrite split_single_line.
    + cbn [filter]. now rewrite Hc.
    + rewrite split_lines_eq in Hin. exact (line_no_newline reasoning line Hin).
Qed.

End MoreLines.

(** ** What the parsers read and what they leave alone *)

(** Closes a goal [keeps f m] for a parser whose assignments do not touch
    [f]; a guard known to be false closes its branch. *)
Ltac frame :=
  repeat first
    [ apply keeps_ret
    | apply keeps_to_float
    | apply keeps_item
    | apply keeps_modify; intros ?; reflexivity
    | apply keeps_when; intros ?; try congruence
    | apply keeps_bind; [|intros ?] ].

Section Frames.

(** X3: Only the first line that contains the marker is read: the parser does
    to the environment what it does when given that line alone.  Both
    parsers. *)
Theorem only_first_marker_line_is_read :
  (forall (reasoning line : string) (rest : list string)
          (env : Astrocycle.MissionEnvironment),
     Astrocycle.marker_lines reasoning = line :: rest ->
     Astrocycle.apply_adjustments reasoning env = Astrocycle.apply_adjustments line env)
  /\
  (forall (reasoning line : string) (rest : list string)
          (env : Hackathon.SpaceEnvironment),
     Hackathon.marker_lines reasoning = line :: rest ->
     Hackathon.apply_adjustments reasoning env = Hackathon.apply_adjustments line env).
Proof.
  split; intros reasoning line rest env E.
  - destruct (first_marker_line _ _ _ _ E) as (G & _ & Gl & El).
    unfold Astrocycle.apply_adjustments, try_except_pass, Astrocycle.parse_adjustments.
    rewrite G, Gl. cbn [when].
    rewrite (bind_item _ 0 line) by (rewrite E; reflexivity).
    rewrite (bind_item _ 0 line)
      by (unfold Astrocycle.marker_lines; rewrite El; reflexivity).
    reflexivity.
  - destruct (first_marker_line _ _ _ _ E) as (G & _ & Gl & El).
    unfold Hackathon.apply_adjustments, try_except_pass, Hackathon.parse_adjustments.
    rewrite G, Gl. cbn [when].
    rewrite (bind_item _ 0 line) by (rewrite E; reflexivity).
    rewrite (bind_item _ 0 line)
      by (unfold Hackathon.marker_lines; rewrite El; reflexivity).
    reflexivity.
Qed.

Lemma only_first_marker_line_is_read_witness :
  Astrocycle.apply_adjustments
    ("RECOMMEND: voltage=0.5" ++ PyStr.newline ++ "RECOMMEND: voltage=3, ion_flux=2")
    Astrocycle.new_environment
  = Astrocycle.apply_adjustments "RECOMMEND: voltage=0.5" Astrocycle.new_environment
  /\
  Hackathon.apply_adjustments
    ("RISK: high" ++ PyStr.newline ++ "ADJUST: temp=0.5" ++ PyStr.newline ++ "ADJUST: temp=2")
    Hackathon.new_environment
  = Hackathon.apply_adjustments "ADJUST: temp=0.5" Hackathon.new_environment.
Proof.
  destruct only_first_marker_line_is_read as [Ha Hh].
  split.
  - apply (Ha _ _ ["RECOMMEND: voltage=3, ion_flux=2"]). reflexivity.
  - apply (Hh _ _ ["ADJUST: temp=2"]). reflexivity.
Defined.

(** The field names of a line of the reply occur in the reply. *)
Lemma absent_in_reply_absent_in_line (name marker reasoning line : string)
    (rest : list string) :
  PyStr.contains name reasoning = false ->
  filter (PyStr.contains marker) (PyStr.split PyStr.newline reasoning) = line :: rest ->
  PyStr.contains name line = false.
Proof.
  intros Hn E.
  destruct (first_marker_line _ _ _ _ E) as (_ & Hin & _ & _).
  rewrite split_lines_eq in Hin.
  destruct (PyStr.contains name line) eqn:C; [|reflexivity].
  rewrite (line_contains name reasoning line Hin C) in Hn. discriminate.
Qed.

Lemma astro_frame (reasoning : string) (env : Astrocycle.MissionEnvironment) :
  let env' := Astrocycle.apply_adjustments reasoning env in
  Astrocycle.mission_hours env' = Astrocycle.mission_hours env /\
  (PyStr.contains "ion_flux=" reasoning = false ->
   Astrocycle.ion_flux env' = Astrocycle.ion_flux env) /\
  (PyStr.contains "voltage=" reasoning = false ->
   Astrocycle.voltage env' = Astrocycle.voltage env) /\
  (PyStr.contains "thermal=" reasoning = false ->
   Astrocycle.thermal_cycling env' = Astrocycle.thermal_cycling env).
Proof.
  cbv zeta. unfold Astrocycle.apply_adjustments, try_except_pass.
  split; [|repeat split; intros Hn].
  - assert (K : keeps Astrocycle.mission_hours (Astrocycle.parse_adjustments reasoning))
      by (unfold Astrocycle.parse_adjustments; frame).
    apply K.
  - unfold Astrocycle.parse_adjustments.
    destruct (PyStr.contains Astrocycle.marker reasoning) eqn:G; [|reflexivity].
    destruct (guarded_selection _ _ astro_marker_no_newline G) as (line & rest & E).
    pose proof (absent_in_reply_absent_in_line _ _ _ _ _ Hn E) as Hl.
    cbn [when]. rewrite (bind_item _ 0 line) by (unfold Astrocycle.marker_lines; now rewrite E).
    match goal with
    | |- ?f (snd (?m env)) = _ => assert (K : keeps f m) by frame
    end.
    apply K.
  - unfold Astrocycle.parse_adjustments.
    destruct (PyStr.contains Astrocycle.marker reasoning) eqn:G; [|reflexivity].
    destruct (guarded_selection _ _ astro_marker_no_newline G) as (line & rest & E).
    pose proof (absent_in_reply_absent_in_line _ _ _ _ _ Hn E) as Hl.
    cbn [when]. rewrite (bind_item _ 0 line) by (unfold Astrocycle.marker_lines; now rewrite E).
    match goal with
    | |- ?f (snd (?m env)) = _ => assert (K : keeps f m) by frame
    end.
    apply K.
  - unfold Astrocycle.parse_adjustments.
    destruct (PyStr.contains Astrocycle.marker reasoning) eqn:G; [|reflexivity].
    destruct (guarded_selection _ _ astro_marker_no_newline G) as (line & rest & E).
    pose proof (absent_in_reply_absent_in_line _ _ _ _ _ Hn E) as Hl.
    cbn [when]. rewrite (bind_item _ 0 line) by (unfold Astrocycle.marker_lines; now rewrite E).
    match goal with
    | |- ?f (snd (?m env)) = _ => assert (K : keeps f m) by frame
    end.
    apply K.
Qed.

Lemma hack_frame (reasoning : string) (env : Hackathon.SpaceEnvironment) :
  let env' := Hackathon.apply_adjustments reasoning env in
  (PyStr.contains "radiation=" reasoning = false ->
   Hackathon.radiation_level env' = Hackathon.radiation_level env) /\
  (PyStr.contains "temp=" reasoning = false ->
   Hackathon.temp_cycling env' = Hackathon.temp_cycling env).
Proof.
  cbv zeta. unfold Hackathon.apply_adjustments, try_except_pass.
  split; intros Hn.
  - unfold Hackathon.parse_adjustments.
    destruct (PyStr.contains Hackathon.marker reasoning) eqn:G; [|reflexivity].
    destruct (guarded_selection _ _ hack_marker_no_newline G) as (line & rest & E).
    pose proof (absent_in_reply_absent_in_line _ _ _ _ _ Hn E) as Hl.
    cbn [when]. rewrite (bind_item _ 0 line) by (unfold Hackathon.marker_lines; now rewrite E).
    match goal with
    | |- ?f (snd (?m env)) = _ => assert (K : keeps f m) by frame
    end.
    apply K.
  - unfold Hackathon.parse_adjustments.
    destruct (PyStr.contains Hackathon.marker reasoning) eqn:G; [|reflexivity].
    destruct (guarded_selection _ _ hack_marker_no_newline G) as (line & rest & E).
    pose proof (absent_in_reply_absent_in_line _ _ _ _ _ Hn E) as Hl.
    cbn [when]. rewrite (bind_item _ 0 line) by (unfold Hackathon.marker_lines; now rewrite E).
    match goal with
    | |- ?f (snd (?m env)) = _ => assert (K : keeps f m) by frame
    end.
    apply K.
Qed.

(** X4: Neither parser changes a multiplier whose "name=" does not occur in the
    reply, whatever else the reply holds and whether or not a conversion
    raises; and the astrocycle parser never changes [mission_hours]. *)
Theorem unnamed_fields_unchanged :
  (forall (reasoning : string) (env : Astrocycle.MissionEnvironment),
     let env' := Astrocycle.apply_adjustments reasoning env in
     Astrocycle.mission_hours env' = Astrocycle.mission_hours env /\
     (PyStr.contains "ion_flux=" reasoning = false ->
      Astrocycle.ion_flux env' = Astrocycle.ion_flux env) /\
     (PyStr.contains "voltage=" reasoning = false ->
      Astrocycle.voltage env' = Astrocycle.voltage env) /\
     (PyStr.contains "thermal=" reasoning = false ->
      Astrocycle.thermal_cycling env' = Astrocycle.thermal_cycling env))
  /\
  (forall (reasoning : string) (env : Hackathon.SpaceEnvironment),
     let env' := Hackathon.apply_adjustments reasoning env in
     (PyStr.contains "radiation=" reasoning = false ->
      Hackathon.radiation_level env' = Hackathon.radiation_level env) /\
     (PyStr.contains "temp=" reasoning = false ->
      Hackathon.temp_cycling env' = Hackathon.temp_cycling env)).
Proof. split; [exact astro_frame | exact hack_frame]. Qed.

Lemma unnamed_fields_unchanged_witness :
  (let env' := Astrocycle.apply_adjustments "RECOMMEND: hold every parameter"
                 Astrocycle.new_environment in
   Astrocycle.ion_flux env' = Astrocycle.ion_flux Astrocycle.new_environment /\
   Astrocycle.voltage env' = Astrocycle.voltage Astrocycle.new_environment /\
   Astrocycle.thermal_cycling env' = Astrocycle.thermal_cycling Astrocycle.new_environment)
  /\
  (let env' := Hackathon.apply_adjustments "ADJUST: none" Hackathon.new_environment in
   Hackathon.radiation_level env' = Hackathon.radiation_level Hackathon.new_environment /\
   Hackathon.temp_cycling env' = Hackathon.temp_cycling Hackathon.new_environment).
Proof.
  destruct unnamed_fields_unchanged as [Ha Hh].
  split.
  - destruct (Ha "RECOMMEND: hold every parameter" Astrocycle.new_environment)
      as (_ & H1 & H2 & H3).
    exact (conj (H1 eq_refl) (conj (H2 eq_refl) (H3 eq_refl))).
  - destruct (Hh "ADJUST: none" Hackathon.new_environment) as (H1 & H2).
    exact (conj (H1 eq_refl) (H2 eq_refl)).
Defined.

End Frames.

(** ** Replies that follow the template *)

Section Template.

Import PyStr.

(** What a character of a decimal literal is not. *)
Lemma numeric_char_is_plain (c : ascii) :
  numeric_char c = true ->
  isspace c = false /\ Ascii.eqb LF c = false /\ Ascii.eqb "," c = false /\
  Ascii.eqb "i" c = false /\ Ascii.eqb "v" c = false /\ Ascii.eqb "t" c = false /\
  Ascii.eqb "r" c = false.
Proof.
  destruct c as [[] [] [] [] [] [] [] []]; vm_compute; intros H;
    first [discriminate H | repeat split].
Qed.

Lemma all_chars_impl (f g : ascii -> bool) (s : string) :
  (forall c, f c = true -> g c = true) -> all_chars f s = true -> all_chars g s = true.
Proof.
  intros Hfg. induction s as [|c s IH]; [reflexivity|].
  cbn [all_chars]. intros H. apply andb_true_iff in H as [H1 H2].
  now rewrite (Hfg c H1), (IH H2).
Qed.

(** No separator that begins with [f] can begin inside a text without [f]. *)
Lemma no_partial_without_first (f : ascii) (sep' s : string) :
  all_chars (fun c => negb (Ascii.eqb f c)) s = true ->
  no_partial (String f sep') s = true.
Proof.
  induction s as [|c s IH]; [reflexivity|].
  cbn [all_chars no_partial compatible]. intros H.
  apply andb_true_iff in H as [H1 H2].
  apply negb_true_iff in H1. now rewrite H1, (IH H2).
Qed.

Lemma mem_char_without (f : ascii) (s : string) :
  all_chars (fun c => negb (Ascii.eqb f c)) s = true -> mem_char f s = false.
Proof.
  induction s as [|c s IH]; [reflexivity|].
  cbn [all_chars mem_char]. intros H.
  apply andb_true_iff in H as [H1 H2].
  apply negb_true_iff in H1. now rewrite H1, (IH H2).
Qed.

(** [strip] changes nothing in a text without white space. *)
Lemma strip_plain (s : string) :
  all_chars (fun c => negb (isspace c)) s = true -> strip s = s.
Proof.
  intros H. unfold strip.
  assert (Hl : lstrip s = s).
  { destruct s as [|c s]; [reflexivity|].
    cbn [all_chars] in H. apply andb_true_iff in H as [H1 _].
    apply negb_true_iff in H1. cbn [lstrip]. now rewrite H1. }
  rewrite Hl. induction s as [|c s IH]; [reflexivity|].
  cbn [all_chars] in H. apply andb_true_iff in H as [H1 H2].
  apply negb_true_iff in H1.
  assert (Hs : lstrip s = s).
  { destruct s as [|d s]; [reflexivity|].
    cbn [all_chars] in H2. apply andb_true_iff in H2 as [H3 _].
    apply negb_true_iff in H3. cbn [lstrip]. now rewrite H3. }
  cbn [rstrip]. rewrite (IH H2 Hs), H1. destruct s; reflexivity.
Qed.

(** In [s.split()], a text without white space joins the current word. *)
Lemma split_ws_pass (b s cur : string) :
  all_chars (fun c => negb (isspace c)) b = true ->
  split_ws_aux cur (b ++ s) = split_ws_aux (cur ++ b) s.
Proof.
  revert cur; induction b as [|c b IH]; intros cur H.
  - simpl. now rewrite app_nil_r_s.
  - cbn [all_chars] in H. apply andb_true_iff in H as [H1 H2].
    apply negb_true_iff in H1.
    change (String c b ++ s) with (String c (b ++ s)).
    cbn [split_ws_aux]. rewrite H1, (IH _ H2), app_assoc_s. reflexivity.
Qed.

(** The first word of a text that begins with a word [b] and then is empty
    or goes on with white space. *)
Lemma split_ws_first_word (b tail : string) :
  b <> "" ->
  all_chars (fun c => negb (isspace c)) b = true ->
  match tail with EmptyString => True | String w _ => isspace w = true end ->
  nth_error (split_ws (b ++ tail)) 0 = Some b.
Proof.
  intros Hne Hb Ht. unfold split_ws. rewrite (split_ws_pass _ _ _ Hb).
  cbn [append]. destruct b as [|c b]; [congruence|].
  destruct tail as [|w tail]; [reflexivity|].
  cbn [split_ws_aux]. rewrite Ht. reflexivity.
Qed.


End Template.

Section TemplateReplies.

Import PyStr.

Local Open Scope Q_scope.

Lemma compatible_app (p t y : string) :
  compatible p (t ++ y) = true -> compatible p t = true.
Proof.
  revert t; induction p as [|a p IH]; intros t H; [reflexivity|].
  destruct t as [|b t]; [reflexivity|].
  cbn [append compatible] in *. apply andb_true_iff in H as [H1 H2].
  now rewrite H1, (IH t H2).
Qed.

Lemma no_partial_app (sep x y : string) :
  no_partial sep x = true -> no_partial sep y = true ->
  no_partial sep (x ++ y) = true.
Proof.
  intros Hx Hy. induction x as [|c x IH]; [exact Hy|].
  cbn [no_partial] in Hx. apply andb_true_iff in Hx as [H1 H2].
  change (String c x ++ y) with (String c (x ++ y)).
  cbn [no_partial]. rewrite (IH H2), andb_true_r.
  apply negb_true_iff in H1. apply negb_true_iff.
  destruct (compatible sep (String c (x ++ y))) eqn:E; [|reflexivity].
  change (String c (x ++ y)) with (String c x ++ y) in E.
  apply compatible_app in E. congruence.
Qed.

(** The pieces of a text in which the separator first occurs after [pre]. *)
Lemma split_at (sep pre s : string) :
  sep <> "" -> no_partial sep pre = true ->
  split sep (pre ++ sep ++ s) = pre :: split_aux sep 0 "" s.
Proof.
  intros Hne Hpre. unfold split.
  rewrite (split_aux_pass _ _ _ _ Hpre), (split_aux_match _ _ _ Hne). reflexivity.
Qed.

(** The value that stands between a "name=" and the next comma. *)
Lemma token_before_comma (f : ascii) (sep' a rest : string) :
  Ascii.eqb f "," = false ->
  all_chars (fun c => negb (Ascii.eqb f c)) a = true ->
  all_chars (fun c => negb (Ascii.eqb "," c)) a = true ->
  exists after,
    nth_error (split_aux (String f sep') 0 "" (a ++ "," ++ rest)) 0 = Some after /\
    nth_error (split "," after) 0 = Some a.
Proof.
  intros Hf Ha Hc.
  rewrite (split_aux_pass _ _ _ _ (no_partial_without_first f sep' a Ha)).
  change ("," ++ rest) with (String "," rest).
  cbn [split_aux startswith]. rewrite Hf. cbn [andb].
  destruct (split_aux_first (String f sep') rest 0 (("" ++ a) ++ ",")) as (p & r & E).
  rewrite E. eexists. split; [reflexivity|].
  cbn [append]. rewrite app_assoc_s. unfold split.
  rewrite (split_aux_pass _ _ _ _ (no_partial_without_first "," "" a Hc)).
  change ("," ++ p) with ("," ++ ("" ++ p)).
  rewrite split_aux_match by discriminate. reflexivity.
Qed.

Lemma numeric_facts (a : string) :
  all_chars numeric_char a = true ->
  all_chars (fun c => negb (isspace c)) a = true /\
  all_chars (fun c => negb (Ascii.eqb LF c)) a = true /\
  all_chars (fun c => negb (Ascii.eqb "," c)) a = true /\
  all_chars (fun c => negb (Ascii.eqb "i" c)) a = true /\
  all_chars (fun c => negb (Ascii.eqb "v" c)) a = true /\
  all_chars (fun c => negb (Ascii.eqb "t" c)) a = true /\
  all_chars (fun c => negb (Ascii.eqb "r" c)) a = true.
Proof.
  intros H.
  repeat split;
    (apply (all_chars_impl numeric_char); [|exact H]);
    intros c Hc; destruct (numeric_char_is_plain c Hc) as (H1 & H2 & H3 & H4 & H5 & H6 & H7);
    apply negb_true_iff; assumption.
Qed.

Lemma bind_to_float {St B} (t : string) (x : Q) (k : Q -> M St B) (s : St) :
  PyFloat.float t = Some x -> bind (to_float t) k s = k x s.
Proof. intros H. unfold bind, to_float. rewrite H. reflexivity. Qed.

Lemma bind_ok {St A B} (m : M St A) (k : A -> M St B) (s s' : St) (a : A) :
  m s = (inr a, s') -> bind m k s = k a s'.
Proof. intros H. unfold bind. rewrite H. reflexivity. Qed.

Lemma contains_of_second (sep s : string) (x : string) :
  sep <> "" -> nth_error (split sep s) 1 = Some x -> contains sep s = true.
Proof.
  intros Hne H. destruct (contains sep s) eqn:E; [reflexivity|].
  apply (split_second sep s Hne) in E. congruence.
Qed.

End TemplateReplies.

Section AstroTemplate.

Import PyStr.

Local Open Scope Q_scope.

Variables a b c : string.
Hypothesis Ha : all_chars numeric_char a = true.
Hypothesis Hb : all_chars numeric_char b = true.
Hypothesis Hc : all_chars numeric_char c = true.

Lemma astro_template_single_line :
  contains Astrocycle.marker (astro_template a b c) = true /\
  Astrocycle.marker_lines (astro_template a b c) = [astro_template a b c].
Proof.
  assert (G : contains Astrocycle.marker (astro_template a b c) = true) by reflexivity.
  split; [exact G|].
  unfold Astrocycle.marker_lines. rewrite split_single_line.
  - cbn [filter]. now rewrite G.
  - destruct (numeric_facts a Ha) as (_ & La & _).
    destruct (numeric_facts b Hb) as (_ & Lb & _).
    destruct (numeric_facts c Hc) as (_ & Lc & _).
    unfold astro_template. rewrite !mem_char_app.
    rewrite (mem_char_without _ _ La), (mem_char_without _ _ Lb),
      (mem_char_without _ _ Lc).
    reflexivity.
Qed.

Lemma astro_template_flux :
  exists after,
    nth_error (split "ion_flux=" (astro_template a b c)) 1 = Some after /\
    nth_error (split "," after) 0 = Some a.
Proof.
  destruct (numeric_facts a Ha) as (_ & _ & Ca & Ia & _).
  change (astro_template a b c)
    with ("RECOMMEND: " ++ "ion_flux=" ++ (a ++ "," ++ (" voltage=" ++ b ++ ", thermal=" ++ c))).
  rewrite split_at by (discriminate || reflexivity).
  cbn [nth_error].
  apply (token_before_comma "i" "on_flux="); [reflexivity | exact Ia | exact Ca].
Qed.

Lemma astro_template_voltage :
  exists after,
    nth_error (split "voltage=" (astro_template a b c)) 1 = Some after /\
    nth_error (split "," after) 0 = Some b.
Proof.
  destruct (numeric_facts a Ha) as (_ & _ & _ & _ & Va & _).
  destruct (numeric_facts b Hb) as (_ & _ & Cb & _ & Vb & _).
  replace (astro_template a b c)
    with (("RECOMMEND: ion_flux=" ++ (a ++ ", ")) ++ "voltage="
          ++ (b ++ "," ++ (" thermal=" ++ c)))
    by (unfold astro_template; rewrite !app_assoc_s; reflexivity).
  rewrite split_at.
  - cbn [nth_error].
    apply (token_before_comma "v" "oltage="); [reflexivity | exact Vb | exact Cb].
  - discriminate.
  - apply no_partial_app; [reflexivity|].
    apply no_partial_app; [|reflexivity].
    apply no_partial_without_first, Va.
Qed.

Lemma astro_template_thermal :
  nth_error (split "thermal=" (astro_template a b c)) 1 = Some c.
Proof.
  destruct (numeric_facts a Ha) as (_ & _ & _ & _ & _ & Ta & _).
  destruct (numeric_facts b Hb) as (_ & _ & _ & _ & _ & Tb & _).
  destruct (numeric_facts c Hc) as (_ & _ & _ & _ & _ & Tc & _).
  replace (astro_template a b c)
    with (("RECOMMEND: ion_flux=" ++ (a ++ (", voltage=" ++ (b ++ ", "))))
          ++ "thermal=" ++ (c ++ ""))
    by (unfold astro_template; rewrite !app_assoc_s, app_nil_r_s; reflexivity).
  rewrite split_at.
  - cbn [nth_error].
    rewrite (split_aux_pass _ _ _ _ (no_partial_without_first "t" "hermal=" c Tc)).
    reflexivity.
  - discriminate.
  - apply no_partial_app; [reflexivity|].
    apply no_partial_app; [apply no_partial_without_first, Ta|].
    apply no_partial_app; [reflexivity|].
    apply no_partial_app; [apply no_partial_without_first, Tb | reflexivity].
Qed.

(** X5: On a reply line that follows the template, with three decimal literals
    in the places of the values, the astrocycle parser multiplies each
    multiplier by the value given for it. *)
Theorem astro_template_applies_values (x y z : Q)
    (env : Astrocycle.MissionEnvironment) :
  PyFloat.float a = Some x ->
  PyFloat.float b = Some y ->
  PyFloat.float c = Some z ->
  Astrocycle.apply_adjustments (astro_template a b c) env =
  {| Astrocycle.ion_flux := Astrocycle.ion_flux env *! x;
     Astrocycle.voltage := Astrocycle.voltage env *! y;
     Astrocycle.thermal_cycling := Astrocycle.thermal_cycling env *! z;
     Astrocycle.mission_hours := Astrocycle.mission_hours env |}.
Proof.
  intros Hx Hy Hz.
  destruct astro_template_single_line as [G E].
  destruct astro_template_flux as (fa & F1 & F0).
  destruct astro_template_voltage as (va & V1 & V0).
  pose proof astro_template_thermal as T1.
  destruct (numeric_facts a Ha) as (Sa & _).
  destruct (numeric_facts b Hb) as (Sb & _).
  destruct (numeric_facts c Hc) as (Sc & _).
  unfold Astrocycle.apply_adjustments, try_except_pass, Astrocycle.parse_adjustments.
  rewrite G. cbn [when].
  rewrite (bind_item _ 0 (astro_template a b c)) by (rewrite E; reflexivity).
  rewrite (contains_of_second "ion_flux=" _ _ ltac:(discriminate) F1).
  rewrite (contains_of_second "voltage=" _ _ ltac:(discriminate) V1).
  rewrite (contains_of_second "thermal=" _ _ ltac:(discriminate) T1).
  cbn [when].
  erewrite bind_ok.
  2:{ rewrite (bind_item _ 1 fa) by exact F1.
      rewrite (bind_item _ 0 a) by exact F0.
      rewrite (strip_plain a Sa).
      rewrite (bind_to_float a x) by exact Hx.
      reflexivity. }
  erewrite bind_ok.
  2:{ rewrite (bind_item _ 1 va) by exact V1.
      rewrite (bind_item _ 0 b) by exact V0.
      rewrite (strip_plain b Sb).
      rewrite (bind_to_float b y) by exact Hy.
      reflexivity. }
  rewrite (bind_item _ 1 c) by exact T1.
  rewrite (strip_plain c Sc).
  rewrite (bind_to_float c z) by exact Hz.
  destruct env; reflexivity.
Qed.

End AstroTemplate.

Lemma astro_template_applies_values_witness :
  Astrocycle.apply_adjustments (astro_template "0.75" "1.25" "1e-1")
    Astrocycle.new_environment =
  {| Astrocycle.ion_flux := Astrocycle.ion_flux Astrocycle.new_environment *! (3 # 4);
     Astrocycle.voltage := Astrocycle.voltage Astrocycle.new_environment *! (5 # 4);
     Astrocycle.thermal_cycling :=
       Astrocycle.thermal_cycling Astrocycle.new_environment *! (1 # 10);
     Astrocycle.mission_hours := Astrocycle.mission_hours Astrocycle.new_environment |}.
Proof.
  apply (astro_template_applies_values "0.75" "1.25" "1e-1"); reflexivity.
Defined.

Section HackTemplate.

Import PyStr.

Local Open Scope Q_scope.

Variables a b tail : string.
Hypothesis Ha : all_chars numeric_char a = true.
Hypothesis Hb : all_chars numeric_char b = true.
Hypothesis Hb_word : b <> "".
Hypothesis Htail :
  match tail with EmptyString => True | String w _ => isspace w = true end.
Hypothesis Hline : mem_char LF tail = false.

Lemma hack_template_single_line :
  contains Hackathon.marker (hack_template a b tail) = true /\
  Hackathon.marker_lines (hack_template a b tail) = [hack_template a b tail].
Proof.
  assert (G : contains Hackathon.marker (hack_template a b tail) = true) by reflexivity.
  split; [exact G|].
  unfold Hackathon.marker_lines. rewrite split_single_line.
  - cbn [filter]. now rewrite G.
  - destruct (numeric_facts a Ha) as (_ & La & _).
    destruct (numeric_facts b Hb) as (_ & Lb & _).
    unfold hack_template. rewrite !mem_char_app.
    rewrite (mem_char_without _ _ La), (mem_char_without _ _ Lb), Hline.
    reflexivity.
Qed.

Lemma hack_template_radiation :
  exists after,
    nth_error (split "radiation=" (hack_template a b tail)) 1 = Some after /\
    nth_error (split "," after) 0 = Some a.
Proof.
  destruct (numeric_facts a Ha) as (_ & _ & Ca & _ & _ & _ & Ra).
  change (hack_template a b tail)
    with ("ADJUST: " ++ "radiation=" ++ (a ++ "," ++ (" temp=" ++ b ++ tail))).
  rewrite split_at by (discriminate || reflexivity).
  cbn [nth_error].
  apply (token_before_comma "r" "adiation="); [reflexivity | exact Ra | exact Ca].
Qed.

Lemma hack_template_temp :
  exists after,
    nth_error (split "temp=" (hack_template a b tail)) 1 = Some after /\
    nth_error (split_ws after) 0 = Some b.
Proof.
  destruct (numeric_facts a Ha) as (_ & _ & _ & _ & _ & Ta & _).
  destruct (numeric_facts b Hb) as (Sb & _ & _ & _ & _ & Tb & _).
  replace (hack_template a b tail)
    with (("ADJUST: radiation=" ++ (a ++ ", ")) ++ "temp=" ++ (b ++ tail))
    by (unfold hack_template; rewrite !app_assoc_s; reflexivity).
  rewrite split_at.
  - cbn [nth_error].
    rewrite (split_aux_pass _ _ _ _ (no_partial_without_first "t" "emp=" b Tb)).
    cbn [append]. destruct tail as [|w t].
    + exists b. split; [reflexivity|].
      rewrite <- (app_nil_r_s b) at 1.
      now apply split_ws_first_word.
    + cbn [split_aux startswith].
      assert (Hw : Ascii.eqb "t" w = false).
      { destruct (Ascii.eqb "t" w) eqn:E; [|reflexivity].
        apply Ascii.eqb_eq in E. subst w. discriminate Htail. }
      rewrite Hw. cbn [andb].
      destruct (split_aux_first "temp=" t 0 (b ++ String w "")) as (p & r & E).
      rewrite E. eexists. split; [reflexivity|].
      rewrite app_assoc_s. cbn [append].
      now apply split_ws_first_word.
  - discriminate.
  - apply no_partial_app; [reflexivity|].
    apply no_partial_app; [|reflexivity].
    apply no_partial_without_first, Ta.
Qed.

(** X6: On a reply line that follows the hackathon template, with two decimal
    literals in the places of the values, the parser multiplies each
    multiplier by its value, whatever commentary follows the last value
    after white space on that line. *)
Theorem hack_template_applies_values (x y : Q) (env : Hackathon.SpaceEnvironment) :
  PyFloat.float a = Some x ->
  PyFloat.float b = Some y ->
  Hackathon.apply_adjustments (hack_template a b tail) env =
  {| Hackathon.radiation_level := Hackathon.radiation_level env *! x;
     Hackathon.temp_cycling := Hackathon.temp_cycling env *! y |}.
Proof.
  intros Hx Hy.
  destruct hack_template_single_line as [G E].
  destruct hack_template_radiation as (ra & R1 & R0).
  destruct hack_template_temp as (ta & T1 & T0).
  destruct (numeric_facts a Ha) as (Sa & _).
  destruct (numeric_facts b Hb) as (Sb & _).
  unfold Hackathon.apply_adjustments, try_except_pass, Hackathon.parse_adjustments.
  rewrite G. cbn [when].
  rewrite (bind_item _ 0 (hack_template a b tail)) by (rewrite E; reflexivity).
  rewrite (contains_of_second "radiation=" _ _ ltac:(discriminate) R1).
  rewrite (contains_of_second "temp=" _ _ ltac:(discriminate) T1).
  cbn [when].
  erewrite bind_ok.
  2:{ rewrite (bind_item _ 1 ra) by exact R1.
      rewrite (bind_item _ 0 a) by exact R0.
      rewrite (strip_plain a Sa).
      rewrite (bind_to_float a x) by exact Hx.
      reflexivity. }
  rewrite (bind_item _ 1 ta) by exact T1.
  rewrite (bind_item _ 0 b) by exact T0.
  rewrite (strip_plain b Sb).
  rewrite (bind_to_float b y) by exact Hy.
  destruct env; reflexivity.
Qed.

End HackTemplate.

Lemma hack_template_applies_values_witness :
  Hackathon.apply_adjustments
    (hack_template "0.9" "1.2" " because temp=high, stress is rising")
    Hackathon.new_environment =
  {| Hackathon.radiation_level :=
       Hackathon.radiation_level Hackathon.new_environment *! (9 # 10);
     Hackathon.temp_cycling :=
       Hackathon.temp_cycling Hackathon.new_environment *! (6 # 5) |}.
Proof.
  apply (hack_template_applies_values "0.9" "1.2" " because temp=high, stress is rising");
    first [reflexivity | discriminate | exact I].
Defined.

Section BlankTemp.



End BlankTemp.

(** ** Runs of the drivers *)

Section Runs.

Variable client : nat -> string.

(** Where the loop stops: after some [k] cycles, none of the earlier states
    having the flag set. *)
Lemma astro_cycles_shape (n i : nat) :
  exists k,
    i <= k <= i + n /\
    fst (Astrocycle.cycles client n i (Astrocycle.after_cycles client i))
      = Astrocycle.after_cycles client k /\
    (forall j, i <= j < k ->
       Astrocycle.critical_failure
         (Astrocycle.electrode (Astrocycle.after_cycles client j)) = false) /\
    ((snd (Astrocycle.cycles client n i (Astrocycle.after_cycles client i))
        = Astrocycle.Completed /\ k = i + n)
     \/
     (snd (Astrocycle.cycles client n i (Astrocycle.after_cycles client i))
        = Astrocycle.TerminatedEarly k /\ k < i + n /\
      Astrocycle.critical_failure
        (Astrocycle.electrode (Astrocycle.after_cycles client k)) = true)).
Proof.
  revert i; induction n as [|n IH]; intros i.
  - exists i. cbn [Astrocycle.cycles fst snd].
    repeat split; try lia. left. split; [reflexivity | lia].
  - cbn [Astrocycle.cycles].
    destruct (Astrocycle.critical_failure
                (Astrocycle.electrode (Astrocycle.after_cycles client i))) eqn:F.
    + exists i. cbn [fst snd]. repeat split; try lia.
      right. repeat split; [lia | exact F].
    + change (Astrocycle.cycle client i (Astrocycle.after_cycles client i))
        with (Astrocycle.after_cycles client (S i)).
      destruct (IH (S i)) as (k & Hk & Hfst & Hno & Hst).
      exists k. repeat split; try lia; try exact Hfst.
      * intros j Hj. destruct (Nat.eq_dec j i) as [->|Hne]; [exact F|].
        apply Hno. lia.
      * destruct Hst as [[Hs Hk']|[Hs [Hk' Hf]]].
        -- left. split; [exact Hs | lia].
        -- right. repeat split; [exact Hs | lia | exact Hf].
Qed.

Lemma astro_simulate_shape (N : nat) :
  exists k,
    k <= N /\
    fst (Astrocycle.simulate client N) = Astrocycle.after_cycles client k /\
    (forall j, j < k ->
       Astrocycle.critical_failure
         (Astrocycle.electrode (Astrocycle.after_cycles client j)) = false) /\
    ((snd (Astrocycle.simulate client N) = Astrocycle.Completed /\ k = N)
     \/
     (snd (Astrocycle.simulate client N) = Astrocycle.TerminatedEarly k /\ k < N /\
      Astrocycle.critical_failure
        (Astrocycle.electrode (Astrocycle.after_cycles client k)) = true)).
Proof.
  unfold Astrocycle.simulate.
  change Astrocycle.start with (Astrocycle.after_cycles client 0).
  destruct (astro_cycles_shape N 0) as (k & Hk & Hfst & Hno & Hst).
  exists k. repeat split; try lia; try exact Hfst.
  - intros j Hj. apply Hno. lia.
  - exact Hst.
Qed.

Lemma astro_history_entries (k : nat) :
  Astrocycle.cycle_history (Astrocycle.after_cycles client k)
  = map (fun j => Astrocycle.to_dict
                    (Astrocycle.electrode (Astrocycle.after_cycles client (S j))))
        (seq 0 k).
Proof.
  induction k as [|k IH]; [reflexivity|].
  rewrite seq_S, map_app. cbn [map Nat.add].
  rewrite <- IH. reflexivity.
Qed.

Lemma astro_replies_in_order (k : nat) :
  Astrocycle.all_reasoning (Astrocycle.after_cycles client k) = map client (seq 0 k).
Proof.
  induction k as [|k IH]; [reflexivity|].
  rewrite seq_S, map_app. cbn [map Nat.add].
  rewrite <- IH. reflexivity.
Qed.

Lemma astro_mission_hours_constant (k : nat) :
  Astrocycle.mission_hours (Astrocycle.environment (Astrocycle.after_cycles client k))
  = 100%Z.
Proof.
  induction k as [|k IH]; [reflexivity|].
  cbn [Astrocycle.after_cycles]. unfold Astrocycle.cycle, Astrocycle.run_brain_cycle.
  cbn [Astrocycle.environment].
  destruct (astro_frame (client k)
              (Astrocycle.environment (Astrocycle.after_cycles client k))) as [H _].
  rewrite H. exact IH.
Qed.

Lemma hack_cycles_entries (n i : nat) (sim : Hackathon.Simulation) :
  map Hackathon.d_cycle (Hackathon.cycle_history (Hackathon.cycles client n i sim))
  = (map Hackathon.d_cycle (Hackathon.cycle_history sim)
     ++ map (fun j => (Hackathon.cycle_count (Hackathon.state sim) + Z.of_nat j)%Z)
            (seq 1 n))%list
  /\
  Hackathon.all_reasoning (Hackathon.cycles client n i sim)
  = (Hackathon.all_reasoning sim ++ map client (seq i n))%list.
Proof.
  revert i sim; induction n as [|n IH]; intros i sim.
  - cbn [Hackathon.cycles seq map]. now rewrite !app_nil_r.
  - cbn [Hackathon.cycles]. destruct (IH (S i) (Hackathon.cycle client i sim)) as [H1 H2].
    rewrite H1, H2. clear H1 H2 IH.
    unfold Hackathon.cycle, Hackathon.run_brain_cycle.
    cbn [Hackathon.cycle_history Hackathon.all_reasoning Hackathon.state].
    rewrite map_app, <- !app_assoc. cbn [map app seq].
    split; [|reflexivity].
    f_equal. apply f_equal2; [reflexivity|].
    rewrite <- (seq_shift n 1), map_map. apply map_ext. intros j.
    unfold Hackathon.apply_degradation. cbn [Hackathon.cycle_count]. lia.
Qed.

End Runs.

Section RunTheorems.

(** X11: In every run of either driver the history entries are numbered 1, 2,
    ... in order, the replies are kept in the order of the requests, one per
    entry, and (astrocycle) the counter of the electrode is the number of
    entries and [mission_hours] is still 100. *)
Theorem run_bookkeeping (client : nat -> string) (N : nat) :
  (let sim := fst (Astrocycle.simulate client N) in
   let k := List.length (Astrocycle.cycle_history sim) in
   map Astrocycle.d_cycle (Astrocycle.cycle_history sim) = map Z.of_nat (seq 1 k) /\
   Astrocycle.all_reasoning sim = map client (seq 0 k) /\
   Astrocycle.cycle_count (Astrocycle.electrode sim) = Z.of_nat k /\
   Astrocycle.mission_hours (Astrocycle.environment sim) = 100%Z)
  /\
  (let sim := Hackathon.simulate client N in
   map Hackathon.d_cycle (Hackathon.cycle_history sim) = map Z.of_nat (seq 1 N) /\
   Hackathon.all_reasoning sim = map client (seq 0 N) /\
   List.length (Hackathon.cycle_history sim) = N).
Proof.
  split.
  - destruct (astro_simulate_shape client N) as (k & _ & Hfst & _).
    cbv zeta. rewrite Hfst, astro_history_length.
    repeat split.
    + rewrite astro_history_entries, map_map, <- seq_shift, map_map.
      apply map_ext. intros j.
      change (Astrocycle.d_cycle (Astrocycle.to_dict ?e)) with (Astrocycle.cycle_count e).
      apply astro_cycle_count.
    + apply astro_replies_in_order.
    + apply astro_cycle_count.
    + apply astro_mission_hours_constant.
  - cbv zeta. unfold Hackathon.simulate.
    destruct (hack_cycles_entries client N 0 Hackathon.start) as [H1 H2].
    rewrite H1, H2, hack_cycles_history.
    split; [|split]; reflexivity.
Qed.

(** X12: How a run of astrocycle ends, for every sequence of replies: it never
    has more than [N] entries; when the loop runs to its end there are
    exactly [N]; when it is left early, the index announced is the number of
    entries, is below [N], and the flag is set. *)
Theorem run_exit_status (client : nat -> string) (N : nat) :
  let sim := fst (Astrocycle.simulate client N) in
  let st := snd (Astrocycle.simulate client N) in
  List.length (Astrocycle.cycle_history sim) <= N /\
  (st = Astrocycle.Completed -> List.length (Astrocycle.cycle_history sim) = N) /\
  (forall i, st = Astrocycle.TerminatedEarly i ->
     i = List.length (Astrocycle.cycle_history sim) /\ i < N /\
     Astrocycle.critical_failure (Astrocycle.electrode sim) = true).
Proof.
  destruct (astro_simulate_shape client N) as (k & Hk & Hfst & _ & Hst).
  cbv zeta. rewrite Hfst, astro_history_length.
  repeat split.
  - exact Hk.
  - intros Hc. destruct Hst as [[_ ->]|[Hs _]]; [reflexivity|congruence].
  - destruct Hst as [[Hs _]|[Hs _]]; congruence.
  - destruct Hst as [[Hs _]|[Hs [Hlt _]]]; [congruence|].
    rewrite Hs in H. injection H as <-. exact Hlt.
  - destruct Hst as [[Hs _]|[Hs [_ Hf]]]; [congruence | exact Hf].
Qed.

Lemma run_exit_status_witness :
  2 = List.length (Astrocycle.cycle_history
                     (fst (Astrocycle.simulate client_overvoltage 15))) /\
  2 < 15 /\
  Astrocycle.critical_failure
    (Astrocycle.electrode (fst (Astrocycle.simulate client_overvoltage 15))) = true.
Proof.
  destruct (run_exit_status client_overvoltage 15) as (_ & _ & H).
  apply (H 2). vm_compute. reflexivity.
Defined.

(** X13: [run_simulation] of astrocycle always records at least one cycle and at
    most fifteen, so the average it prints divides by a positive length; its
    synthesis request follows the last cycle's request. *)
Theorem run_simulation_history_nonempty (client : nat -> string) :
  let sim := fst (fst (Astrocycle.run_simulation client)) in
  1 <= List.length (Astrocycle.cycle_history sim) <= 15 /\
  snd (Astrocycle.run_simulation client)
  = client (List.length (Astrocycle.cycle_history sim)).
Proof.
  cbv zeta. unfold Astrocycle.run_simulation.
  destruct (astro_simulate_shape client 15) as (k & Hk & Hfst & _ & Hst).
  destruct (Astrocycle.simulate client 15) as [sim st].
  cbn [fst snd] in *. subst sim.
  rewrite astro_history_length, astro_reasoning_length.
  repeat split; try lia.
  destruct Hst as [[_ ->]|[_ [_ Hf]]]; [lia|].
  destruct k; [discriminate Hf | lia].
Qed.

(** X14: In the history of a run, every entry but the last reports
    [critical_failure] false: only the last cycle of a run can have set the
    flag. *)
Theorem only_last_entry_reports_failure (client : nat -> string) (N j : nat)
    (d : Astrocycle.ElectrodeDict) :
  let history := Astrocycle.cycle_history (fst (Astrocycle.simulate client N)) in
  nth_error history j = Some d ->
  S j < List.length history ->
  Astrocycle.d_critical_failure d = false.
Proof.
  cbv zeta.
  destruct (astro_simulate_shape client N) as (k & _ & Hfst & Hno & _).
  rewrite Hfst, astro_history_length, astro_history_entries.
  intros Hd Hj.
  rewrite nth_error_map, nth_error_seq in Hd.
  destruct (Nat.ltb_spec j k) as [_|]; [|lia].
  cbn [option_map Nat.add] in Hd. injection Hd as <-.
  apply (Hno (S j)). lia.
Qed.

Lemma only_last_entry_reports_failure_witness :
  Astrocycle.d_critical_failure
    (Astrocycle.to_dict
       (Astrocycle.electrode (Astrocycle.after_cycles client_overvoltage 1))) = false.
Proof.
  apply (only_last_entry_reports_failure client_overvoltage 15 0).
  - vm_compute. reflexivity.
  - vm_compute. lia.
Defined.

End RunTheorems.

(** ** Degradation over many calls *)

Section ManyCalls.

Local Open Scope Q_scope.




End ManyCalls.

Section Inevitable.

Local Open Scope Q_scope.




End Inevitable.


(** ** Degradation over many calls, in binary64 *)

Section ManyCalls64.

Local Open Scope float_scope.

Lemma astro64_updates (calls : list (float * float * float * Z))
    (e : Astrocycle64.IonThrusterElectrode) :
  electrode_nonneg_or_nan e ->
  Forall call_nonneg_or_nan calls ->
  let e' := Astrocycle64.apply_degradations calls e in
  electrode_nonneg_or_nan e' /\
  ge_or_nan (Astrocycle64.sputtering_depth e') (Astrocycle64.sputtering_depth e) /\
  ge_or_nan (Astrocycle64.surface_roughness e') (Astrocycle64.surface_roughness e) /\
  ge_or_nan (Astrocycle64.microcracks e') (Astrocycle64.microcracks e) /\
  ge_or_nan (Astrocycle64.thermal_stress e') (Astrocycle64.thermal_stress e) /\
  ge_or_nan (Astrocycle64.hot_spot_formation e') (Astrocycle64.hot_spot_formation e) /\
  ge_or_nan (Astrocycle64.electrical_resistance e')
    (Astrocycle64.electrical_resistance e) /\
  ge_or_nan (Astrocycle64.arc_discharge_risk e') (Astrocycle64.arc_discharge_risk e) /\
  ge_or_nan (Astrocycle64.thrust_efficiency_loss e')
    (Astrocycle64.thrust_efficiency_loss e) /\
  Astrocycle64.cycle_count e'
  = (Astrocycle64.cycle_count e + Z.of_nat (List.length calls))%Z.
Proof.
  intros He Hcalls. revert e He.
  induction Hcalls as [|c calls Hc Hcalls IH]; intros e He.
  - cbv zeta. unfold Astrocycle64.apply_degradations. cbn [fold_left List.length].
    split; [exact He|].
    repeat (split; [apply ge_or_nan_refl|]). lia.
  - cbv zeta.
    change (Astrocycle64.apply_degradations (c :: calls) e)
      with (Astrocycle64.apply_degradations calls
              (let '(f, v, t, h) := c in Astrocycle64.apply_degradation e f v t h)).
    destruct c as [[[f v] t] h]. destruct Hc as (Hf & Hv & Ht).
    destruct (astro64_update e f v t h He Hf Hv Ht)
      as (He1 & M1 & M2 & M3 & M4 & M5 & M6 & M7 & M8 & Mc).
    cbv zeta in He1, M1, M2, M3, M4, M5, M6, M7, M8, Mc.
    destruct (IH _ He1) as (N0 & N1 & N2 & N3 & N4 & N5 & N6 & N7 & N8 & Nc).
    cbv zeta in N0, N1, N2, N3, N4, N5, N6, N7, N8, Nc.
    split; [exact N0|].
    split; [exact (ge_or_nan_trans _ _ _ M1 N1)|].
    split; [exact (ge_or_nan_trans _ _ _ M2 N2)|].
    split; [exact (ge_or_nan_trans _ _ _ M3 N3)|].
    split; [exact (ge_or_nan_trans _ _ _ M4 N4)|].
    split; [exact (ge_or_nan_trans _ _ _ M5 N5)|].
    split; [exact (ge_or_nan_trans _ _ _ M6 N6)|].
    split; [exact (ge_or_nan_trans _ _ _ M7 N7)|].
    split; [exact (ge_or_nan_trans _ _ _ M8 N8)|].
    rewrite Nc, Mc. cbn [List.length]. lia.
Qed.

Lemma nonneg_call64_or_nan (c : float * float * float * Z) :
  nonneg_call64 c -> call_nonneg_or_nan c.
Proof.
  destruct c as [[[f v] t] h]. intros (Hf & Hv & Ht).
  exact (conj (nonneg_nonneg_or_nan f Hf)
          (conj (nonneg_nonneg_or_nan v Hv) (nonneg_nonneg_or_nan t Ht))).
Qed.

(** X15: In binary64, over any sequence of calls with non-negative
    multipliers, each of the eight variables of an electrode that starts with
    non-negative values ends not below its starting value, or as NaN, and
    the counter advances by the number of calls. *)
Theorem damage_accumulates_over_calls (calls : list (float * float * float * Z))
    (e : Astrocycle64.IonThrusterElectrode) :
  nonneg_electrode64 e ->
  Forall nonneg_call64 calls ->
  let e' := Astrocycle64.apply_degradations calls e in
  ge_or_nan (Astrocycle64.sputtering_depth e') (Astrocycle64.sputtering_depth e) /\
  ge_or_nan (Astrocycle64.surface_roughness e') (Astrocycle64.surface_roughness e) /\
  ge_or_nan (Astrocycle64.microcracks e') (Astrocycle64.microcracks e) /\
  ge_or_nan (Astrocycle64.thermal_stress e') (Astrocycle64.thermal_stress e) /\
  ge_or_nan (Astrocycle64.hot_spot_formation e') (Astrocycle64.hot_spot_formation e) /\
  ge_or_nan (Astrocycle64.electrical_resistance e')
    (Astrocycle64.electrical_resistance e) /\
  ge_or_nan (Astrocycle64.arc_discharge_risk e') (Astrocycle64.arc_discharge_risk e) /\
  ge_or_nan (Astrocycle64.thrust_efficiency_loss e')
    (Astrocycle64.thrust_efficiency_loss e) /\
  Astrocycle64.cycle_count e'
  = (Astrocycle64.cycle_count e + Z.of_nat (List.length calls))%Z.
Proof.
  intros (H1 & H2 & H3 & H4 & H5 & H6 & H7 & H8) Hcalls.
  apply (astro64_updates calls e).
  - unfold electrode_nonneg_or_nan.
    repeat (split; [apply nonneg_nonneg_or_nan; assumption|]).
    apply nonneg_nonneg_or_nan; assumption.
  - eapply Forall_impl; [|exact Hcalls]. exact nonneg_call64_or_nan.
Qed.

Lemma damage_accumulates_over_calls_witness :
  let e := Astrocycle64.new_electrode in
  let e' := Astrocycle64.apply_degradations
              [(1.0, 1.0, 1.0, 100%Z); (0.0, 2.5, 0.5, 100%Z)] e in
  ge_or_nan (Astrocycle64.sputtering_depth e') (Astrocycle64.sputtering_depth e) /\
  ge_or_nan (Astrocycle64.surface_roughness e') (Astrocycle64.surface_roughness e) /\
  ge_or_nan (Astrocycle64.microcracks e') (Astrocycle64.microcracks e) /\
  ge_or_nan (Astrocycle64.thermal_stress e') (Astrocycle64.thermal_stress e) /\
  ge_or_nan (Astrocycle64.hot_spot_formation e') (Astrocycle64.hot_spot_formation e) /\
  ge_or_nan (Astrocycle64.electrical_resistance e')
    (Astrocycle64.electrical_resistance e) /\
  ge_or_nan (Astrocycle64.arc_discharge_risk e') (Astrocycle64.arc_discharge_risk e) /\
  ge_or_nan (Astrocycle64.thrust_efficiency_loss e')
    (Astrocycle64.thrust_efficiency_loss e) /\
  Astrocycle64.cycle_count e' = (Astrocycle64.cycle_count e + 2)%Z.
Proof.
  apply (damage_accumulates_over_calls
           [(1.0, 1.0, 1.0, 100%Z); (0.0, 2.5, 0.5, 100%Z)] Astrocycle64.new_electrode).
  - unfold nonneg_electrode64. repeat split.
  - repeat constructor.
Defined.

Lemma hack64_updates (calls : list (float * float)) (s : Hackathon64.MaterialState) :
  nonneg_or_nan (Hackathon64.defect_density s) ->
  nonneg_or_nan (Hackathon64.thermal_stress s) ->
  Forall (fun c => nonneg_or_nan (fst c) /\ nonneg_or_nan (snd c)) calls ->
  let s' := Hackathon64.apply_degradations calls s in
  (nonneg_or_nan (Hackathon64.defect_density s') /\
   nonneg_or_nan (Hackathon64.thermal_stress s')) /\
  ge_or_nan (Hackathon64.defect_density s') (Hackathon64.defect_density s) /\
  ge_or_nan (Hackathon64.thermal_stress s') (Hackathon64.thermal_stress s) /\
  le_or_nan (Hackathon64.conductivity_drift s') (Hackathon64.conductivity_drift s) /\
  Hackathon64.cycle_count s'
  = (Hackathon64.cycle_count s + Z.of_nat (List.length calls))%Z.
Proof.
  intros Hd Ht Hcalls. revert s Hd Ht.
  induction Hcalls as [|c calls Hc Hcalls IH]; intros s Hd Ht.
  - cbv zeta. unfold Hackathon64.apply_degradations. cbn [fold_left List.length].
    split; [exact (conj Hd Ht)|].
    split; [apply ge_or_nan_refl|]. split; [apply ge_or_nan_refl|].
    split; [apply le_or_nan_refl|]. lia.
  - cbv zeta.
    change (Hackathon64.apply_degradations (c :: calls) s)
      with (Hackathon64.apply_degradations calls
              (let '(r, t) := c in Hackathon64.apply_degradation s r t)).
    destruct c as [r t]. cbn [fst snd] in Hc. destruct Hc as [Hr Htc].
    destruct (hack64_update s r t Hd Ht Hr Htc) as (B1 & B2 & M1 & M2 & M3 & Mc).
    cbv zeta in B1, B2, M1, M2, M3, Mc.
    destruct (IH _ B1 B2) as ((C1 & C2) & N1 & N2 & N3 & Nc).
    cbv zeta in C1, C2, N1, N2, N3, Nc.
    split; [exact (conj C1 C2)|].
    split; [exact (ge_or_nan_trans _ _ _ M1 N1)|].
    split; [exact (ge_or_nan_trans _ _ _ M2 N2)|].
    split; [exact (le_or_nan_trans _ _ _ M3 N3)|].
    rewrite Nc, Mc. cbn [List.length]. lia.
Qed.

(** X18: In binary64, over any sequence of calls of the material update with
    non-negative arguments, from non-negative defect density and thermal
    stress: each of the two ends not below its starting value, or as NaN;
    the conductivity drift ends not above its own, or as NaN; and the
    counter advances by the number of calls. *)
Theorem material_degrades_over_calls (calls : list (float * float))
    (s : Hackathon64.MaterialState) :
  (0 <=? Hackathon64.defect_density s) = true ->
  (0 <=? Hackathon64.thermal_stress s) = true ->
  Forall (fun c => (0 <=? fst c) = true /\ (0 <=? snd c) = true) calls ->
  let s' := Hackathon64.apply_degradations calls s in
  ge_or_nan (Hackathon64.defect_density s') (Hackathon64.defect_density s) /\
  ge_or_nan (Hackathon64.thermal_stress s') (Hackathon64.thermal_stress s) /\
  le_or_nan (Hackathon64.conductivity_drift s') (Hackathon64.conductivity_drift s) /\
  Hackathon64.cycle_count s'
  = (Hackathon64.cycle_count s + Z.of_nat (List.length calls))%Z.
Proof.
  intros Hd Ht Hcalls.
  apply (hack64_updates calls s).
  - apply nonneg_nonneg_or_nan; exact Hd.
  - apply nonneg_nonneg_or_nan; exact Ht.
  - eapply Forall_impl; [|exact Hcalls].
    intros c [H1 H2].
    exact (conj (nonneg_nonneg_or_nan _ H1) (nonneg_nonneg_or_nan _ H2)).
Qed.

Lemma material_degrades_over_calls_witness :
  let s := Hackathon64.new_state in
  let s' := Hackathon64.apply_degradations [(1.0, 1.0); (0.8, 1.2); (0.0, 0.0)] s in
  ge_or_nan (Hackathon64.defect_density s') (Hackathon64.defect_density s) /\
  ge_or_nan (Hackathon64.thermal_stress s') (Hackathon64.thermal_stress s) /\
  le_or_nan (Hackathon64.conductivity_drift s') (Hackathon64.conductivity_drift s) /\
  Hackathon64.cycle_count s' = (Hackathon64.cycle_count s + 3)%Z.
Proof.
  apply (material_degrades_over_calls [(1.0, 1.0); (0.8, 1.2); (0.0, 0.0)]
           Hackathon64.new_state).
  - reflexivity.
  - reflexivity.
  - repeat constructor.
Defined.

(** X17: In binary64, a multiplier at zero stops what it drives, unless a
    factor of the increment is infinite or NaN: with [ion_flux == 0] a call
    leaves sputtering depth and surface roughness equal to their values
    before it, or NaN; with [thermal_cycling == 0] it leaves microcracks and
    thermal stress so; whatever the state and the other arguments. *)
Theorem zero_multiplier_freezes (e : Astrocycle64.IonThrusterElectrode)
    (f v t : float) (h : Z) :
  let e' := Astrocycle64.apply_degradation e f v t h in
  ((f =? 0) = true ->
   eq_or_nan (Astrocycle64.sputtering_depth e') (Astrocycle64.sputtering_depth e) /\
   eq_or_nan (Astrocycle64.surface_roughness e') (Astrocycle64.surface_roughness e))
  /\
  ((t =? 0) = true ->
   eq_or_nan (Astrocycle64.microcracks e') (Astrocycle64.microcracks e) /\
   eq_or_nan (Astrocycle64.thermal_stress e') (Astrocycle64.thermal_stress e)).
Proof.
  cbv zeta. unfold Astrocycle64.apply_degradation. cbv zeta.
  cbn [Astrocycle64.sputtering_depth Astrocycle64.surface_roughness
       Astrocycle64.microcracks Astrocycle64.thermal_stress].
  split; intros H0; apply zero_zero_or_nan in H0; split;
    apply add64_zero; repeat apply mul64_zero_l; exact H0.
Qed.

Lemma zero_multiplier_freezes_witness :
  let e := Astrocycle64.new_electrode in
  let e' := Astrocycle64.apply_degradation e 0 1.0 0 100 in
  (eq_or_nan (Astrocycle64.sputtering_depth e') (Astrocycle64.sputtering_depth e) /\
   eq_or_nan (Astrocycle64.surface_roughness e') (Astrocycle64.surface_roughness e))
  /\
  (eq_or_nan (Astrocycle64.microcracks e') (Astrocycle64.microcracks e) /\
   eq_or_nan (Astrocycle64.thermal_stress e') (Astrocycle64.thermal_stress e)).
Proof.
  destruct (zero_multiplier_freezes Astrocycle64.new_electrode 0 1.0 0 100) as [Hf Ht].
  exact (conj (Hf eq_refl) (Ht eq_refl)).
Defined.

End ManyCalls64.

(** ** History: the prompt window *)

Section History.

Lemma slice_from_last {A : Type} (n : nat) (l : list A) :
  PyStr.slice_from (- Z.of_nat (S n)) l = skipn (List.length l - S n) l.
Proof.
  unfold PyStr.slice_from.
  destruct (Z.ltb_spec (- Z.of_nat (S n)) 0) as [_|H]; [|lia].
  f_equal. lia.
Qed.

(** X9: The window of history sent with a request is the last four entries
    (three in hackathon), or the whole history when it is shorter: it is a
    suffix of the history, of length min(4, len), and the guard of the
    source changes nothing, the slice alone giving the same list. *)
Theorem recent_history_window :
  (forall h : list Astrocycle.ElectrodeDict,
     (exists older, h = (older ++ Astrocycle.recent_history h)%list) /\
     List.length (Astrocycle.recent_history h) = Nat.min 4 (List.length h) /\
     Astrocycle.recent_history h = PyStr.slice_from (-4) h)
  /\
  (forall h : list Hackathon.StateDict,
     (exists older, h = (older ++ Hackathon.recent_history h)%list) /\
     List.length (Hackathon.recent_history h) = Nat.min 3 (List.length h) /\
     Hackathon.recent_history h = PyStr.slice_from (-3) h).
Proof.
  split; intros h.
  - assert (E : Astrocycle.recent_history h = skipn (List.length h - 4) h).
    { unfold Astrocycle.recent_history.
      destruct (Nat.leb_spec 4 (List.length h)) as [H|H].
      - apply (slice_from_last 3).
      - replace (List.length h - 4) with 0 by lia. reflexivity. }
    repeat split.
    + exists (firstn (List.length h - 4) h). rewrite E. symmetry. apply firstn_skipn.
    + rewrite E, length_skipn. lia.
    + rewrite E. symmetry. apply (slice_from_last 3).
  - assert (E : Hackathon.recent_history h = skipn (List.length h - 3) h).
    { unfold Hackathon.recent_history.
      destruct (Nat.leb_spec 3 (List.length h)) as [H|H].
      - apply (slice_from_last 2).
      - replace (List.length h - 3) with 0 by lia. reflexivity. }
    repeat split.
    + exists (firstn (List.length h - 3) h). rewrite E. symmetry. apply firstn_skipn.
    + rewrite E, length_skipn. lia.
    + rewrite E. symmetry. apply (slice_from_last 2).
Qed.

End History.

Lemma analysis_report_cases_witness :
  (exists accel interaction failure,
     Astrocycle.analysis_report
       "ACCELERATION: arcing INTERACTION: heat and cracks FAILURE_CHAIN: A to B RECOMMEND: voltage=0.8"
     = Astrocycle.Fields accel interaction failure)
  /\
  Astrocycle.analysis_report "ACCELERATION: arcing, FAILURE_CHAIN: A to B"
  = Astrocycle.Excerpt (PyStr.upto 200 "ACCELERATION: arcing, FAILURE_CHAIN: A to B").
Proof.
  split.
  - apply (analysis_report_cases
             "ACCELERATION: arcing INTERACTION: heat and cracks FAILURE_CHAIN: A to B RECOMMEND: voltage=0.8").
    repeat split.
  - apply (analysis_report_cases "ACCELERATION: arcing, FAILURE_CHAIN: A to B").
    right. left. reflexivity.
Defined.
